(** * gdrive-cloud-sync: the backup pipeline and its retention policy

    A shallow embedding of [main.py]: the recursive folder walker
    ([add_files_to_archive]), the orchestrator ([backup_folder], [main])
    and the retention step ([delete_old_backups]).

    The Python code talks to three outside parties: the Drive service, the
    local file system and the clock.  They are gathered in one [world]
    record which every function threads explicitly; an exception leaves
    the world as it was when it was raised, so what a failed run leaves
    behind can be inspected.

    The service is modelled by what the program can observe of it: a
    store of file resources, listings that answer a query one page at a
    time, downloads that deliver a content chunk by chunk, uploads and
    deletions.  Which requests fail is part of the world.  The depth of
    the call stack of the interpreter is part of the world too: the
    walker is recursive, and a call beyond that depth raises
    [RecursionError].  The local disk does not fail by itself, and the
    run is followed from the configuration on. *)

From Stdlib Require Import String Ascii Strings.Byte ZArith Lia Bool Arith List.
From Stdlib Require Import Permutation Sorted.
Import ListNotations.

Local Open Scope string_scope.
Local Open Scope nat_scope.
Local Open Scope list_scope.

(** ** Python values and exceptions *)

(** The values the modelled functions return. A [def] without a [return]
    statement yields [PyNone]. *)
Inductive pyval : Type :=
| PyNone
| PyInt (n : Z)
| PyStr (s : string).

(** ** The remote store *)

(** A file resource of the Drive service, with the fields the program
    reads or filters on. [item_media] is the file content as the service
    delivers it to a download, one list per chunk. *)
Record item : Type := mk_item {
  item_id : string;
  item_name : string;
  item_mimeType : string;
  item_parents : list string;
  item_trashed : bool;
  item_createdTime : Z;
  item_media : list (list byte)
}.

(** The [q] parameter of [files().list]: the program only ever builds
    conjunctions of the four clauses below (lines 49 and 78). *)
Record query : Type := mk_query {
  q_parent : string;                    (* '<id>' in parents *)
  q_trashed : option bool;              (* trashed = <b> *)
  q_mimeType : option string;           (* mimeType='<m>' *)
  q_name_contains : option string       (* name contains '<s>' *)
}.

Inductive order : Type := createdTime_desc.

(** The requests the program sends to the service, in the order sent. *)
Inductive api_call : Type :=
| ApiList (q : query)
| ApiGetMedia (fileId : string)
| ApiCreate (name : string) (parent : string)
| ApiDelete (fileId : string).

Inductive exn : Type :=
| HttpError (c : api_call)
| RecursionError
| OSError (path : string).

Inductive outcome (A : Type) : Type :=
| Return (a : A)
| Raise (e : exn).
Arguments Return {A} a.
Arguments Raise {A} e.

(** ** The local file system *)

Record tar_entry : Type := mk_entry {
  te_name : string;
  te_size : Z;
  te_data : list byte
}.

Inductive tar_state : Type := Writing | Finalized | Aborted.

(** A tar archive on the local disk: the members written so far and
    whether the writer is still open. *)
Record tar_file : Type := mk_tar {
  tf_entries : list tar_entry;
  tf_state : tar_state
}.

(** ** The clock *)

(** A [datetime.datetime]; the class keeps its fields in range (see
    [valid_datetime]). *)
Record datetime : Type := mk_datetime {
  year : Z; month : Z; day : Z;
  hour : Z; minute : Z; second : Z;
  microsecond : Z
}.

(** ** The world *)

Record world : Type := mk_world {
  drive : list item;                       (* the remote store, in listing order *)
  page_size : nat;                         (* files per page of a listing *)
  server_time : Z;                         (* createdTime given to a new file *)
  fail_list : list string;                 (* folders whose listing fails *)
  fail_media : list string;                (* files whose download fails *)
  fail_create : bool;                      (* whether an upload fails *)
  fail_delete : list string;               (* files whose deletion fails *)
  local_fs : list (string * tar_file);     (* the local disk *)
  clock : datetime;                        (* what datetime.now() returns *)
  stack_depth : nat;                       (* nested calls of the walker the interpreter allows *)
  calls : list api_call                    (* requests sent so far, oldest first *)
}.

Definition set_drive (d : list item) (w : world) : world :=
  mk_world d (page_size w) (server_time w) (fail_list w) (fail_media w)
           (fail_create w) (fail_delete w) (local_fs w) (clock w) (stack_depth w) (calls w).

Definition set_local_fs (fs : list (string * tar_file)) (w : world) : world :=
  mk_world (drive w) (page_size w) (server_time w) (fail_list w) (fail_media w)
           (fail_create w) (fail_delete w) fs (clock w) (stack_depth w) (calls w).

Definition log_call (c : api_call) (w : world) : world :=
  mk_world (drive w) (page_size w) (server_time w) (fail_list w) (fail_media w)
           (fail_create w) (fail_delete w) (local_fs w) (clock w) (stack_depth w)
           (calls w ++ [c]).

(** ** The monad of the program: state and exceptions *)

Definition M (A : Type) : Type := world -> outcome A * world.

Definition ret {A} (a : A) : M A := fun w => (Return a, w).

Definition raise {A} (e : exn) : M A := fun w => (Raise e, w).

Definition bind {A B} (m : M A) (k : A -> M B) : M B :=
  fun w =>
    match m w with
    | (Return a, w') => k a w'
    | (Raise e, w') => (Raise e, w')
    end.

Notation "x <- m ;; k" := (bind m (fun x => k))
  (at level 61, m at next level, right associativity).
Notation "m ;;; k" := (bind m (fun _ => k))
  (at level 61, right associativity).

Definition get_world : M world := fun w => (Return w, w).

(** [for x in xs: body x] *)
Fixpoint for_each {A} (xs : list A) (body : A -> M unit) : M unit :=
  match xs with
  | [] => ret tt
  | x :: rest => body x ;;; for_each rest body
  end.

(** ** String helpers *)

Definition mem (s : string) (l : list string) : bool :=
  existsb (String.eqb s) l.

Fixpoint is_prefix (p s : string) : bool :=
  match p, s with
  | EmptyString, _ => true
  | String a p', String b s' => Ascii.eqb a b && is_prefix p' s'
  | String _ _, EmptyString => false
  end.

(** [sub in s] *)
Fixpoint contains (sub s : string) : bool :=
  is_prefix sub s ||
  match s with
  | EmptyString => false
  | String _ s' => contains sub s'
  end.

(** [os.path.join(a, b)] of posixpath, for two components. *)
Definition ends_with_slash (s : string) : bool :=
  match get (String.length s - 1) s with
  | Some c => Ascii.eqb c "/"
  | None => false
  end.

Definition os_path_join (a b : string) : string :=
  if is_prefix "/" b then b
  else if (String.eqb a "") || ends_with_slash a then (a ++ b)%string
  else (a ++ "/" ++ b)%string.

(** ** The Drive service

    [files().list(q=..., orderBy=..., pageToken=...).execute()]: the files
    matching [q], ordered when asked, cut into pages of [page_size w]
    files. The answer holds one page and, when files remain after it, the
    token of the next page. *)

Definition matches (q : query) (f : item) : bool :=
  mem (q_parent q) (item_parents f)
  && match q_trashed q with
     | Some b => Bool.eqb (item_trashed f) b
     | None => true
     end
  && match q_mimeType q with
     | Some m => String.eqb (item_mimeType f) m
     | None => true
     end
  && match q_name_contains q with
     | Some s => contains s (item_name f)
     | None => true
     end.

Fixpoint insert_desc (x : item) (l : list item) : list item :=
  match l with
  | [] => [x]
  | y :: l' =>
      if (item_createdTime y <=? item_createdTime x)%Z then x :: l
      else y :: insert_desc x l'
  end.

Definition sort_createdTime_desc (l : list item) : list item :=
  fold_right insert_desc [] l.

Record page : Type := mk_page {
  files : list item;
  nextPageToken : option nat
}.

Definition files_list (q : query) (orderBy : option order)
                      (pageToken : option nat) : M page :=
  fun w =>
    let w' := log_call (ApiList q) w in
    if mem (q_parent q) (fail_list w) then (Raise (HttpError (ApiList q)), w')
    else
      let hits := filter (matches q) (drive w) in
      let sorted := match orderBy with
                    | Some createdTime_desc => sort_createdTime_desc hits
                    | None => hits
                    end in
      let start := match pageToken with Some n => n | None => 0 end in
      let rest := skipn start sorted in
      (Return {| files := firstn (page_size w) rest;
                 nextPageToken := if (length rest <=? page_size w)%nat then None
                                  else Some (start + page_size w) |}, w').

Definition has_id (fileId : string) (f : item) : bool :=
  String.eqb (item_id f) fileId.

(** [files().delete(fileId=...).execute()] *)
Definition files_delete (fileId : string) : M unit :=
  fun w =>
    let w' := log_call (ApiDelete fileId) w in
    if mem fileId (fail_delete w) || negb (existsb (has_id fileId) (drive w))
    then (Raise (HttpError (ApiDelete fileId)), w')
    else (Return tt,
          set_drive (filter (fun f => negb (has_id fileId f)) (drive w)) w').

(** The id the service gives to a new file: one no file of the store has
    (it is longer than each of them). *)
Definition fresh_id (d : list item) : string :=
  fold_right (fun f acc => (item_id f ++ acc)%string) "x" d.

(** A [MediaFileUpload]: the bytes of a local file and the MIME type
    declared for them. *)
Record media_upload : Type := mk_media {
  media_content : list byte;
  media_mimetype : string
}.

(** [files().create(body={'name': name, 'parents': [parent]},
    media_body=..., fields='id').execute()]. The body names no MIME type,
    so the new file takes the one of the media. *)
Definition files_create (name parent : string) (media_body : media_upload)
  : M string :=
  fun w =>
    let w' := log_call (ApiCreate name parent) w in
    if fail_create w then (Raise (HttpError (ApiCreate name parent)), w')
    else
      let new_id := fresh_id (drive w) in
      (Return new_id,
       set_drive (drive w ++ [mk_item new_id name (media_mimetype media_body)
                                      [parent] false (server_time w)
                                      [media_content media_body]]) w').

(** ** io.BytesIO *)

Record BytesIO : Type := mk_bytesio {
  bio_buf : list byte;
  bio_pos : nat
}.

(** [fh.write(data)]: the bytes go at the position, over what is there;
    a position past the end is reached with null bytes. *)
Definition bio_write (fh : BytesIO) (data : list byte) : BytesIO :=
  {| bio_buf := firstn (bio_pos fh) (bio_buf fh)
                ++ repeat x00 (bio_pos fh - length (bio_buf fh)) ++ data
                ++ skipn (bio_pos fh + length data) (bio_buf fh);
     bio_pos := bio_pos fh + length data |}.

Definition bio_seek (fh : BytesIO) (n : nat) : BytesIO :=
  {| bio_buf := bio_buf fh; bio_pos := n |}.

(** [fh.getbuffer().nbytes] *)
Definition bio_nbytes (fh : BytesIO) : Z := Z.of_nat (length (bio_buf fh)).

(** [fh.read(n)], without moving the position. *)
Definition bio_read (fh : BytesIO) (n : nat) : list byte :=
  firstn n (skipn (bio_pos fh) (bio_buf fh)).

(** Lines 59 to 64: the request for the content of [fileId] and the
    [while not done] loop of the downloader. Every [next_chunk] writes one
    chunk of the content to [fh]; the loop ends with the last chunk. *)
Fixpoint next_chunks (fh : BytesIO) (chunks : list (list byte)) : BytesIO :=
  match chunks with
  | [] => fh
  | c :: rest => next_chunks (bio_write fh c) rest
  end.

Definition download (fileId : string) (fh : BytesIO) : M BytesIO :=
  fun w =>
    let w' := log_call (ApiGetMedia fileId) w in
    if mem fileId (fail_media w) then (Raise (HttpError (ApiGetMedia fileId)), w')
    else
      match find (has_id fileId) (drive w) with
      | Some f => (Return (next_chunks fh (item_media f)), w')
      | None => (Raise (HttpError (ApiGetMedia fileId)), w')
      end.

(** ** tarfile and the local disk *)

Fixpoint fs_lookup (p : string) (fs : list (string * tar_file)) : option tar_file :=
  match fs with
  | [] => None
  | (q, v) :: fs' => if String.eqb q p then Some v else fs_lookup p fs'
  end.

Definition fs_remove (p : string) (fs : list (string * tar_file))
  : list (string * tar_file) :=
  filter (fun e => negb (String.eqb (fst e) p)) fs.

Definition fs_write (p : string) (v : tar_file) (fs : list (string * tar_file))
  : list (string * tar_file) :=
  (p, v) :: fs_remove p fs.

(** [tarfile.TarInfo(name=...)] with its [size] attribute. *)
Record TarInfo : Type := mk_tarinfo {
  ti_name : string;
  ti_size : Z
}.

(** [tarfile.open(path, 'w:gz', compresslevel=9)]: the file is created,
    or emptied when it exists. The handle of the archive is its path.
    The errors of the disk itself (no space, no permission, a directory
    at the path) are not modelled: here the call always returns. *)
Definition tarfile_open (path : string) : M string :=
  fun w => (Return path, set_local_fs (fs_write path (mk_tar [] Writing) (local_fs w)) w).

(** [tar.addfile(tarinfo, fh)]: a header with the name and the size, then
    [tarinfo.size] bytes read from [fh]; fewer bytes in [fh] is an error. *)
Definition tar_addfile (tar : string) (tarinfo : TarInfo) (fh : BytesIO) : M unit :=
  fun w =>
    match fs_lookup tar (local_fs w) with
    | Some (mk_tar entries Writing) =>
        let data := bio_read fh (Z.to_nat (ti_size tarinfo)) in
        if (length data <? Z.to_nat (ti_size tarinfo))%nat then (Raise (OSError tar), w)
        else
          let e := mk_entry (ti_name tarinfo) (ti_size tarinfo) data in
          (Return tt,
           set_local_fs (fs_write tar (mk_tar (entries ++ [e]) Writing) (local_fs w)) w)
    | _ => (Raise (OSError tar), w)
    end.

Definition tar_close (tar : string) (st : tar_state) (w : world) : world :=
  match fs_lookup tar (local_fs w) with
  | Some tf => set_local_fs (fs_write tar (mk_tar (tf_entries tf) st) (local_fs w)) w
  | None => w
  end.

(** [with tarfile.open(path, 'w:gz') as tar: body]: leaving the block
    closes the archive, with its end marker when the body returned and
    without it when the body raised; the exception goes on. *)
Definition with_tarfile (path : string) (body : string -> M unit) : M unit :=
  fun w =>
    match tarfile_open path w with
    | (Return tar, w0) =>
        match body tar w0 with
        | (Return _, w1) => (Return tt, tar_close tar Finalized w1)
        | (Raise e, w1) => (Raise e, tar_close tar Aborted w1)
        end
    | (Raise e, w0) => (Raise e, w0)
    end.

(** [os.remove(path)] *)
Definition os_remove (path : string) : M unit :=
  fun w =>
    match fs_lookup path (local_fs w) with
    | Some _ => (Return tt, set_local_fs (fs_remove path (local_fs w)) w)
    | None => (Raise (OSError path), w)
    end.

Definition tar_entries (tar : string) (w : world) : list tar_entry :=
  match fs_lookup tar (local_fs w) with
  | Some tf => tf_entries tf
  | None => []
  end.

(** ** Python slices *)

(** [s[:k]] on a string. *)
Definition str_slice_to (s : string) (k : Z) : string :=
  let len := Z.of_nat (String.length s) in
  let stop := if (k <? 0)%Z then Z.max 0 (len + k) else Z.min k len in
  substring 0 (Z.to_nat stop) s.

(** [l[k:]] on a list. *)
Definition list_slice_from {A} (l : list A) (k : Z) : list A :=
  let len := Z.of_nat (length l) in
  let start := if (k <? 0)%Z then Z.max 0 (len + k) else Z.min k len in
  skipn (Z.to_nat start) l.

(** ** Naming the archive (lines 27 and 28) *)

Definition digit_char (d : Z) : ascii := ascii_of_nat (48 + Z.to_nat d).

(** [str(n)] for [n >= 0]; [fuel] bounds the number of digits. *)
Fixpoint decimal_fuel (fuel : nat) (n : Z) : string :=
  match fuel with
  | O => ""
  | S fuel' =>
      if (n <? 10)%Z then String (digit_char n) ""
      else (decimal_fuel fuel' (n / 10) ++ String (digit_char (n mod 10)) "")%string
  end.

Definition decimal (n : Z) : string := decimal_fuel (S (Z.to_nat n)) n.

Fixpoint zeros (k : nat) : string :=
  match k with
  | O => ""
  | S k' => String "0" (zeros k')
  end.

(** [s.zfill(width)]: zeros on the left up to [width] characters. *)
Definition zfill (width : nat) (s : string) : string :=
  (zeros (width - String.length s) ++ s)%string.

(** [t.strftime('%Y-%m-%d_%H-%M-%S-%f')]. The C library prints [%Y]
    without padding; the other fields are padded with zeros, to two
    characters and [%f] to six. *)
Definition strftime (t : datetime) : string :=
  (decimal (year t) ++ "-" ++ zfill 2 (decimal (month t)) ++ "-"
   ++ zfill 2 (decimal (day t)) ++ "_" ++ zfill 2 (decimal (hour t)) ++ "-"
   ++ zfill 2 (decimal (minute t)) ++ "-" ++ zfill 2 (decimal (second t)) ++ "-"
   ++ zfill 6 (decimal (microsecond t)))%string.

(** Line 28. *)
Definition backup_file_name (now : datetime) (backup_name : string) : string :=
  (str_slice_to (strftime now) (-3) ++ "_" ++ backup_name ++ ".tar.gz")%string.

(** The ranges of the fields of a [datetime]. *)
Definition valid_datetime (t : datetime) : Prop :=
  (1 <= year t <= 9999)%Z /\ (1 <= month t <= 12)%Z /\ (1 <= day t <= 31)%Z /\
  (0 <= hour t <= 23)%Z /\ (0 <= minute t <= 59)%Z /\ (0 <= second t <= 59)%Z /\
  (0 <= microsecond t <= 999999)%Z.

(** ** The program *)

Definition FOLDER_MIME : string := "application/vnd.google-apps.folder".

(** [add_files_to_archive] (lines 44 to 69). The listing is asked for
    once, without a page token, and [results.get('files', [])] is the
    first page. The function calls itself for every sub-folder; [depth]
    counts the nested calls the interpreter still allows, and a call
    beyond them raises [RecursionError]. *)
Fixpoint add_files_to_archive (depth : nat) (tar : string)
                              (folder_id current_path : string) : M pyval :=
  match depth with
  | O => raise RecursionError
  | S depth' =>
      results <- files_list (mk_query folder_id (Some false) None None) None None ;;
      let items := files results in
      for_each items (fun item =>
        let item_path := os_path_join current_path (item_name item) in
        if String.eqb (item_mimeType item) FOLDER_MIME then
          add_files_to_archive depth' tar (item_id item) item_path ;;; ret tt
        else
          fh <- download (item_id item) (mk_bytesio [] 0) ;;
          let fh := bio_seek fh 0 in
          let tarinfo := mk_tarinfo item_path (bio_nbytes fh) in
          tar_addfile tar tarinfo fh) ;;;
      ret PyNone
  end.

(** Text that can stand between the quotes of a query as it is: it
    holds no quote and no backslash. *)
Definition plain_literal (s : string) : bool :=
  negb (contains "'" s) && negb (contains (String (ascii_of_nat 92) "") s).

(** [delete_old_backups] (lines 71 to 88). Line 78 writes the query as a
    string, with [dest_folder_id] and [backup_name] pasted between
    quotes, unescaped. The query record below is what that string asks
    for when the pasted text is a [plain_literal]: the properties about
    the files the query reaches assume it of [backup_name]; the folder
    id is an identifier of the service. *)
Definition delete_old_backups (dest_folder_id : string) (versions_to_keep : Z)
                              (backup_name : string) : M pyval :=
  results <- files_list (mk_query dest_folder_id None (Some "application/zip")
                                  (Some backup_name))
                        (Some createdTime_desc) None ;;
  let files := files results in
  if (Z.of_nat (length files) >? versions_to_keep)%Z then
    let files_to_delete := list_slice_from files versions_to_keep in
    for_each files_to_delete (fun file => files_delete (item_id file)) ;;;
    ret PyNone
  else ret PyNone.

Definition archive_file_path : string := "/tmp/backup.tar.gz".

(** The configuration [main] reads from the environment (lines 107 to 110). *)
Record config : Type := mk_config {
  source_folder_ids : list string;
  dest_folder_id : string;
  backup_name : string;
  versions_to_keep : Z
}.

Section Pipeline.

(** The bytes of a gzip-compressed tar archive with the given members:
    the work of the [tarfile] and [gzip] modules, left open here. *)
Variable targz_bytes : list tar_entry -> list byte.

(** [MediaFileUpload(path, mimetype=...)]: opens the file to upload. *)
Definition MediaFileUpload (path mimetype : string) : M media_upload :=
  fun w =>
    match fs_lookup path (local_fs w) with
    | Some tf => (Return (mk_media (targz_bytes (tf_entries tf)) mimetype), w)
    | None => (Raise (OSError path), w)
    end.

(** [backup_folder] (lines 12 to 42). *)
Definition backup_folder (source_folder_ids : list string)
                         (dest_folder_id backup_name : string) : M pyval :=
  w <- get_world ;;
  let now := clock w in
  let backup_file_name := backup_file_name now backup_name in
  with_tarfile archive_file_path (fun tar =>
    for_each source_folder_ids (fun source_folder_id =>
      add_files_to_archive (stack_depth w) tar source_folder_id "" ;;; ret tt)) ;;;
  media <- MediaFileUpload archive_file_path "application/gzip" ;;
  files_create backup_file_name dest_folder_id media ;;;
  os_remove archive_file_path ;;;
  ret PyNone.

(** [main] (lines 115 to 119), from the configuration on. Reading the
    configuration from the environment and building the service (lines
    105 to 113) come before these lines and are not embedded; an error
    raised there ends the run before any of the steps below. *)
Definition main (cfg : config) : M pyval :=
  backup_folder (source_folder_ids cfg) (dest_folder_id cfg) (backup_name cfg) ;;;
  delete_old_backups (dest_folder_id cfg) (versions_to_keep cfg) (backup_name cfg) ;;;
  ret (PyStr "Backup completed successfully!").

End Pipeline.

(** ** Notions used to state the properties *)

(** A relation between the world before and after a computation holds
    whatever the computation returns or raises. *)
Definition preserves (R : world -> world -> Prop) {A} (m : M A) : Prop :=
  forall w, R w (snd (m w)).

(** The walker only reads the remote store: the store, the size of the
    pages and the failures of listings and downloads stay as they were. *)
Definition same_remote (w w' : world) : Prop :=
  drive w' = drive w /\ page_size w' = page_size w /\
  fail_list w' = fail_list w /\ fail_media w' = fail_media w.

(** The content of a file as a download fetches it: its chunks, in order. *)
Definition fetched_content (d : list item) (fileId : string) : option (list byte) :=
  option_map (fun f => concat (item_media f)) (find (has_id fileId) d).

(** The archive behind the handle [tar] is open for writing. *)
Definition tar_is_open (tar : string) (w : world) : Prop :=
  exists entries, fs_lookup tar (local_fs w) = Some (mk_tar entries Writing).

Definition stays_open (tar : string) (w w' : world) : Prop :=
  tar_is_open tar w -> tar_is_open tar w'.

(** What the walker leaves unchanged, for an archive that is open. *)
Definition walker_frame (tar : string) (w w' : world) : Prop :=
  same_remote w w' /\ stays_open tar w w'.

(** The archive only grows, and the remote store stays. *)
Definition archive_grows (tar : string) (w w' : world) : Prop :=
  same_remote w w' /\
  exists added, tar_entries tar w' = tar_entries tar w ++ added.

(** The first page of the children of a folder, as the walker sees it. *)
Definition first_page_children (w : world) (folder_id : string) : list item :=
  firstn (page_size w)
    (filter (matches (mk_query folder_id (Some false) None None)) (drive w)).

(** The listing of the children of a folder fits in one page. *)
Definition one_page (w : world) (folder_id : string) : Prop :=
  length (filter (matches (mk_query folder_id (Some false) None None)) (drive w))
  <= page_size w.

(** The sub-folders seen from [folder_id] nest fewer than [depth] levels. *)
Fixpoint nests_within (depth : nat) (w : world) (folder_id : string) : bool :=
  match depth with
  | O => false
  | S d =>
      forallb (fun it => negb (String.eqb (item_mimeType it) FOLDER_MIME)
                         || nests_within d w (item_id it))
              (first_page_children w folder_id)
  end.

(** The sub-folders below the folder, as the walker sees them, never
    end: there is a set of folders, the folder among them, each of which
    lists a sub-folder of the set. A folder graph with a cycle below the
    folder is the case in point. *)
Definition descends_forever (w : world) (folder_id : string) : Prop :=
  exists on_the_way : string -> Prop,
    on_the_way folder_id /\
    forall g, on_the_way g ->
      exists sub, In sub (first_page_children w g) /\
                  item_mimeType sub = FOLDER_MIME /\
                  on_the_way (item_id sub).

(** The first stage of [backup_folder]: the [with] block of lines 31 to 33. *)
Definition archive_stage (source_folder_ids : list string) : M unit :=
  fun w =>
    with_tarfile archive_file_path (fun tar =>
      for_each source_folder_ids (fun source_folder_id =>
        add_files_to_archive (stack_depth w) tar source_folder_id "" ;;; ret tt)) w.

(** ** Reachable files *)

(** [f] is a child of the folder, not in the trash. *)
Definition child_of (d : list item) (folder_id : string) (f : item) : Prop :=
  In f d /\ mem folder_id (item_parents f) = true /\ item_trashed f = false.

(** [reaches d folder_id path folder_id' path']: in the store [d], the
    second folder is the first one or a folder below it, and [path'] is
    [path] joined with the names of the folders on the way down. *)
Inductive reaches (d : list item) : string -> string -> string -> string -> Prop :=
| reaches_here folder_id path : reaches d folder_id path folder_id path
| reaches_down folder_id path sub folder_id' path' :
    child_of d folder_id sub ->
    item_mimeType sub = FOLDER_MIME ->
    reaches d (item_id sub) (os_path_join path (item_name sub)) folder_id' path' ->
    reaches d folder_id path folder_id' path'.

(** [p] is the path of a file in or below the folder, whose own path is
    [current_path]. *)
Definition file_under (d : list item) (folder_id current_path p : string) : Prop :=
  exists folder_id' path' f,
    reaches d folder_id current_path folder_id' path' /\
    child_of d folder_id' f /\
    item_mimeType f <> FOLDER_MIME /\
    p = os_path_join path' (item_name f).

(** [path] is the relative path of a file reachable from [root]. *)
Definition reachable_file (w : world) (root path : string) : Prop :=
  file_under (drive w) root "" path.

(** What a walk of a folder adds to the archive are files under it. *)
Definition adds_files_under (tar folder_id current_path : string)
                            (w w' : world) : Prop :=
  same_remote w w' /\
  exists added,
    tar_entries tar w' = tar_entries tar w ++ added /\
    Forall (fun e => file_under (drive w) folder_id current_path (te_name e)) added.

(** ** Retention *)

(** The identifiers of the deletions requested in a list of requests. *)
Fixpoint deletions (cs : list api_call) : list string :=
  match cs with
  | [] => []
  | ApiDelete i :: cs' => i :: deletions cs'
  | _ :: cs' => deletions cs'
  end.

(** The deletions requested between two worlds. *)
Definition deletions_since (w w' : world) : list string :=
  skipn (length (deletions (calls w))) (deletions (calls w')).

(** The [files] of [delete_old_backups] when its listing succeeds. *)
Definition retention_listing (w : world) (dest label : string) : list item :=
  firstn (page_size w)
    (sort_createdTime_desc
       (filter (matches (mk_query dest None (Some "application/zip") (Some label)))
               (drive w))).

(** The backups of a label in a folder, by name. *)
Definition matching_backups (w : world) (dest label : string) : list item :=
  filter (fun f => mem dest (item_parents f) && contains label (item_name f))
         (drive w).

(** [a] was created no earlier than [b]. *)
Definition not_older (a b : item) : Prop :=
  (item_createdTime b <= item_createdTime a)%Z.

(** ** Reading a backup file name *)

Definition digit_value (c : ascii) : option Z :=
  let n := nat_of_ascii c in
  if (48 <=? n) && (n <=? 57) then Some (Z.of_nat (n - 48)) else None.

Fixpoint digits_value (acc : Z) (s : string) : option Z :=
  match s with
  | EmptyString => Some acc
  | String c s' =>
      match digit_value c with
      | Some d => digits_value (10 * acc + d) s'
      | None => None
      end
  end.

(** The number a non-empty string of digits writes. *)
Definition number (s : string) : option Z :=
  match s with
  | EmptyString => None
  | _ => digits_value 0 s
  end.

(** The first [n] characters of [s] and the rest. *)
Fixpoint split_at (n : nat) (s : string) : option (string * string) :=
  match n, s with
  | O, _ => Some (EmptyString, s)
  | S n', String c s' =>
      match split_at n' s' with
      | Some (a, b) => Some (String c a, b)
      | None => None
      end
  | S _, EmptyString => None
  end.

(** A number of [n] digits followed by the separator [sep]. *)
Definition field (n : nat) (sep : ascii) (s : string) : option (Z * string) :=
  match split_at n s with
  | Some (digits, String c rest) =>
      if Ascii.eqb c sep then
        match number digits with
        | Some v => Some (v, rest)
        | None => None
        end
      else None
  | _ => None
  end.

(** [s] without its suffix [suf]. *)
Fixpoint strip_suffix (suf s : string) : option string :=
  if String.eqb s suf then Some EmptyString
  else
    match s with
    | EmptyString => None
    | String c s' =>
        match strip_suffix suf s' with
        | Some l => Some (String c l)
        | None => None
        end
    end.

(** Modelled from the spec: the program has no function that reads a
    backup file name back; this one reads the format
    [YYYY-MM-DD_HH-MM-SS-mmm_<label>.tar.gz] of the spec, field by field,
    and returns the timestamp, to the millisecond, and the label. *)
Definition parse_backup_file_name (s : string) : option (datetime * string) :=
  match field 4 "-" s with
  | Some (y, s1) =>
  match field 2 "-" s1 with
  | Some (mo, s2) =>
  match field 2 "_" s2 with
  | Some (d, s3) =>
  match field 2 "-" s3 with
  | Some (h, s4) =>
  match field 2 "-" s4 with
  | Some (mi, s5) =>
  match field 2 "-" s5 with
  | Some (sec, s6) =>
  match field 3 "_" s6 with
  | Some (ms, s7) =>
  match strip_suffix ".tar.gz" s7 with
  | Some label => Some (mk_datetime y mo d h mi sec (ms * 1000), label)
  | None => None
  end
  | None => None end
  | None => None end
  | None => None end
  | None => None end
  | None => None end
  | None => None end
  | None => None end.

(** Two timestamps in the same second. *)
Definition same_second (a b : datetime) : Prop :=
  year a = year b /\ month a = month b /\ day a = day b /\
  hour a = hour b /\ minute a = minute b /\ second a = second b.

Fixpoint all_digits (s : string) : bool :=
  match s with
  | EmptyString => true
  | String c s' =>
      match digit_value c with
      | Some _ => all_digits s'
      | None => false
      end
  end.

(** [s] is made of [n] decimal digits. *)
Definition is_digits (n : nat) (s : string) : Prop :=
  String.length s = n /\ all_digits s = true.

(** The format [YYYY-MM-DD_HH-MM-SS-mmm_<label>.tar.gz]. *)
Definition has_name_format (name label : string) : Prop :=
  exists Y Mo D H Mi S ms,
    is_digits 4 Y /\ is_digits 2 Mo /\ is_digits 2 D /\ is_digits 2 H /\
    is_digits 2 Mi /\ is_digits 2 S /\ is_digits 3 ms /\
    name = (Y ++ "-" ++ Mo ++ "-" ++ D ++ "_" ++ H ++ "-" ++ Mi ++ "-" ++ S
            ++ "-" ++ ms ++ "_" ++ label ++ ".tar.gz")%string.

(** The last [w] decimal digits of [n]. *)
Fixpoint fixed_digits (w : nat) (n : Z) : string :=
  match w with
  | O => EmptyString
  | S w' => (fixed_digits w' (n / 10) ++ String (digit_char (n mod 10)) "")%string
  end.

(** ** Sentences of the specification, as they are written *)

(** "the set of relative paths of entries in the produced archive equals
    the set of pairs reachable from the source folder" *)
Definition archive_is_complete (w : world) (root : string) (archive : list tar_entry)
  : Prop :=
  forall path, reachable_file w root path <-> In path (map te_name archive).

(** "prune attempts exactly max(0, M - N) deletions" *)
Definition attempts_exactly_the_excess (w : world) (dest : string) (N : Z)
                                       (label : string) : Prop :=
  let M := Z.of_nat (length (matching_backups w dest label)) in
  let w' := snd (delete_old_backups dest N label w) in
  Z.of_nat (length (deletions_since w w')) = Z.max 0 (M - N).

(** "a single deletion failure never short-circuits the remaining
    deletions" *)
Definition attempts_every_selected (w : world) (dest : string) (N : Z)
                                   (label : string) : Prop :=
  let w' := snd (delete_old_backups dest N label w) in
  forall f, In f (skipn (Z.to_nat N) (retention_listing w dest label)) ->
            In (item_id f) (deletions_since w w').

(** "retention failures never flip the overall run result to failure" *)
Definition retention_failure_is_tolerated
           (targz : list tar_entry -> list byte) (cfg : config) (w : world) : Prop :=
  (exists v, fst (backup_folder targz (source_folder_ids cfg) (dest_folder_id cfg)
                                (backup_name cfg) w) = Return v) ->
  exists v, fst (main targz cfg w) = Return v.

(** "the local staging archive artifact is deleted on every exit path" *)
Definition staging_is_released
           (targz : list tar_entry -> list byte) (cfg : config) (w : world) : Prop :=
  fst (archive_stage (source_folder_ids cfg) w) = Return tt ->
  fs_lookup archive_file_path
    (local_fs (snd (backup_folder targz (source_folder_ids cfg) (dest_folder_id cfg)
                                  (backup_name cfg) w))) = None.

(** "prune returns the number of deletions it performed" *)
Definition returns_deletion_count (w : world) (dest : string) (N : Z)
                                  (label : string) : Prop :=
  let r := delete_old_backups dest N label w in
  fst r = Return (PyInt (Z.of_nat (length (deletions_since w (snd r))))).

(** "the folder tree traversal terminates", within some stack. *)
Definition traversal_terminates (w : world) (folder_id : string) : Prop :=
  exists depth,
    fst (add_files_to_archive depth archive_file_path folder_id "" w)
    <> Raise RecursionError.

(** ** Sample worlds *)

Definition no_bytes (n : nat) : list byte := repeat x00 n.

Definition quiet_world (d : list item) (fs : list (string * tar_file)) : world :=
  mk_world d 100 50 [] [] false [] fs
           (mk_datetime 2024 3 7 9 5 59 123456) 10 [].

Definition plain_file (i name parent : string) (chunks : list (list byte)) : item :=
  mk_item i name "text/plain" [parent] false 1 chunks.

Definition folder (i name parent : string) : item :=
  mk_item i name FOLDER_MIME [parent] false 1 [].

Definition zip_backup (i name : string) (created : Z) : item :=
  mk_item i name "application/zip" ["D"] false created [].

(** Folder [F1] holds [a.txt] (4 bytes), a trashed file, and the folder
    [sub] with [b.txt] (10 bytes, in two chunks); folder [D] holds three
    archives of type zip. *)
Definition sample_drive : list item :=
  [ plain_file "a" "a.txt" "F1" [no_bytes 4];
    folder "s" "sub" "F1";
    plain_file "b" "b.txt" "s" [no_bytes 6; no_bytes 4];
    mk_item "t" "gone.txt" "text/plain" ["F1"] true 1 [no_bytes 1];
    zip_backup "z1" "2020_nightly.zip" 10;
    zip_backup "z2" "2021_nightly.zip" 30;
    zip_backup "z3" "2022_nightly.zip" 20 ].

Definition sample_world : world := quiet_world sample_drive [].

(** The same, but the service refuses to delete [z3]. *)
Definition refusing_world : world :=
  mk_world sample_drive 100 50 [] [] false ["z3"] []
           (mk_datetime 2024 3 7 9 5 59 123456) 10 [].

(** The sample world, but the service refuses the upload. *)
Definition failing_upload_world : world :=
  mk_world sample_drive 100 50 [] [] true [] []
           (mk_datetime 2024 3 7 9 5 59 123456) 10 [].

Definition sample_config : config := mk_config ["F1"] "D" "nightly" 1.

(** Folders [A] and [B], each the parent of the other. *)
Definition cyclic_world : world :=
  quiet_world [ folder "A" "a" "B"; folder "B" "b" "A" ]
              [(archive_file_path, mk_tar [] Writing)].

(** Folder [F] with 101 files, [f0.txt] to [f100.txt], of one byte each;
    the service lists 100 files per page. *)
Definition numbered_file (i : nat) : item :=
  plain_file ("id" ++ decimal (Z.of_nat i))
             ("f" ++ decimal (Z.of_nat i) ++ ".txt") "F" [no_bytes 1].

Definition crowded_world : world :=
  quiet_world (map numbered_file (seq 0 101)) [].

(** Folder [D] with seven archives [B1] to [B7], created in that order,
    all of the given MIME type. *)
Definition seven_backups (mime : string) : list item :=
  map (fun i => mk_item ("B" ++ decimal (Z.of_nat i))
                        ("2024-03-0" ++ decimal (Z.of_nat i) ++ "_nightly.tar.gz")
                        mime ["D"] false (Z.of_nat i) [])
      (seq 1 7).

(** A chain of [n] folders [c1] in [c0], [c2] in [c1], and so on, with one
    file in the last. *)
Definition chain_world (n : nat) : world :=
  quiet_world
    (map (fun i => folder ("c" ++ decimal (Z.of_nat (S i)))
                          ("d" ++ decimal (Z.of_nat (S i)))
                          ("c" ++ decimal (Z.of_nat i)))
         (seq 0 n)
     ++ [plain_file "leaf" "leaf.txt" ("c" ++ decimal (Z.of_nat n)) [no_bytes 1]])
    [(archive_file_path, mk_tar [] Writing)].

(** ** Further notions: requests, members, paths *)

(** A request that only reads the store. *)
Definition is_read (c : api_call) : bool :=
  match c with
  | ApiList _ | ApiGetMedia _ => true
  | _ => false
  end.

(** Between [w] and [w'] the store is the same and only reading requests
    were sent. *)
Definition reads_only (w w' : world) : Prop :=
  drive w' = drive w /\
  exists sent, calls w' = calls w ++ sent /\ forallb is_read sent = true.

(** An archive member made from a file in or below the folder: its name
    is the path of the file and its data the content fetched under the id
    of that same file. *)
Definition member_of_file (d : list item) (folder_id current_path : string)
                          (e : tar_entry) : Prop :=
  exists folder_id' path' f,
    reaches d folder_id current_path folder_id' path' /\
    child_of d folder_id' f /\
    item_mimeType f <> FOLDER_MIME /\
    te_name e = os_path_join path' (item_name f) /\
    fetched_content d (item_id f) = Some (te_data e) /\
    te_size e = Z.of_nat (length (te_data e)).

Definition adds_members (tar folder_id current_path : string)
                        (w w' : world) : Prop :=
  same_remote w w' /\
  exists added,
    tar_entries tar w' = tar_entries tar w ++ added /\
    Forall (member_of_file (drive w) folder_id current_path) added.

(** The paths of the files the walker sees from a folder, depth first,
    the children of a folder in the order of its listing. *)
Fixpoint walk_paths (depth : nat) (w : world) (folder_id current_path : string)
  : list string :=
  match depth with
  | O => []
  | S d =>
      flat_map (fun it =>
                  let p := os_path_join current_path (item_name it) in
                  if String.eqb (item_mimeType it) FOLDER_MIME
                  then walk_paths d w (item_id it) p
                  else [p])
               (first_page_children w folder_id)
  end.

(** The files the walker comes to, each with its path, depth first and
    in the order of the listings: the files it yields. *)
Fixpoint walk_files (depth : nat) (w : world) (folder_id current_path : string)
  : list (string * item) :=
  match depth with
  | O => []
  | S d =>
      flat_map (fun it =>
                  let p := os_path_join current_path (item_name it) in
                  if String.eqb (item_mimeType it) FOLDER_MIME
                  then walk_files d w (item_id it) p
                  else [(p, it)])
               (first_page_children w folder_id)
  end.

(** The member written for a yielded file: it has the path of the file as
    its name, the content fetched under the id of the file as its data,
    and the length of that content as the size declared in its header. *)
Definition written_as (d : list item) (yielded : string * item) (e : tar_entry)
  : Prop :=
  te_name e = fst yielded /\
  fetched_content d (item_id (snd yielded)) = Some (te_data e) /\
  te_size e = Z.of_nat (length (te_data e)).

(** A path that does not start at the root of the file system. *)
Definition relative (p : string) : bool := negb (is_prefix "/" p).

(** A member made from a file in or below one of the source folders. *)
Definition source_member (d : list item) (source_folder_ids : list string)
                         (e : tar_entry) : Prop :=
  exists source_folder_id,
    In source_folder_id source_folder_ids /\
    member_of_file d source_folder_id "" e.

Definition adds_source_members (tar : string) (source_folder_ids : list string)
                               (w w' : world) : Prop :=
  same_remote w w' /\
  exists added,
    tar_entries tar w' = tar_entries tar w ++ added /\
    Forall (source_member (drive w) source_folder_ids) added.

(** The sample store with the staging archive open, and the same with a
    file whose download the service refuses. *)
Definition staging_world : world :=
  quiet_world sample_drive [(archive_file_path, mk_tar [] Writing)].

Definition failing_download_world : world :=
  mk_world sample_drive 100 50 [] ["b"] false []
           [(archive_file_path, mk_tar [] Writing)]
           (mk_datetime 2024 3 7 9 5 59 123456) 10 [].

(** Three archives in a store whose pages hold two files. *)
Definition short_page_world : world :=
  mk_world sample_drive 2 50 [] [] false [] []
           (mk_datetime 2024 3 7 9 5 59 123456) 10 [].

(** The fields of a time that the name of an archive shows, the largest
    unit first, and the order of two such lists. *)
Definition stamp (t : datetime) : list Z :=
  [year t; month t; day t; hour t; minute t; second t; (microsecond t / 1000)%Z].

Fixpoint lex_compare (a b : list Z) : comparison :=
  match a, b with
  | [], [] => Eq
  | [], _ :: _ => Lt
  | _ :: _, [] => Gt
  | x :: a', y :: b' =>
      match (x ?= y)%Z with
      | Eq => lex_compare a' b'
      | c => c
      end
  end.

(** [s.split(sep)] for a separator of one character (line 107). *)
Fixpoint str_split (sep : ascii) (s : string) : list string :=
  match s with
  | EmptyString => [EmptyString]
  | String c s' =>
      if Ascii.eqb c sep then EmptyString :: str_split sep s'
      else match str_split sep s' with
           | [] => [String c EmptyString]
           | p :: ps => String c p :: ps
           end
  end.

Fixpoint count_char (c : ascii) (s : string) : nat :=
  match s with
  | EmptyString => 0
  | String c' s' => (if Ascii.eqb c' c then 1 else 0) + count_char c s'
  end.

(** What the walker keeps while it runs: it only reads, and the archive
    it writes to stays open. *)
Definition walks_on (tar : string) (w w' : world) : Prop :=
  reads_only w w' /\ walker_frame tar w w'.

(** The trace of requests only grows. *)
Definition sends_more (w w' : world) : Prop :=
  exists sent, calls w' = calls w ++ sent.

(** An error of the run that comes from a request the service refused,
    the last request sent, or from the depth of the folders. *)
Definition request_or_stack (w w' : world) (e : exn) : Prop :=
  e = RecursionError \/
  exists c earlier, e = HttpError c /\ calls w' = calls w ++ earlier ++ [c].

(** * Properties *)

(** ** The monad *)

Lemma bind_unfold {A B} (m : M A) (k : A -> M B) (w : world) :
  bind m k w = match m w with
               | (Return a, w') => k a w'
               | (Raise e, w') => (Raise e, w')
               end.
Proof. reflexivity. Qed.

Section Preserve.

Variable R : world -> world -> Prop.
Hypothesis R_refl : forall w, R w w.
Hypothesis R_trans : forall a b c, R a b -> R b c -> R a c.

Lemma preserves_ret {A} (a : A) : preserves R (ret a).
Proof. intro w; apply R_refl. Qed.

Lemma preserves_raise {A} (e : exn) : preserves R (@raise A e).
Proof. intro w; apply R_refl. Qed.

Lemma preserves_bind {A B} (m : M A) (k : A -> M B) :
  preserves R m ->
  (forall a w w1, m w = (Return a, w1) -> R w1 (snd (k a w1))) ->
  preserves R (bind m k).
Proof.
  intros Hm Hk w. unfold bind.
  specialize (Hm w). destruct (m w) as [[a | e] w1] eqn:E; simpl in *.
  - eapply R_trans; [exact Hm | eapply Hk; exact E].
  - exact Hm.
Qed.

Lemma preserves_for_each {A} (xs : list A) (body : A -> M unit) :
  (forall x, In x xs -> preserves R (body x)) ->
  preserves R (for_each xs body).
Proof.
  induction xs as [| x xs IH]; intros H; simpl.
  - apply preserves_ret.
  - apply preserves_bind.
    + apply H; now left.
    + intros _ w w1 _. apply IH. intros y Hy. apply H; now right.
Qed.

End Preserve.

(** ** Frame properties of the walker *)

Lemma same_remote_refl w : same_remote w w.
Proof. repeat split. Qed.

Lemma same_remote_trans a b c :
  same_remote a b -> same_remote b c -> same_remote a c.
Proof.
  unfold same_remote. intros (H1 & H2 & H3 & H4) (K1 & K2 & K3 & K4).
  repeat split; congruence.
Qed.

Lemma local_fs_set fs w : local_fs (set_local_fs fs w) = fs.
Proof. reflexivity. Qed.

Lemma fs_lookup_write p v fs : fs_lookup p (fs_write p v fs) = Some v.
Proof. unfold fs_write; simpl. now rewrite String.eqb_refl. Qed.

Lemma fs_lookup_remove p fs : fs_lookup p (fs_remove p fs) = None.
Proof.
  induction fs as [| [q v] fs IH]; simpl; [reflexivity |].
  destruct (String.eqb q p) eqn:E; simpl; [exact IH |].
  now rewrite E.
Qed.

Lemma fs_lookup_remove_other p q fs :
  q <> p -> fs_lookup q (fs_remove p fs) = fs_lookup q fs.
Proof.
  intros Hne. induction fs as [| [r v] fs IH]; simpl; [reflexivity |].
  destruct (String.eqb r p) eqn:E; simpl.
  - apply String.eqb_eq in E; subst r.
    destruct (String.eqb p q) eqn:E2; [apply String.eqb_eq in E2; congruence | exact IH].
  - destruct (String.eqb r q); [reflexivity | exact IH].
Qed.

(** ** Downloads *)

Lemma bio_write_at_end fh data :
  bio_pos fh = length (bio_buf fh) ->
  bio_write fh data =
    mk_bytesio (bio_buf fh ++ data) (length (bio_buf fh ++ data)).
Proof.
  intros Hp. unfold bio_write. rewrite Hp.
  rewrite firstn_all, skipn_all2, Nat.sub_diag by lia.
  simpl. now rewrite app_nil_r, length_app.
Qed.

Lemma next_chunks_at_end chunks : forall fh,
  bio_pos fh = length (bio_buf fh) ->
  next_chunks fh chunks =
    mk_bytesio (bio_buf fh ++ concat chunks)
               (length (bio_buf fh ++ concat chunks)).
Proof.
  induction chunks as [| c cs IH]; intros fh Hp; simpl.
  - rewrite app_nil_r. destruct fh as [b p]; simpl in *. now subst.
  - rewrite IH; rewrite bio_write_at_end by exact Hp; simpl; [| reflexivity].
    now rewrite <- app_assoc.
Qed.

Lemma download_returns fileId w fh w1 :
  download fileId (mk_bytesio [] 0) w = (Return fh, w1) ->
  exists data,
    fetched_content (drive w) fileId = Some data /\
    fh = mk_bytesio data (length data) /\
    w1 = log_call (ApiGetMedia fileId) w.
Proof.
  unfold download, fetched_content. intros H.
  destruct (mem fileId (fail_media w)); [discriminate |].
  destruct (find (has_id fileId) (drive w)) as [f |]; [| discriminate].
  injection H as <- <-. exists (concat (item_media f)). simpl.
  repeat split. now rewrite next_chunks_at_end.
Qed.

Lemma files_list_world q o t w :
  snd (files_list q o t w) = log_call (ApiList q) w.
Proof. unfold files_list. now destruct (mem (q_parent q) (fail_list w)). Qed.

Lemma download_world fileId fh w :
  snd (download fileId fh w) = log_call (ApiGetMedia fileId) w.
Proof.
  unfold download. destruct (mem fileId (fail_media w)); [reflexivity |].
  now destruct (find (has_id fileId) (drive w)).
Qed.

Lemma tar_addfile_world tar ti fh w :
  snd (tar_addfile tar ti fh w) = w \/
  exists entries data,
    fs_lookup tar (local_fs w) = Some (mk_tar entries Writing) /\
    data = bio_read fh (Z.to_nat (ti_size ti)) /\
    length data = Z.to_nat (ti_size ti) /\
    snd (tar_addfile tar ti fh w) =
      set_local_fs (fs_write tar (mk_tar (entries ++ [mk_entry (ti_name ti) (ti_size ti) data])
                                         Writing) (local_fs w)) w.
Proof.
  unfold tar_addfile.
  destruct (fs_lookup tar (local_fs w)) as [[entries st] |]; [| now left].
  destruct st; try now left.
  destruct (length (bio_read fh (Z.to_nat (ti_size ti))) <? Z.to_nat (ti_size ti)) eqn:E;
    [now left |].
  right. exists entries, (bio_read fh (Z.to_nat (ti_size ti))).
  repeat split. apply Nat.ltb_ge in E.
  unfold bio_read in *. rewrite length_firstn in *. lia.
Qed.

(** ** The listing ordered by creation time *)

Lemma insert_desc_perm x l : Permutation (insert_desc x l) (x :: l).
Proof.
  induction l as [| y l IH]; simpl; [reflexivity |].
  destruct (item_createdTime y <=? item_createdTime x)%Z; [reflexivity |].
  rewrite IH. apply perm_swap.
Qed.

Lemma sort_createdTime_desc_perm l : Permutation (sort_createdTime_desc l) l.
Proof.
  induction l as [| x l IH]; simpl; [reflexivity |].
  rewrite insert_desc_perm. now apply perm_skip.
Qed.

Lemma insert_desc_sorted x l :
  StronglySorted not_older l -> StronglySorted not_older (insert_desc x l).
Proof.
  induction 1 as [| y l Hs IH Hy]; simpl.
  - repeat constructor.
  - destruct (item_createdTime y <=? item_createdTime x)%Z eqn:E.
    + apply Z.leb_le in E. constructor; [now constructor |].
      constructor; [exact E |].
      eapply Forall_impl; [| exact Hy].
      unfold not_older; intros a Ha; lia.
    + apply Z.leb_gt in E. constructor; [exact IH |].
      eapply Permutation_Forall; [symmetry; apply insert_desc_perm |].
      constructor; [unfold not_older; lia | exact Hy].
Qed.

Lemma sort_createdTime_desc_sorted l :
  StronglySorted not_older (sort_createdTime_desc l).
Proof.
  induction l as [| x l IH]; simpl; [constructor | now apply insert_desc_sorted].
Qed.

Lemma sorted_app_cross {A} (R : A -> A -> Prop) l1 : forall l2,
  StronglySorted R (l1 ++ l2) ->
  forall a b, In a l1 -> In b l2 -> R a b.
Proof.
  induction l1 as [| x l1 IH]; intros l2 Hs a b Ha Hb; [contradiction |].
  simpl in Hs. inversion Hs as [| ? ? Hs' Hall]; subst.
  destruct Ha as [<- | Ha].
  - rewrite Forall_forall in Hall. apply Hall, in_or_app. now right.
  - eapply IH; eauto.
Qed.

Lemma firstn_In {A} (n : nat) (l : list A) x : In x (firstn n l) -> In x l.
Proof.
  intros H. rewrite <- (firstn_skipn n l). apply in_or_app. now left.
Qed.

Lemma skipn_In {A} (n : nat) (l : list A) x : In x (skipn n l) -> In x l.
Proof.
  intros H. rewrite <- (firstn_skipn n l). apply in_or_app. now right.
Qed.

Lemma retention_listing_incl w dest label f :
  In f (retention_listing w dest label) ->
  In f (drive w) /\
  matches (mk_query dest None (Some "application/zip") (Some label)) f = true.
Proof.
  unfold retention_listing. intros H.
  apply firstn_In in H.
  apply (Permutation_in _ (sort_createdTime_desc_perm _)) in H.
  now apply filter_In in H.
Qed.

Lemma NoDup_map_filter {A B} (g : A -> B) (p : A -> bool) l :
  NoDup (map g l) -> NoDup (map g (filter p l)).
Proof.
  induction l as [| x l IH]; simpl; intros H; [constructor |].
  inversion H as [| ? ? Hx Hl]; subst.
  destruct (p x); simpl; [| now apply IH].
  constructor; [| now apply IH].
  intros Hin. apply Hx. apply in_map_iff in Hin as (y & Ey & Hy).
  apply in_map_iff. exists y. split; [exact Ey |].
  now apply filter_In in Hy.
Qed.

Lemma retention_listing_NoDup w dest label :
  NoDup (map item_id (drive w)) ->
  NoDup (map item_id (retention_listing w dest label)).
Proof.
  intros H. unfold retention_listing.
  set (hits := filter _ (drive w)).
  assert (Hs : NoDup (map item_id (sort_createdTime_desc hits))).
  { apply (Permutation_NoDup (l := map item_id hits)).
    - apply Permutation_map. symmetry. apply sort_createdTime_desc_perm.
    - now apply NoDup_map_filter. }
  rewrite <- (firstn_skipn (page_size w) (sort_createdTime_desc hits)) in Hs.
  rewrite map_app in Hs. now apply NoDup_app_remove_r in Hs.
Qed.

Lemma retention_listing_sorted w dest label :
  StronglySorted not_older (retention_listing w dest label).
Proof.
  unfold retention_listing.
  set (l := sort_createdTime_desc _).
  assert (Hs : StronglySorted not_older l) by apply sort_createdTime_desc_sorted.
  clearbody l. revert l Hs.
  induction (page_size w) as [| n IH]; intros l Hs; [constructor |].
  destruct Hs as [| x l Hs Hall]; simpl; [constructor |].
  constructor; [now apply IH |].
  rewrite Forall_forall in *. intros y Hy. apply Hall. now apply firstn_In in Hy.
Qed.

Lemma files_list_retention w dest label :
  mem dest (fail_list w) = false ->
  exists tok,
    files_list (mk_query dest None (Some "application/zip") (Some label))
               (Some createdTime_desc) None w
    = (Return (mk_page (retention_listing w dest label) tok),
       log_call (ApiList (mk_query dest None (Some "application/zip") (Some label))) w).
Proof.
  intros H. unfold files_list; simpl. rewrite H. eexists. reflexivity.
Qed.

(** ** The deletion loop *)

Lemma deletions_app l1 l2 : deletions (l1 ++ l2) = deletions l1 ++ deletions l2.
Proof.
  induction l1 as [| c l1 IH]; simpl; [reflexivity |].
  destruct c; simpl; now rewrite IH.
Qed.

Lemma skipn_length_app {A} (l1 l2 : list A) : skipn (length l1) (l1 ++ l2) = l2.
Proof. induction l1; simpl; auto. Qed.

Lemma deletions_since_app w w' l :
  deletions (calls w') = deletions (calls w) ++ l -> deletions_since w w' = l.
Proof. unfold deletions_since. intros ->. apply skipn_length_app. Qed.

Lemma list_slice_from_nonneg {A} (l : list A) (k : Z) :
  (0 <= k)%Z -> list_slice_from l k = skipn (Z.to_nat k) l.
Proof.
  intros Hk. unfold list_slice_from.
  destruct (k <? 0)%Z eqn:E; [apply Z.ltb_lt in E; lia |].
  destruct (Z.le_gt_cases k (Z.of_nat (length l))) as [H | H].
  - now rewrite Z.min_l by lia.
  - rewrite Z.min_r by lia. rewrite Nat2Z.id.
    rewrite !skipn_all2; auto; lia.
Qed.

Lemma files_delete_spec fileId w :
  let r := files_delete fileId w in
  calls (snd r) = calls w ++ [ApiDelete fileId] /\
  fail_delete (snd r) = fail_delete w /\
  (forall x, In x (drive w) -> item_id x <> fileId -> In x (drive (snd r))) /\
  (fst r = Return tt \/ fst r = Raise (HttpError (ApiDelete fileId))) /\
  (mem fileId (fail_delete w) = false ->
   (exists x, In x (drive w) /\ item_id x = fileId) -> fst r = Return tt).
Proof.
  unfold files_delete.
  destruct (mem fileId (fail_delete w)) eqn:Ef; simpl.
  - repeat split; auto. discriminate.
  - destruct (existsb (has_id fileId) (drive w)) eqn:Ex; simpl.
    + repeat split; auto.
      intros x Hx Hne. apply filter_In. split; [exact Hx |].
      unfold has_id. destruct (String.eqb (item_id x) fileId) eqn:E; [| reflexivity].
      apply String.eqb_eq in E. contradiction.
    + repeat split; auto.
      intros _ (x & Hx & Hid).
      assert (existsb (has_id fileId) (drive w) = true) as Ht.
      { apply existsb_exists. exists x. split; [exact Hx |].
        unfold has_id. now apply String.eqb_eq. }
      congruence.
Qed.

Lemma delete_loop fs : forall w,
  let r := for_each fs (fun file => files_delete (item_id file)) w in
  exists attempts rest,
    map item_id fs = attempts ++ rest /\
    deletions (calls (snd r)) = deletions (calls w) ++ attempts /\
    fail_delete (snd r) = fail_delete w /\
    (forall x, In x (drive w) -> ~ In (item_id x) attempts -> In x (drive (snd r))) /\
    (fst r = Return tt -> rest = []) /\
    (forall e, fst r = Raise e ->
       exists pre fid, attempts = pre ++ [fid] /\ e = HttpError (ApiDelete fid)).
Proof.
  induction fs as [| f fs IH]; intros w; simpl.
  - exists [], []. repeat split; auto; try easy. now rewrite app_nil_r.
  - destruct (files_delete_spec (item_id f) w) as (Hc & Hf & Hd & Hr & _).
    unfold bind.
    destruct (files_delete (item_id f) w) as [[[] | e] w1] eqn:E; simpl in *.
    + destruct (IH w1) as (att & rest & Hm & Hdel & Hfd & Hdr & Hok & Herr).
      exists (item_id f :: att), rest. repeat split.
      * simpl. now rewrite Hm.
      * rewrite Hdel, Hc, deletions_app; simpl. now rewrite <- app_assoc.
      * congruence.
      * intros x Hx Hnin. apply Hdr.
        -- apply Hd; [exact Hx |]. intros Heq. apply Hnin. now left.
        -- intros Hin. apply Hnin. now right.
      * exact Hok.
      * intros e He. destruct (Herr e He) as (pre & fid & -> & ->).
        exists (item_id f :: pre), fid. split; reflexivity.
    + exists [item_id f], (map item_id fs). repeat split.
      * rewrite Hc, deletions_app. reflexivity.
      * exact Hf.
      * intros x Hx Hnin. apply Hd; [exact Hx |].
        intros Heq. apply Hnin. now left.
      * discriminate.
      * intros e' He'. destruct Hr as [Hr | Hr]; [discriminate |].
        injection He' as <-. injection Hr as ->.
        exists [], (item_id f). split; reflexivity.
Qed.

Lemma delete_loop_succeeds fs : forall w,
  NoDup (map item_id fs) ->
  (forall f, In f fs -> In f (drive w)) ->
  (forall f, In f fs -> mem (item_id f) (fail_delete w) = false) ->
  fst (for_each fs (fun file => files_delete (item_id file)) w) = Return tt.
Proof.
  induction fs as [| f fs IH]; intros w Hnd Hin Hok; simpl; [reflexivity |].
  inversion Hnd as [| ? ? Hnf Hnd']; subst.
  destruct (files_delete_spec (item_id f) w) as (_ & Hf & Hd & _ & Hs).
  unfold bind.
  destruct (files_delete (item_id f) w) as [[[] | e] w1] eqn:E; simpl in *.
  - apply IH; [exact Hnd' | |].
    + intros g Hg. apply Hd; [apply Hin; now right |].
      intros Heq. apply Hnf. rewrite <- Heq. now apply in_map.
    + intros g Hg. rewrite Hf. apply Hok. now right.
  - assert (Raise e = Return tt) as Habs; [| discriminate Habs].
    apply Hs; [apply Hok; now left |].
    exists f. split; [apply Hin; now left | reflexivity].
Qed.

(** ** Retention: [delete_old_backups] *)

Lemma delete_old_backups_unfold dest N label w :
  mem dest (fail_list w) = false ->
  (0 <= N)%Z ->
  let fs := retention_listing w dest label in
  let w0 := log_call (ApiList (mk_query dest None (Some "application/zip")
                                        (Some label))) w in
  delete_old_backups dest N label w =
    if (Z.of_nat (length fs) >? N)%Z then
      match for_each (skipn (Z.to_nat N) fs)
                     (fun file => files_delete (item_id file)) w0 with
      | (Return _, w1) => (Return PyNone, w1)
      | (Raise e, w1) => (Raise e, w1)
      end
    else (Return PyNone, w0).
Proof.
  intros Hl HN fs w0. unfold delete_old_backups.
  destruct (files_list_retention w dest label Hl) as (tok & E).
  rewrite bind_unfold, E. cbn [files].
  fold fs. fold w0. rewrite list_slice_from_nonneg by exact HN.
  destruct (Z.of_nat (length fs) >? N)%Z; [| reflexivity].
  rewrite bind_unfold.
  now destruct (for_each _ _ w0) as [[[] | e] w1].
Qed.

Lemma NoDup_app_disjoint {A} (l1 l2 : list A) :
  NoDup (l1 ++ l2) -> forall a, In a l1 -> ~ In a l2.
Proof.
  induction l1 as [| x l1 IH]; simpl; intros H a Ha Hb; [contradiction |].
  inversion H as [| ? ? Hx Hl]; subst.
  destruct Ha as [<- | Ha].
  - apply Hx, in_or_app. now right.
  - now apply (IH Hl a).
Qed.

Lemma retention_split_disjoint w dest label n :
  NoDup (map item_id (drive w)) ->
  forall k, In k (firstn n (retention_listing w dest label)) ->
            ~ In (item_id k) (map item_id (skipn n (retention_listing w dest label))).
Proof.
  intros Hnd k Hk Hin.
  apply (retention_listing_NoDup w dest label) in Hnd.
  rewrite <- (firstn_skipn n (retention_listing w dest label)), map_app in Hnd.
  revert Hin. apply (NoDup_app_disjoint _ _ Hnd). now apply in_map.
Qed.

(** C2, amended. With [N = versions_to_keep >= 0] and [M] the number of
    files the retention listing returns: the deletions requested are, in
    order, those of the entries beyond index [N], [max(0, M - N)] of them
    when the run returns, which it does when the service refuses none of
    them; a refused deletion ends the run and leaves the later ones
    unrequested. The [min(M, N)] entries before index [N] are no older
    than any entry beyond it, no deletion is requested for them and they
    stay in the store. When [M <= N] nothing is requested and the run
    returns. *)
Theorem C2_prune_deletes_beyond_the_newest :
  forall dest N label w,
    (0 <= N)%Z ->
    mem dest (fail_list w) = false ->
    NoDup (map item_id (drive w)) ->
    let fs := retention_listing w dest label in
    let M := Z.of_nat (length fs) in
    let kept := firstn (Z.to_nat N) fs in
    let old := skipn (Z.to_nat N) fs in
    let r := delete_old_backups dest N label w in
    let attempts := deletions_since w (snd r) in
    (exists rest, map item_id old = attempts ++ rest) /\
    Z.of_nat (length old) = Z.max 0 (M - N) /\
    (fst r = Return PyNone -> attempts = map item_id old) /\
    ((forall f, In f old -> mem (item_id f) (fail_delete w) = false) ->
     fst r = Return PyNone) /\
    Z.of_nat (length kept) = Z.min M N /\
    (forall k, In k kept -> ~ In (item_id k) attempts /\ In k (drive (snd r))) /\
    (forall k d, In k kept -> In d old -> not_older k d) /\
    ((M <= N)%Z -> attempts = [] /\ fst r = Return PyNone).
Proof.
  intros dest N label w HN Hl Hnd fs M kept old r attempts.
  assert (Hlen_old : Z.of_nat (length old) = Z.max 0 (M - N)).
  { unfold old, M. rewrite length_skipn. lia. }
  assert (Hlen_kept : Z.of_nat (length kept) = Z.min M N).
  { unfold kept, M. rewrite length_firstn. lia. }
  assert (Hsorted : forall k d, In k kept -> In d old -> not_older k d).
  { intros k d Hk Hd.
    apply (sorted_app_cross not_older kept old); auto.
    unfold kept, old. rewrite firstn_skipn. apply retention_listing_sorted. }
  assert (Hdisj : forall k, In k kept -> ~ In (item_id k) (map item_id old)).
  { intros k Hk. now apply retention_split_disjoint. }
  assert (Hkept_drive : forall k, In k kept -> In k (drive w)).
  { intros k Hk. apply firstn_In in Hk.
    now apply retention_listing_incl in Hk. }
  pose proof (delete_old_backups_unfold dest N label w Hl HN) as E.
  cbv zeta in E. fold fs in E. fold old in E. fold r in E.
  set (w0 := log_call _ w) in E.
  destruct (Z.of_nat (length fs) >? N)%Z eqn:Hgt.
  - apply Z.gtb_lt in Hgt.
    destruct (delete_loop old w0) as (att & rest & Hm & Hdel & Hfd & Hdr & Hok & Herr).
    assert (Hatt : attempts = att).
    { unfold attempts. apply deletions_since_app.
      replace (snd r) with (snd (for_each old (fun file => files_delete (item_id file)) w0)).
      - rewrite Hdel. unfold w0; simpl. rewrite deletions_app; simpl.
        now rewrite app_nil_r.
      - rewrite E. now destruct (for_each old _ w0) as [[[] | e] w1]. }
    assert (Hdrive : forall x, In x (drive w) -> ~ In (item_id x) att ->
                               In x (drive (snd r))).
    { intros x Hx Hn. rewrite E.
      specialize (Hdr x Hx Hn).
      now destruct (for_each old _ w0) as [[[] | e] w1]. }
    repeat split.
    + exists rest. now rewrite Hatt.
    + exact Hlen_old.
    + intros Hret. rewrite Hatt, Hm.
      rewrite Hok; [now rewrite app_nil_r |].
      rewrite E in Hret.
      destruct (for_each old _ w0) as [[[] | e] w1]; [reflexivity | discriminate].
    + intros Hnofail. rewrite E.
      assert (Hs : fst (for_each old (fun file => files_delete (item_id file)) w0)
                   = Return tt).
      { apply delete_loop_succeeds.
        - pose proof (retention_listing_NoDup w dest label Hnd) as H.
          fold fs in H. rewrite <- (firstn_skipn (Z.to_nat N) fs), map_app in H.
          now apply NoDup_app_remove_l in H.
        - intros f Hf. apply skipn_In in Hf.
          now apply retention_listing_incl in Hf.
        - exact Hnofail. }
      now destruct (for_each old _ w0) as [[[] | e] w1].
    + exact Hlen_kept.
    + rewrite Hatt. intros Hin. apply (Hdisj k H).
      rewrite Hm. apply in_or_app. now left.
    + apply Hdrive; [now apply Hkept_drive |].
      intros Hin. apply (Hdisj k H). rewrite Hm. apply in_or_app. now left.
    + exact Hsorted.
    + unfold M in *. lia.
    + unfold M in *. lia.
  - assert (Hle : (M <= N)%Z).
    { unfold M. destruct (Z.gtb_spec (Z.of_nat (length fs)) N); [discriminate | lia]. }
    assert (Hatt : attempts = []).
    { unfold attempts. apply deletions_since_app. rewrite E; simpl.
      unfold w0; simpl. rewrite deletions_app; simpl. reflexivity. }
    assert (Hold : old = []).
    { apply length_zero_iff_nil. lia. }
    repeat split; auto.
    + exists []. now rewrite Hatt, Hold.
    + now rewrite Hatt, Hold.
    + now rewrite E.
    + now rewrite Hatt.
    + rewrite E; simpl. now apply Hkept_drive.
    + now rewrite E.
Qed.

(** The theorem at the sample world: three archives, one to keep, no
    refusal; the two oldest are deleted, the older of them last. *)
Lemma C2_prune_deletes_beyond_the_newest_witness :
  (0 <= 1)%Z /\
  mem "D" (fail_list sample_world) = false /\
  NoDup (map item_id (drive sample_world)) /\
  let r := delete_old_backups "D" 1 "nightly" sample_world in
  deletions_since sample_world (snd r) = ["z3"; "z1"] /\
  fst r = Return PyNone.
Proof.
  assert (H0 : (0 <= 1)%Z) by lia.
  assert (H1 : mem "D" (fail_list sample_world) = false) by reflexivity.
  assert (H2 : NoDup (map item_id (drive sample_world))).
  { simpl. repeat (constructor; [simpl; intuition discriminate |]). constructor. }
  split; [exact H0 |]. split; [exact H1 |]. split; [exact H2 |].
  destruct (C2_prune_deletes_beyond_the_newest "D" 1 "nightly" sample_world H0 H1 H2)
    as (_ & _ & Hall & Hret & _).
  assert (Hnone : forall f,
             In f (skipn (Z.to_nat 1) (retention_listing sample_world "D" "nightly")) ->
             mem (item_id f) (fail_delete sample_world) = false)
    by (intros f _; reflexivity).
  split.
  - exact (Hall (Hret Hnone)).
  - exact (Hret Hnone).
Defined.

(** C2, as stated, fails where the service refuses a deletion: three
    backups match, one is to be kept, and only one deletion is requested. *)
Lemma C2_counterexample :
  length (matching_backups refusing_world "D" "nightly") = 3 /\
  deletions_since refusing_world
    (snd (delete_old_backups "D" 1 "nightly" refusing_world)) = ["z3"] /\
  ~ attempts_exactly_the_excess refusing_world "D" 1 "nightly".
Proof.
  split; [reflexivity |]. split; [reflexivity |].
  unfold attempts_exactly_the_excess. vm_compute. discriminate.
Qed.

(** The loop stops at the first deletion the service refuses. *)
Lemma delete_loop_first_refusal fs : forall w,
  NoDup (map item_id fs) ->
  (forall f, In f fs -> In f (drive w)) ->
  (exists f, In f fs /\ mem (item_id f) (fail_delete w) = true) ->
  let r := for_each fs (fun file => files_delete (item_id file)) w in
  exists pre fid rest,
    map item_id fs = pre ++ fid :: rest /\
    Forall (fun i => mem i (fail_delete w) = false) pre /\
    mem fid (fail_delete w) = true /\
    fst r = Raise (HttpError (ApiDelete fid)) /\
    deletions (calls (snd r)) = deletions (calls w) ++ pre ++ [fid] /\
    (forall x, In x (drive w) -> ~ In (item_id x) (pre ++ [fid]) ->
               In x (drive (snd r))).
Proof.
  induction fs as [| f fs IH]; intros w Hnd Hin (g & Hg & Href); [contradiction |].
  cbv zeta. simpl for_each. rewrite bind_unfold.
  inversion Hnd as [| ? ? Hnf Hnd']; subst.
  destruct (files_delete_spec (item_id f) w) as (Hc & Hf & Hd & Hr & Hs).
  destruct (mem (item_id f) (fail_delete w)) eqn:Em.
  - (* the first deletion is refused *)
    assert (E : files_delete (item_id f) w
                = (Raise (HttpError (ApiDelete (item_id f))),
                   log_call (ApiDelete (item_id f)) w)).
    { unfold files_delete. now rewrite Em. }
    rewrite E. exists [], (item_id f), (map item_id fs).
    repeat split; auto.
    simpl. now rewrite deletions_app.
  - (* it is accepted, and the loop goes on *)
    assert (Hok : fst (files_delete (item_id f) w) = Return tt).
    { apply Hs; [reflexivity |]. exists f. split; [apply Hin; now left | reflexivity]. }
    destruct (files_delete (item_id f) w) as [[[] | e] w1]; [| discriminate].
    simpl in *.
    destruct (IH w1 Hnd') as (pre & fid & rest & Hm & Hpre & Hfid & Hres & Hdel & Hdr).
    + intros h Hh. apply Hd; [apply Hin; now right |].
      intros Heq. apply Hnf. rewrite <- Heq. now apply in_map.
    + destruct Hg as [<- | Hg]; [congruence |].
      exists g. split; [exact Hg | now rewrite Hf].
    + exists (item_id f :: pre), fid, rest. rewrite Hf in *.
      repeat split; auto.
      * simpl. now rewrite Hm.
      * cbv zeta in Hdel. rewrite Hdel, Hc, deletions_app. simpl.
        now rewrite <- app_assoc.
      * intros x Hx Hn. apply Hdr.
        -- apply Hd; [exact Hx |]. intros Heq. apply Hn. now left.
        -- intros Hi. apply Hn. now right.
Qed.

(** C4, amended. When the service refuses the deletion of a selected
    entry, [delete_old_backups] stops at the first such entry: the
    deletions of the entries selected before it were requested, in order,
    the refused one is the last request and its error is raised, and no
    deletion is requested for the entries selected after it, which stay
    in the store. *)
Theorem C4_refused_deletion_ends_the_loop :
  forall dest N label w,
    (0 <= N)%Z ->
    mem dest (fail_list w) = false ->
    NoDup (map item_id (drive w)) ->
    let old := skipn (Z.to_nat N) (retention_listing w dest label) in
    let r := delete_old_backups dest N label w in
    (exists f, In f old /\ mem (item_id f) (fail_delete w) = true) ->
    exists pre fid rest,
      map item_id old = pre ++ fid :: rest /\
      Forall (fun i => mem i (fail_delete w) = false) pre /\
      mem fid (fail_delete w) = true /\
      fst r = Raise (HttpError (ApiDelete fid)) /\
      deletions_since w (snd r) = pre ++ [fid] /\
      forall f, In f old -> In (item_id f) rest ->
                ~ In (item_id f) (deletions_since w (snd r)) /\
                In f (drive (snd r)).
Proof.
  intros dest N label w HN Hl Hnd old r Href.
  pose proof (delete_old_backups_unfold dest N label w Hl HN) as E.
  cbv zeta in E. fold old in E. fold r in E.
  set (w0 := log_call _ w) in E.
  assert (Hgt : (Z.of_nat (length (retention_listing w dest label)) >? N)%Z = true).
  { destruct Href as (f & Hf & _).
    apply Z.gtb_lt.
    assert (length old <> 0) by (destruct old; [contradiction | discriminate]).
    unfold old in *. rewrite length_skipn in *. lia. }
  rewrite Hgt in E.
  assert (Hnd_old : NoDup (map item_id old)).
  { pose proof (retention_listing_NoDup w dest label Hnd) as H.
    rewrite <- (firstn_skipn (Z.to_nat N) (retention_listing w dest label)), map_app in H.
    now apply NoDup_app_remove_l in H. }
  assert (Hin_old : forall f, In f old -> In f (drive w0)).
  { intros f Hf. apply skipn_In in Hf. now apply retention_listing_incl in Hf. }
  destruct (delete_loop_first_refusal old w0 Hnd_old Hin_old Href)
    as (pre & fid & rest & Hm & Hpre & Hfid & Hres & Hdel & Hdr).
  cbv zeta in Hres, Hdel, Hdr.
  assert (Hr : r = (Raise (HttpError (ApiDelete fid)),
                    snd (for_each old (fun file => files_delete (item_id file)) w0))).
  { rewrite E.
    destruct (for_each old (fun file => files_delete (item_id file)) w0)
      as [[[] | e] w1]; simpl in *; [discriminate | congruence]. }
  assert (Hatt : deletions_since w (snd r) = pre ++ [fid]).
  { apply deletions_since_app. rewrite Hr; simpl. rewrite Hdel.
    unfold w0; simpl. rewrite deletions_app; simpl. now rewrite app_nil_r. }
  exists pre, fid, rest.
  split; [exact Hm |]. split; [exact Hpre |]. split; [exact Hfid |].
  split; [now rewrite Hr |]. split; [exact Hatt |].
  intros f Hf Hrest.
  assert (Hnin : ~ In (item_id f) (pre ++ [fid])).
  { rewrite Hm in Hnd_old.
    replace (pre ++ fid :: rest) with ((pre ++ [fid]) ++ rest) in Hnd_old
      by now rewrite <- app_assoc.
    intros Hi. exact (NoDup_app_disjoint _ _ Hnd_old _ Hi Hrest). }
  split; [now rewrite Hatt |].
  rewrite Hr; simpl. apply Hdr; [| exact Hnin].
  now apply Hin_old.
Qed.

(** The theorem at the world where the service refuses to delete [z3]. *)
Lemma C4_refused_deletion_ends_the_loop_witness :
  (exists f,
      In f (skipn (Z.to_nat 1) (retention_listing refusing_world "D" "nightly")) /\
      mem (item_id f) (fail_delete refusing_world) = true) /\
  exists pre fid rest,
    map item_id (skipn 1 (retention_listing refusing_world "D" "nightly"))
      = pre ++ fid :: rest /\
    fst (delete_old_backups "D" 1 "nightly" refusing_world)
      = Raise (HttpError (ApiDelete fid)) /\
    deletions_since refusing_world
      (snd (delete_old_backups "D" 1 "nightly" refusing_world)) = pre ++ [fid].
Proof.
  assert (H0 : (0 <= 1)%Z) by lia.
  assert (H1 : mem "D" (fail_list refusing_world) = false) by reflexivity.
  assert (H2 : NoDup (map item_id (drive refusing_world))).
  { simpl. repeat (constructor; [simpl; intuition discriminate |]). constructor. }
  assert (H3 : exists f,
             In f (skipn (Z.to_nat 1) (retention_listing refusing_world "D" "nightly")) /\
             mem (item_id f) (fail_delete refusing_world) = true).
  { exists (zip_backup "z3" "2022_nightly.zip" 20). split; [now left | reflexivity]. }
  split; [exact H3 |].
  destruct (C4_refused_deletion_ends_the_loop "D" 1 "nightly" refusing_world
              H0 H1 H2 H3) as (pre & fid & rest & Ha & _ & _ & Hb & Hc & _).
  exists pre, fid, rest. split; [exact Ha | split; [exact Hb | exact Hc]].
Defined.

(** C4, as stated, fails: the service refuses to delete [z3], and the
    deletion of [z1], selected as well, is never requested. *)
Lemma C4_counterexample :
  fst (delete_old_backups "D" 1 "nightly" refusing_world)
    = Raise (HttpError (ApiDelete "z3")) /\
  ~ attempts_every_selected refusing_world "D" 1 "nightly".
Proof.
  split; [reflexivity |].
  intros H. specialize (H (zip_backup "z1" "2020_nightly.zip" 10)).
  vm_compute in H.
  destruct H as [H | H]; [now right; left | discriminate | contradiction].
Qed.

(** C8, amended. [delete_old_backups] has no [return] statement: when it
    returns, it returns [None], whatever the deletions; and [main]
    returns its fixed message, with no count. *)
Theorem C8_prune_returns_none :
  forall targz cfg dest N label w,
    match fst (delete_old_backups dest N label w) with
    | Return v => v = PyNone
    | Raise _ => True
    end /\
    match fst (main targz cfg w) with
    | Return v => v = PyStr "Backup completed successfully!"
    | Raise _ => True
    end.
Proof.
  intros targz cfg dest N label w. split.
  - unfold delete_old_backups. rewrite bind_unfold.
    destruct (files_list _ _ _ w) as [[pg | e] w0]; simpl; [| exact I].
    destruct (Z.of_nat (length (files pg)) >? N)%Z; simpl; [| reflexivity].
    rewrite bind_unfold.
    now destruct (for_each _ _ w0) as [[[] | e] w1].
  - unfold main. rewrite bind_unfold.
    destruct (backup_folder _ _ _ _ w) as [[v | e] w0]; simpl; [| exact I].
    rewrite bind_unfold.
    now destruct (delete_old_backups _ _ _ w0) as [[v' | e] w1].
Qed.

(** C8, as stated, fails: two deletions are performed and the function
    returns [None], not [2]. *)
Lemma C8_counterexample :
  deletions_since sample_world
    (snd (delete_old_backups "D" 1 "nightly" sample_world)) = ["z3"; "z1"] /\
  fst (delete_old_backups "D" 1 "nightly" sample_world) = Return PyNone /\
  ~ returns_deletion_count sample_world "D" 1 "nightly".
Proof.
  split; [reflexivity |]. split; [reflexivity |].
  unfold returns_deletion_count. vm_compute. discriminate.
Qed.

(** ** Termination of the walker *)

Lemma for_each_good {A} (Inv : world -> Prop) (good : outcome unit -> Prop)
      (xs : list A) (body : A -> M unit) :
  good (Return tt) ->
  (forall x w, In x xs -> Inv w ->
               good (fst (body x w)) /\ Inv (snd (body x w))) ->
  forall w, Inv w ->
            good (fst (for_each xs body w)) /\ Inv (snd (for_each xs body w)).
Proof.
  intros Hret. induction xs as [| x xs IH]; intros Hbody w Hw; simpl.
  - now split.
  - rewrite bind_unfold.
    destruct (Hbody x w (or_introl eq_refl) Hw) as [Hg Hi].
    destruct (body x w) as [[[] | e] w1]; simpl in *.
    + apply IH; [| exact Hi]. intros y w' Hy. apply Hbody. now right.
    + now split.
Qed.

Lemma walker_frame_refl tar w : walker_frame tar w w.
Proof. split; [apply same_remote_refl | intros H; exact H]. Qed.

Lemma walker_frame_trans tar a b c :
  walker_frame tar a b -> walker_frame tar b c -> walker_frame tar a c.
Proof.
  intros [R1 O1] [R2 O2].
  split; [eapply same_remote_trans; eauto | intros H; exact (O2 (O1 H))].
Qed.

Lemma files_list_frame tar q o t : preserves (walker_frame tar) (files_list q o t).
Proof.
  intro w. rewrite files_list_world. split; [repeat split | intros H; exact H].
Qed.

Lemma download_frame tar fileId fh : preserves (walker_frame tar) (download fileId fh).
Proof.
  intro w. rewrite download_world. split; [repeat split | intros H; exact H].
Qed.

Lemma tar_addfile_frame tar ti fh : preserves (walker_frame tar) (tar_addfile tar ti fh).
Proof.
  intro w.
  destruct (tar_addfile_world tar ti fh w) as [-> | (entries & d & _ & _ & _ & ->)].
  - apply walker_frame_refl.
  - split; [repeat split |].
    intros _. eexists. rewrite local_fs_set. apply fs_lookup_write.
Qed.

Lemma walker_preserves_frame depth : forall tar folder_id current_path,
  preserves (walker_frame tar)
            (add_files_to_archive depth tar folder_id current_path).
Proof.
  induction depth as [| depth IH]; intros tar folder_id current_path; simpl.
  - apply preserves_raise, walker_frame_refl.
  - apply preserves_bind; [apply walker_frame_trans | apply files_list_frame |].
    intros results w w1 _.
    apply preserves_bind; [apply walker_frame_trans | |].
    + apply preserves_for_each;
        [apply walker_frame_refl | apply walker_frame_trans |].
      intros it _.
      destruct (String.eqb (item_mimeType it) FOLDER_MIME).
      * apply preserves_bind; [apply walker_frame_trans | apply IH |].
        intros; apply walker_frame_refl.
      * apply preserves_bind; [apply walker_frame_trans | apply download_frame |].
        intros fh w2 w3 _. apply tar_addfile_frame.
    + intros; apply walker_frame_refl.
Qed.

Lemma forallb_pointwise {A} (f g : A -> bool) (l : list A) :
  (forall x, f x = g x) -> forallb f l = forallb g l.
Proof.
  intros H. induction l as [| x l IH]; simpl; [reflexivity |].
  now rewrite H, IH.
Qed.

Lemma nests_within_same_remote depth : forall w w' folder_id,
  same_remote w w' -> nests_within depth w' folder_id = nests_within depth w folder_id.
Proof.
  induction depth as [| depth IH]; intros w w' folder_id H; simpl; [reflexivity |].
  unfold first_page_children. destruct H as (Hd & Hp & Hrest).
  rewrite Hd, Hp. apply forallb_pointwise. intros it.
  rewrite (IH w w'); [reflexivity | now repeat split].
Qed.

Lemma find_has_id x d : In x d -> exists f, find (has_id (item_id x)) d = Some f.
Proof.
  intros H. destruct (find (has_id (item_id x)) d) as [f |] eqn:E; [now exists f |].
  exfalso. apply (find_none _ _ E) in H.
  unfold has_id in H. now rewrite String.eqb_refl in H.
Qed.

(** One file: its download, then its member in the archive. *)
Lemma file_step tar name x w :
  let r := (fh <- download (item_id x) (mk_bytesio [] 0) ;;
            (let fh := bio_seek fh 0 in
             tar_addfile tar (mk_tarinfo name (bio_nbytes fh)) fh)) w in
  fst r <> Raise RecursionError /\
  (fail_media w = [] -> In x (drive w) -> tar_is_open tar w -> fst r = Return tt).
Proof.
  cbv zeta. rewrite bind_unfold. unfold download.
  destruct (mem (item_id x) (fail_media w)) eqn:Em.
  - simpl. split; [discriminate |]. intros Hf. rewrite Hf in Em. discriminate.
  - destruct (find (has_id (item_id x)) (drive w)) as [f |] eqn:Ef.
    + rewrite next_chunks_at_end by reflexivity. simpl.
      unfold tar_addfile.
      change (local_fs (log_call (ApiGetMedia (item_id x)) w)) with (local_fs w).
      set (data := concat (item_media f)).
      assert (Hlen : (length (bio_read (bio_seek (mk_bytesio data (length data)) 0)
                            (Z.to_nat (bio_nbytes (bio_seek (mk_bytesio data (length data)) 0))))
                      <? Z.to_nat (bio_nbytes (bio_seek (mk_bytesio data (length data)) 0)))
                     = false).
      { unfold bio_read, bio_nbytes; simpl. rewrite Nat2Z.id, firstn_all.
        apply Nat.ltb_irrefl. }
      cbn [ti_size ti_name]. 
      destruct (fs_lookup tar (local_fs w)) as [[entries st] |] eqn:El.
      * destruct st; simpl.
        -- rewrite Hlen. simpl. split; [discriminate | reflexivity].
        -- split; [discriminate |]. intros _ _ (es & Hes). congruence.
        -- split; [discriminate |]. intros _ _ (es & Hes). congruence.
      * simpl. split; [discriminate |]. intros _ _ (es & Hes). congruence.
    + simpl. split; [discriminate |].
      intros _ Hin. destruct (find_has_id x (drive w) Hin) as (f & Hf). congruence.
Qed.

Lemma walker_step depth tar folder_id current_path w :
  let q := mk_query folder_id (Some false) None None in
  add_files_to_archive (S depth) tar folder_id current_path w =
    if mem folder_id (fail_list w)
    then (Raise (HttpError (ApiList q)), log_call (ApiList q) w)
    else
      match
        for_each (first_page_children w folder_id)
          (fun item =>
             let item_path := os_path_join current_path (item_name item) in
             if String.eqb (item_mimeType item) FOLDER_MIME then
               add_files_to_archive depth tar (item_id item) item_path ;;; ret tt
             else
               fh <- download (item_id item) (mk_bytesio [] 0) ;;
               (let fh := bio_seek fh 0 in
                let tarinfo := mk_tarinfo item_path (bio_nbytes fh) in
                tar_addfile tar tarinfo fh))
          (log_call (ApiList q) w)
      with
      | (Return _, w1) => (Return PyNone, w1)
      | (Raise e, w1) => (Raise e, w1)
      end.
Proof.
  cbv zeta. cbn [add_files_to_archive]. rewrite bind_unfold.
  unfold files_list. cbn [q_parent].
  destruct (mem folder_id (fail_list w)); [reflexivity |].
  cbn [files skipn]. fold (first_page_children w folder_id).
  rewrite bind_unfold.
  now destruct (for_each _ _ _) as [[[] | e] w1].
Qed.

Lemma first_page_children_incl w folder_id x :
  In x (first_page_children w folder_id) -> In x (drive w).
Proof.
  unfold first_page_children. intros H.
  apply firstn_In in H. now apply filter_In in H.
Qed.

Lemma walker_within_depth depth : forall tar folder_id current_path w,
  nests_within depth w folder_id = true ->
  let r := add_files_to_archive depth tar folder_id current_path w in
  fst r <> Raise RecursionError /\
  (fail_list w = [] -> fail_media w = [] -> tar_is_open tar w ->
   fst r = Return PyNone).
Proof.
  induction depth as [| depth IH]; intros tar folder_id current_path w Hn;
    [discriminate |].
  cbv zeta. rewrite walker_step. cbv zeta.
  destruct (mem folder_id (fail_list w)) eqn:Ef.
  - simpl. split; [discriminate |]. intros Hf. rewrite Hf in Ef. discriminate.
  - simpl in Hn. rewrite forallb_forall in Hn.
    set (w0 := log_call _ w).
    set (C := fail_list w = [] /\ fail_media w = [] /\ tar_is_open tar w).
    set (body := fun item : item => _).
    assert (Hloop :
      (fst (for_each (first_page_children w folder_id) body w0) <> Raise RecursionError
       /\ (C -> fst (for_each (first_page_children w folder_id) body w0) = Return tt))
      /\ walker_frame tar w (snd (for_each (first_page_children w folder_id) body w0))).
    { apply (for_each_good (fun w' => walker_frame tar w w')
               (fun o => o <> Raise RecursionError /\ (C -> o = Return tt))).
      - split; [discriminate | reflexivity].
      - intros x w' Hx [Hrem Hopen]. specialize (Hn x Hx).
        unfold body.
        destruct (String.eqb (item_mimeType x) FOLDER_MIME) eqn:Em.
        + simpl in Hn.
          rewrite <- (nests_within_same_remote depth w w' _ Hrem) in Hn.
          destruct (IH tar (item_id x) (os_path_join current_path (item_name x)) w' Hn)
            as [Hne Hret].
          pose proof (walker_preserves_frame depth tar (item_id x)
                        (os_path_join current_path (item_name x)) w') as Hfr.
          rewrite bind_unfold.
          destruct (add_files_to_archive depth tar (item_id x) _ w')
            as [[v | e] w2]; simpl in *.
          * split; [split; [discriminate | reflexivity] |].
            eapply walker_frame_trans; [split; eassumption | exact Hfr].
          * split; [split |].
            -- intros Heq. apply Hne. injection Heq as ->. reflexivity.
            -- intros (C1 & C2 & C3).
               destruct Hrem as (_ & _ & Hfl & Hfm).
               assert (Raise e = Return PyNone) as Habs; [| discriminate Habs].
               apply Hret; [congruence | congruence | now apply Hopen].
            -- eapply walker_frame_trans; [split; eassumption | exact Hfr].
        + destruct (file_step tar (os_path_join current_path (item_name x)) x w')
            as [Hne Hret].
          cbv zeta in Hne, Hret. split; [split |].
          * exact Hne.
          * intros (C1 & C2 & C3). destruct Hrem as (Hd & _ & _ & Hfm).
            apply Hret; [congruence | | now apply Hopen].
            rewrite Hd. now apply first_page_children_incl in Hx.
          * eapply walker_frame_trans; [split; eassumption |].
            apply preserves_bind;
              [apply walker_frame_trans | apply download_frame |].
            intros fh wa wb _. apply tar_addfile_frame.
      - unfold w0. split; [repeat split | intros H; exact H]. }
    destruct Hloop as [[Hne Hret] _].
    destruct (for_each (first_page_children w folder_id) body w0)
      as [[[] | e] w1]; simpl in *.
    + split; [discriminate | reflexivity].
    + split; [intros Heq; apply Hne; injection Heq as ->; reflexivity |].
      intros C1 C2 C3.
      assert (@Raise unit e = Return tt) as Habs; [| discriminate Habs].
      apply Hret. now repeat split.
Qed.

Lemma descends_forever_nests_nowhere w folder_id :
  descends_forever w folder_id ->
  forall depth, nests_within depth w folder_id = false.
Proof.
  intros (S & HS & Hstep) depth. revert folder_id HS.
  induction depth as [| depth IH]; intros folder_id HS; [reflexivity |].
  destruct (Hstep folder_id HS) as (sub & Hin & Hm & Hsub).
  simpl. destruct (forallb _ _) eqn:E; [| reflexivity].
  rewrite forallb_forall in E. specialize (E sub Hin).
  rewrite Hm, String.eqb_refl, (IH _ Hsub) in E. discriminate.
Qed.

(** The other half: when the sub-folders nest deeper than the allowance
    and no listing and no download fails, the walk comes to the folder
    that is one level too deep and ends with [RecursionError]. *)
Lemma walker_beyond_depth depth : forall tar folder_id current_path w,
  nests_within depth w folder_id = false ->
  fail_list w = [] -> fail_media w = [] -> tar_is_open tar w ->
  fst (add_files_to_archive depth tar folder_id current_path w) = Raise RecursionError.
Proof.
  induction depth as [| depth IH]; intros tar folder_id current_path w Hn Hfl Hfm Ho;
    [reflexivity |].
  rewrite walker_step. cbv zeta. rewrite Hfl. cbn [mem existsb].
  set (w0 := log_call _ w). set (body := fun item : item => _).
  simpl in Hn.
  assert (Hin : forall xs wa,
             (forall x, In x xs -> In x (drive w)) ->
             walker_frame tar w wa ->
             forallb (fun it => negb (String.eqb (item_mimeType it) FOLDER_MIME)
                                || nests_within depth w (item_id it)) xs = false ->
             fst (for_each xs body wa) = Raise RecursionError).
  { induction xs as [| x xs IHxs]; intros wa Hdr [Hrem Hopen] Hall; [discriminate |].
    cbn [forallb] in Hall. simpl for_each. rewrite bind_unfold.
    destruct Hrem as (Hd & Hp & Hl & Hm).
    assert (Hrem : same_remote w wa) by (repeat split; assumption).
    assert (Hfl' : fail_list wa = []) by congruence.
    assert (Hfm' : fail_media wa = []) by congruence.
    assert (Ho' : tar_is_open tar wa) by now apply Hopen.
    assert (Hfr : walker_frame tar wa (snd (body x wa))).
    { unfold body. destruct (String.eqb (item_mimeType x) FOLDER_MIME).
      - apply preserves_bind; [apply walker_frame_trans | apply walker_preserves_frame |].
        intros; apply walker_frame_refl.
      - apply preserves_bind; [apply walker_frame_trans | apply download_frame |].
        intros fh wb wc _. apply tar_addfile_frame. }
    assert (Hstep : fst (body x wa) = Raise RecursionError \/
                    (fst (body x wa) = Return tt /\
                     forallb (fun it => negb (String.eqb (item_mimeType it) FOLDER_MIME)
                                        || nests_within depth w (item_id it)) xs = false)).
    { unfold body. destruct (String.eqb (item_mimeType x) FOLDER_MIME) eqn:Em.
      - rewrite bind_unfold. cbn [negb orb] in Hall.
        destruct (nests_within depth w (item_id x)) eqn:En.
        + right. split; [| exact Hall].
          rewrite <- (nests_within_same_remote depth w wa _ Hrem) in En.
          destruct (walker_within_depth depth tar (item_id x)
                      (os_path_join current_path (item_name x)) wa En) as [_ Hret].
          specialize (Hret Hfl' Hfm' Ho').
          destruct (add_files_to_archive depth tar (item_id x) _ wa) as [[v | e] w2];
            simpl in *; [reflexivity | discriminate].
        + left.
          rewrite <- (nests_within_same_remote depth w wa _ Hrem) in En.
          pose proof (IH tar (item_id x) (os_path_join current_path (item_name x))
                         wa En Hfl' Hfm' Ho') as Hr.
          destruct (add_files_to_archive depth tar (item_id x) _ wa) as [[v | e] w2];
            simpl in *; [discriminate | now injection Hr as ->].
      - right. cbn [negb orb] in Hall. split; [| exact Hall].
        destruct (file_step tar (os_path_join current_path (item_name x)) x wa)
          as [_ Hret].
        apply Hret; [exact Hfm' | | exact Ho'].
        rewrite Hd. apply Hdr. now left. }
    destruct Hstep as [Hr | [Hr Hrest]].
    - destruct (body x wa) as [[[] | e] w2]; simpl in *;
        [discriminate | exact Hr].
    - destruct (body x wa) as [[[] | e] w2]; simpl in *; [| discriminate].
      apply IHxs; [intros y Hy; apply Hdr; now right | | exact Hrest].
      eapply walker_frame_trans; [split; [exact Hrem | exact Hopen] | exact Hfr]. }
  assert (H : fst (for_each (first_page_children w folder_id) body w0)
              = Raise RecursionError).
  { apply Hin; [apply first_page_children_incl | | exact Hn].
    split; [repeat split | intros H; exact H]. }
  destruct (for_each _ body w0) as [[[] | e] w1]; simpl in *;
    [discriminate | now injection H as ->].
Qed.

(** C9, amended. The traversal is a plain recursion, one nested call per
    level of folders, and keeps no record of the folders it has visited.
    When the sub-folders it sees nest fewer levels than the interpreter
    allows nested calls, it ends without [RecursionError], and it returns
    when in addition no listing and no download fails and the archive is
    open; the same holds with any larger allowance. When no listing and
    no download fails and the archive is open, a hierarchy that nests
    deeper than the allowance ends with [RecursionError], and so does,
    under every allowance, a folder graph in which the descent never
    ends, as it does on a cycle. *)
Theorem C9_walker_ends_within_the_stack :
  forall depth extra tar folder_id current_path w,
    (nests_within depth w folder_id = true ->
     let r := add_files_to_archive (depth + extra) tar folder_id current_path w in
     fst r <> Raise RecursionError /\
     (fail_list w = [] -> fail_media w = [] -> tar_is_open tar w ->
      fst r = Return PyNone)) /\
    (fail_list w = [] -> fail_media w = [] -> tar_is_open tar w ->
     (nests_within depth w folder_id = false ->
      fst (add_files_to_archive depth tar folder_id current_path w)
      = Raise RecursionError) /\
     (descends_forever w folder_id ->
      fst (add_files_to_archive depth tar folder_id current_path w)
      = Raise RecursionError)).
Proof.
  intros depth extra tar folder_id current_path w. split.
  - intros Hn. apply walker_within_depth.
    clear tar current_path. revert folder_id Hn.
    induction depth as [| depth IH]; intros folder_id Hn; [discriminate |].
    simpl in *. rewrite forallb_forall in *. intros x Hx.
    specialize (Hn x Hx). apply orb_true_iff in Hn as [Hn | Hn].
    + now rewrite Hn.
    + rewrite (IH _ Hn). apply orb_true_r.
  - intros Hfl Hfm Ho. split.
    + intros Hn. now apply walker_beyond_depth.
    + intros Hd. apply walker_beyond_depth; auto.
      now apply descends_forever_nests_nowhere.
Qed.

(** The theorem at the sample world, where folders nest two levels, at a
    chain of ten folders walked with ten nested calls, and at two folders
    that contain each other. *)
Lemma C9_walker_ends_within_the_stack_witness :
  (nests_within 2 sample_world "F1" = true /\
   fst (add_files_to_archive (2 + 8) archive_file_path "F1" ""
          (snd (tarfile_open archive_file_path sample_world)))
   <> Raise RecursionError) /\
  (nests_within 10 (chain_world 10) "c0" = false /\
   fst (add_files_to_archive 10 archive_file_path "c0" "" (chain_world 10))
   = Raise RecursionError) /\
  (descends_forever cyclic_world "A" /\
   fst (add_files_to_archive 7 archive_file_path "A" "" cyclic_world)
   = Raise RecursionError).
Proof.
  assert (Hc : descends_forever cyclic_world "A").
  { exists (fun g => g = "A" \/ g = "B"). split; [now left |].
    intros g [-> | ->].
    - exists (folder "B" "b" "A"). split; [now left |]. split; [reflexivity | now right].
    - exists (folder "A" "a" "B"). split; [now left |]. split; [reflexivity | now left]. }
  assert (Ho : forall d, tar_is_open archive_file_path (quiet_world d
                 [(archive_file_path, mk_tar [] Writing)])).
  { intros d. exists []. reflexivity. }
  assert (Hn : nests_within 10 (chain_world 10) "c0" = false)
    by (vm_compute; reflexivity).
  split; [| split].
  - split; [reflexivity |].
    apply (C9_walker_ends_within_the_stack 2 8 archive_file_path "F1" ""
             (snd (tarfile_open archive_file_path sample_world))).
    reflexivity.
  - split; [exact Hn |].
    exact (proj1 (proj2 (C9_walker_ends_within_the_stack 10 0 archive_file_path
                           "c0" "" (chain_world 10))
                        eq_refl eq_refl (Ho _)) Hn).
  - split; [exact Hc |].
    exact (proj2 (proj2 (C9_walker_ends_within_the_stack 7 0 archive_file_path
                           "A" "" cyclic_world)
                        eq_refl eq_refl (Ho _)) Hc).
Defined.

Lemma cyclic_walk depth : forall tar path w,
  same_remote cyclic_world w ->
  fst (add_files_to_archive depth tar "A" path w) = Raise RecursionError /\
  fst (add_files_to_archive depth tar "B" path w) = Raise RecursionError.
Proof.
  induction depth as [| depth IH]; intros tar path w Hrem; [now split |].
  destruct Hrem as (Hd & Hp & Hfl & Hfm).
  assert (HA : first_page_children w "A" = [folder "B" "b" "A"]).
  { unfold first_page_children. rewrite Hd, Hp. reflexivity. }
  assert (HB : first_page_children w "B" = [folder "A" "a" "B"]).
  { unfold first_page_children. rewrite Hd, Hp. reflexivity. }
  split; rewrite walker_step; cbv zeta; rewrite Hfl; cbn [mem existsb];
    [rewrite HA | rewrite HB]; cbn [for_each]; rewrite !bind_unfold;
    cbn [item_mimeType folder item_id item_name]; rewrite String.eqb_refl;
    rewrite bind_unfold.
  - set (w0 := log_call _ w).
    destruct (IH tar (os_path_join path "b") w0) as [_ H]; [now repeat split |].
    destruct (add_files_to_archive depth tar "B" _ w0) as [[v | e] w1];
      simpl in *; congruence.
  - set (w0 := log_call _ w).
    destruct (IH tar (os_path_join path "a") w0) as [H _]; [now repeat split |].
    destruct (add_files_to_archive depth tar "A" _ w0) as [[v | e] w1];
      simpl in *; congruence.
Qed.

(** C9, as stated, fails: on two folders that contain each other the
    walker lists the same folders again and again and exhausts every
    stack. *)
Lemma C9_counterexample :
  map (fun c => match c with ApiList q => q_parent q | _ => "" end)
      (calls (snd (add_files_to_archive 4 archive_file_path "A" "" cyclic_world)))
    = ["A"; "B"; "A"; "B"] /\
  ~ traversal_terminates cyclic_world "A".
Proof.
  split; [reflexivity |].
  intros (depth & H). apply H.
  apply cyclic_walk. apply same_remote_refl.
Qed.

(** A hierarchy without cycle exhausts the stack as well when it is
    deep enough: ten folders below the source folder need eleven nested
    calls. *)
Example deep_chain_needs_the_stack :
  fst (add_files_to_archive 10 archive_file_path "c0" "" (chain_world 10))
    = Raise RecursionError /\
  fst (add_files_to_archive 11 archive_file_path "c0" "" (chain_world 10))
    = Return PyNone /\
  map te_name
      (tar_entries archive_file_path
         (snd (add_files_to_archive 11 archive_file_path "c0" "" (chain_world 10))))
    = ["d1/d2/d3/d4/d5/d6/d7/d8/d9/d10/leaf.txt"].
Proof. vm_compute. repeat split; reflexivity. Qed.

(** ** The walker and the reachable files *)

Lemma archive_grows_refl tar w : archive_grows tar w w.
Proof. split; [apply same_remote_refl |]. exists []. now rewrite app_nil_r. Qed.

Lemma archive_grows_trans tar a b c :
  archive_grows tar a b -> archive_grows tar b c -> archive_grows tar a c.
Proof.
  intros [R1 (l1 & E1)] [R2 (l2 & E2)].
  split; [eapply same_remote_trans; eauto |].
  exists (l1 ++ l2). now rewrite E2, E1, app_assoc.
Qed.

Lemma adds_files_under_refl tar folder_id path w :
  adds_files_under tar folder_id path w w.
Proof.
  split; [apply same_remote_refl |]. exists []. now rewrite app_nil_r.
Qed.

Lemma adds_files_under_trans tar folder_id path a b c :
  adds_files_under tar folder_id path a b ->
  adds_files_under tar folder_id path b c ->
  adds_files_under tar folder_id path a c.
Proof.
  intros [R1 (l1 & E1 & F1)] [R2 (l2 & E2 & F2)].
  split; [eapply same_remote_trans; eauto |].
  exists (l1 ++ l2). split; [now rewrite E2, E1, app_assoc |].
  apply Forall_app. split; [exact F1 |].
  destruct R1 as (Hd & _). now rewrite <- Hd.
Qed.

Lemma adds_files_under_grows tar folder_id path w w' :
  adds_files_under tar folder_id path w w' -> archive_grows tar w w'.
Proof. intros [R (l & E & _)]. split; [exact R | now exists l]. Qed.

Lemma first_page_child w folder_id x :
  In x (first_page_children w folder_id) -> child_of (drive w) folder_id x.
Proof.
  unfold first_page_children. intros H. apply firstn_In in H.
  apply filter_In in H as [Hin Hm]. unfold matches in Hm. cbn in Hm.
  rewrite !andb_true_r in Hm. apply andb_true_iff in Hm as [Hp Ht].
  repeat split; [exact Hin | exact Hp |].
  now destruct (item_trashed x).
Qed.

Lemma child_first_page w folder_id x :
  one_page w folder_id ->
  child_of (drive w) folder_id x -> In x (first_page_children w folder_id).
Proof.
  unfold one_page, first_page_children. intros Hone (Hin & Hp & Ht).
  rewrite firstn_all2 by exact Hone.
  apply filter_In. split; [exact Hin |].
  unfold matches. cbn. now rewrite Hp, Ht.
Qed.

(** What one file adds: nothing when a step fails, and otherwise one
    member, under the path of the file. *)
Lemma file_step_entries tar name x w :
  let r := (fh <- download (item_id x) (mk_bytesio [] 0) ;;
            (let fh := bio_seek fh 0 in
             tar_addfile tar (mk_tarinfo name (bio_nbytes fh)) fh)) w in
  same_remote w (snd r) /\
  match fst r with
  | Return _ => exists e, te_name e = name /\
                          tar_entries tar (snd r) = tar_entries tar w ++ [e]
  | Raise _ => tar_entries tar (snd r) = tar_entries tar w
  end.
Proof.
  cbv zeta. rewrite bind_unfold.
  pose proof (download_world (item_id x) (mk_bytesio [] 0) w) as Hw.
  destruct (download (item_id x) (mk_bytesio [] 0) w) as [[fh | e] w1];
    simpl in Hw; subst w1; [| split; [repeat split | reflexivity]].
  set (w1 := log_call _ w).
  set (ti := mk_tarinfo _ _).
  unfold tar_addfile. change (local_fs w1) with (local_fs w).
  unfold tar_entries at 2 4.
  destruct (fs_lookup tar (local_fs w)) as [[entries st] |] eqn:El;
    [| split; [repeat split | unfold tar_entries; cbn; now rewrite El]].
  destruct st; try (split; [repeat split | unfold tar_entries; cbn; now rewrite El]).
  destruct (length (bio_read (bio_seek fh 0) (Z.to_nat (ti_size ti)))
            <? Z.to_nat (ti_size ti));
    [split; [repeat split | unfold tar_entries; cbn; now rewrite El] |].
  split; [repeat split |]. cbn [fst snd].
  eexists. split; [| unfold tar_entries; rewrite local_fs_set, fs_lookup_write; reflexivity].
  reflexivity.
Qed.

Lemma file_under_down d folder_id path sub p :
  child_of d folder_id sub ->
  item_mimeType sub = FOLDER_MIME ->
  file_under d (item_id sub) (os_path_join path (item_name sub)) p ->
  file_under d folder_id path p.
Proof.
  intros Hc Hm (f' & p' & f & Hr & Hcf & Hmf & ->).
  exists f', p', f.
  split; [eapply reaches_down; eauto |].
  split; [exact Hcf | split; [exact Hmf | reflexivity]].
Qed.

(** Soundness: the walker archives nothing but files under the folder. *)
Lemma walker_sound depth : forall tar folder_id current_path w,
  adds_files_under tar folder_id current_path w
    (snd (add_files_to_archive depth tar folder_id current_path w)).
Proof.
  induction depth as [| depth IH]; intros tar folder_id current_path w.
  - apply adds_files_under_refl.
  - rewrite walker_step. cbv zeta.
    destruct (mem folder_id (fail_list w));
      [split; [repeat split | exists []; now rewrite app_nil_r] |].
    set (w0 := log_call _ w). set (body := fun item : item => _).
    assert (Hloop : True /\
              adds_files_under tar folder_id current_path w
                (snd (for_each (first_page_children w folder_id) body w0))).
    { apply (for_each_good
               (fun w' => adds_files_under tar folder_id current_path w w')
               (fun _ => True)); [exact I | |].
      - intros x w2 Hx Hinv. split; [exact I |].
        eapply adds_files_under_trans; [exact Hinv |].
        destruct Hinv as [(Hd & Hrest) _].
        assert (Hc : child_of (drive w2) folder_id x).
        { rewrite Hd. now apply first_page_child. }
        unfold body. destruct (String.eqb (item_mimeType x) FOLDER_MIME) eqn:Em.
        + apply String.eqb_eq in Em.
          rewrite bind_unfold.
          pose proof (IH tar (item_id x)
                         (os_path_join current_path (item_name x)) w2) as [Hr (l & E & F)].
          destruct (add_files_to_archive depth tar (item_id x) _ w2) as [[v | e] w3];
            simpl in *; (split; [exact Hr |]); exists l; (split; [exact E |]);
            (eapply Forall_impl; [| exact F]); intros e' He';
            eapply file_under_down; eauto.
        + destruct (file_step_entries tar
                      (os_path_join current_path (item_name x)) x w2) as [Hr He].
          cbv zeta in Hr, He. split; [exact Hr |].
          destruct (fst _) in He.
          * destruct He as (e & Hn & He). exists [e]. split; [exact He |].
            constructor; [| constructor].
            exists folder_id, current_path, x.
            split; [constructor |]. split; [exact Hc |].
            split; [| now rewrite Hn].
            intros Heq. rewrite Heq, String.eqb_refl in Em. discriminate.
          * exists []. now rewrite app_nil_r.
      - split; [repeat split | exists []; now rewrite app_nil_r]. }
    destruct Hloop as [_ Hloop].
    now destruct (for_each _ body w0) as [[[] | e] w1].
Qed.

Lemma for_each_returns {A} (Inv : world -> world -> Prop)
      (xs : list A) (body : A -> M unit) :
  (forall w, Inv w w) ->
  (forall a b c, Inv a b -> Inv b c -> Inv a c) ->
  (forall x w2, In x xs -> Inv w2 (snd (body x w2))) ->
  forall w w',
    for_each xs body w = (Return tt, w') ->
    Inv w w' /\
    forall x, In x xs ->
              exists w2 w3, Inv w w2 /\ body x w2 = (Return tt, w3) /\ Inv w3 w'.
Proof.
  intros Hrefl Htrans. induction xs as [| x xs IH]; intros Hbody w w' H.
  - simpl in H. injection H as <-. split; [apply Hrefl | contradiction].
  - simpl in H. rewrite bind_unfold in H.
    pose proof (Hbody x w (or_introl eq_refl)) as Hx.
    destruct (body x w) as [[[] | e] w1] eqn:E; [| discriminate].
    simpl in Hx.
    destruct (IH (fun y w2 Hy => Hbody y w2 (or_intror Hy)) w1 w' H) as [Hi Hall].
    split; [eapply Htrans; eauto |].
    intros y [<- | Hy].
    + exists w, w1. repeat split; auto.
    + destruct (Hall y Hy) as (w2 & w3 & H1 & H2 & H3).
      exists w2, w3. repeat split; auto. eapply Htrans; eauto.
Qed.

Lemma grows_compose {tar w w2 w3 w' mid p} :
  archive_grows tar w w2 ->
  tar_entries tar w3 = tar_entries tar w2 ++ mid ->
  In p (map te_name mid) ->
  archive_grows tar w3 w' ->
  exists added,
    tar_entries tar w' = tar_entries tar w ++ added /\ In p (map te_name added).
Proof.
  intros [_ (a1 & E1)] E2 Hp [_ (a3 & E3)].
  exists (a1 ++ mid ++ a3). split.
  - now rewrite E3, E2, E1, <- !app_assoc.
  - rewrite !map_app. apply in_or_app. right. apply in_or_app. now left.
Qed.

Lemma one_page_same_remote w w' folder_id :
  same_remote w w' -> one_page w folder_id -> one_page w' folder_id.
Proof. unfold one_page. intros (Hd & Hp & _). now rewrite Hd, Hp. Qed.

Lemma reaches_inv {d a b c e} :
  reaches d a b c e ->
  (c = a /\ e = b) \/
  exists sub,
    child_of d a sub /\ item_mimeType sub = FOLDER_MIME /\
    reaches d (item_id sub) (os_path_join b (item_name sub)) c e.
Proof.
  intros H. destruct H as [| ? ? sub ? ? Hc Hm Hr]; [now left |].
  right. exists sub. split; [exact Hc | split; [exact Hm | exact Hr]].
Qed.

(** Completeness, one page deep: when the walk returns and every folder
    it reaches lists its children in one page, every file under the
    folder is in the archive. *)
Lemma walker_complete depth : forall tar folder_id current_path w v w',
  add_files_to_archive depth tar folder_id current_path w = (Return v, w') ->
  (forall f' p', reaches (drive w) folder_id current_path f' p' -> one_page w f') ->
  forall p, file_under (drive w) folder_id current_path p ->
  exists added,
    tar_entries tar w' = tar_entries tar w ++ added /\ In p (map te_name added).
Proof.
  induction depth as [| depth IH]; intros tar folder_id current_path w v w' Hrun Hone p Hp;
    [discriminate |].
  rewrite walker_step in Hrun. cbv zeta in Hrun.
  destruct (mem folder_id (fail_list w)); [discriminate |].
  set (w0 := log_call _ w) in Hrun. set (body := fun item : item => _) in Hrun.
  destruct (for_each (first_page_children w folder_id) body w0)
    as [[[] | e] w1] eqn:Eloop; [| discriminate].
  injection Hrun as _ <-.
  assert (Hbody : forall x w2, In x (first_page_children w folder_id) ->
                               archive_grows tar w2 (snd (body x w2))).
  { intros x w2 _. unfold body.
    destruct (String.eqb (item_mimeType x) FOLDER_MIME).
    - rewrite bind_unfold.
      pose proof (walker_sound depth tar (item_id x)
                    (os_path_join current_path (item_name x)) w2) as H.
      apply adds_files_under_grows in H.
      now destruct (add_files_to_archive depth tar (item_id x) _ w2) as [[? | ?] ?].
    - destruct (file_step_entries tar (os_path_join current_path (item_name x)) x w2)
        as [Hr He].
      cbv zeta in Hr, He. split; [exact Hr |].
      destruct (fst _) in He.
      + destruct He as (e & _ & He). now exists [e].
      + exists []. now rewrite app_nil_r. }
  destruct (for_each_returns (archive_grows tar) _ body
              (archive_grows_refl tar) (archive_grows_trans tar) Hbody w0 w1 Eloop)
    as [_ Hall].
  assert (H0 : archive_grows tar w w0).
  { split; [repeat split | exists []; now rewrite app_nil_r]. }
  destruct Hp as (f' & p' & f & Hr & Hcf & Hmf & ->).
  destruct (reaches_inv Hr) as [[-> ->] | (sub & Hcs & Hms & Hr')].
  - (* a file of this folder *)
    assert (Hin : In f (first_page_children w folder_id)).
    { apply child_first_page; [apply (Hone _ _ Hr) | exact Hcf]. }
    destruct (Hall f Hin) as (w2 & w3 & H2 & Hb & H3).
    unfold body in Hb.
    destruct (String.eqb (item_mimeType f) FOLDER_MIME) eqn:Em;
      [apply String.eqb_eq in Em; contradiction |].
    destruct (file_step_entries tar (os_path_join current_path (item_name f)) f w2)
      as [_ He].
    cbv zeta in He. rewrite Hb in He. simpl in He.
    destruct He as (e & Hn & He).
    apply (grows_compose (mid := [e]) (p := os_path_join current_path (item_name f))
             (archive_grows_trans _ _ _ _ H0 H2) He); [| exact H3].
    simpl. now left.
  - (* a file below a sub-folder *)
    assert (Hin : In sub (first_page_children w folder_id)).
    { apply child_first_page; [apply (Hone _ _ (reaches_here _ _ _)) | exact Hcs]. }
    destruct (Hall sub Hin) as (w2 & w3 & H2 & Hb & H3).
    unfold body in Hb. rewrite Hms, String.eqb_refl, bind_unfold in Hb.
    destruct (add_files_to_archive depth tar (item_id sub)
                (os_path_join current_path (item_name sub)) w2)
      as [[v2 | e2] w4] eqn:Esub; [| discriminate].
    injection Hb as ->.
    assert (Hrem : same_remote w w2).
    { eapply same_remote_trans; [apply H0 | apply H2]. }
    assert (Hd : drive w2 = drive w) by apply Hrem.
    destruct (IH tar (item_id sub) (os_path_join current_path (item_name sub))
                w2 v2 w3 Esub) with (p := os_path_join p' (item_name f))
      as (mid & Emid & Hmid).
    + intros g q Hg. apply (one_page_same_remote _ _ _ Hrem).
      apply (Hone g q). rewrite Hd in Hg. eapply reaches_down; eauto.
    + rewrite Hd. exists f', p', f. repeat split; auto; apply Hcf.
    + apply (grows_compose (archive_grows_trans _ _ _ _ H0 H2) Emid Hmid H3).
Qed.

(** On folders that list their children in one page, a walk that
    returns archives exactly the files under the folder. *)
Lemma walker_exact_within_one_page :
  forall depth tar folder_id current_path w v w',
    add_files_to_archive depth tar folder_id current_path w = (Return v, w') ->
    (forall f' p', reaches (drive w) folder_id current_path f' p' -> one_page w f') ->
    exists added,
      tar_entries tar w' = tar_entries tar w ++ added /\
      forall p, file_under (drive w) folder_id current_path p
                <-> In p (map te_name added).
Proof.
  intros depth tar folder_id current_path w v w' Hrun Hone.
  pose proof (walker_sound depth tar folder_id current_path w) as [_ (added & E & F)].
  rewrite Hrun in E. simpl in E.
  exists added. split; [exact E |]. intros p. split.
  - intros Hp.
    destruct (walker_complete depth tar folder_id current_path w v w' Hrun Hone p Hp)
      as (added' & E' & Hin).
    rewrite E in E'. apply app_inv_head in E'. now subst.
  - intros Hin. apply in_map_iff in Hin as (e & <- & He).
    rewrite Forall_forall in F. now apply F.
Qed.

(** In the sample world every listing fits in one page, and the archive
    of [F1] holds exactly the files reachable from it. *)
Example sample_archive_is_complete :
  archive_is_complete sample_world "F1"
    (tar_entries archive_file_path
       (snd (add_files_to_archive 10 archive_file_path "F1" ""
               (snd (tarfile_open archive_file_path sample_world))))).
Proof.
  set (w0 := snd (tarfile_open archive_file_path sample_world)).
  assert (Hrun : add_files_to_archive 10 archive_file_path "F1" "" w0
                 = (Return PyNone,
                    snd (add_files_to_archive 10 archive_file_path "F1" "" w0)))
    by (vm_compute; reflexivity).
  assert (Hone : forall f' p', reaches (drive w0) "F1" "" f' p' -> one_page w0 f').
  { intros f' p' _. unfold one_page.
    eapply Nat.le_trans; [apply filter_length_le | vm_compute; lia]. }
  destruct (walker_exact_within_one_page 10 archive_file_path "F1" "" w0 PyNone _
              Hrun Hone) as (added & E & Hiff).
  change (tar_entries archive_file_path w0) with (@nil tar_entry) in E.
  cbn [app] in E. rewrite E. exact Hiff.
Qed.

(** ** C1: the listing is read one page deep *)

Lemma mem_false_not_In s l : mem s l = false -> ~ In s l.
Proof.
  unfold mem. intros H Hin.
  assert (existsb (String.eqb s) l = true) as Ht; [| congruence].
  apply existsb_exists. exists s. split; [exact Hin | apply String.eqb_refl].
Qed.

(** C1, at a folder of 101 files with 100 files per page: the answer to
    the one listing request carries the token of a second page, the
    walker returns, and the archive holds 100 members; [f100.txt] is
    reachable and is not among them. *)
Theorem C1_second_page_is_not_archived :
  let q := mk_query "F" (Some false) None None in
  let w0 := snd (tarfile_open archive_file_path crowded_world) in
  let r := add_files_to_archive 10 archive_file_path "F" "" w0 in
  let archive := tar_entries archive_file_path (snd r) in
  (exists pg, fst (files_list q None None w0) = Return pg /\
              nextPageToken pg = Some 100) /\
  fst r = Return PyNone /\
  calls (snd r) = ApiList q :: map (fun i => ApiGetMedia (item_id (numbered_file i)))
                                   (seq 0 100) /\
  length archive = 100 /\
  reachable_file crowded_world "F" "f100.txt" /\
  ~ In "f100.txt" (map te_name archive) /\
  ~ archive_is_complete crowded_world "F" archive.
Proof.
  cbv zeta.
  assert (Hreach : reachable_file crowded_world "F" "f100.txt").
  { exists "F", "", (numbered_file 100). split; [constructor |].
    split; [| split; [discriminate | reflexivity]].
    split; [| split; reflexivity].
    change (In (numbered_file 100) (map numbered_file (seq 0 101))).
    apply in_map, in_seq. lia. }
  assert (Hnot : ~ In "f100.txt"
                   (map te_name
                      (tar_entries archive_file_path
                         (snd (add_files_to_archive 10 archive_file_path "F" ""
                                 (snd (tarfile_open archive_file_path crowded_world))))))).
  { apply mem_false_not_In. vm_compute. reflexivity. }
  split; [eexists; split; vm_compute; reflexivity |].
  split; [vm_compute; reflexivity |].
  split; [vm_compute; reflexivity |].
  split; [vm_compute; reflexivity |].
  split; [exact Hreach |].
  split; [exact Hnot |].
  intros Hc. exact (Hnot (proj1 (Hc "f100.txt") Hreach)).
Qed.

(** ** The stages of [backup_folder] *)

Lemma backup_folder_stages targz srcs dest name w :
  backup_folder targz srcs dest name w =
    match archive_stage srcs w with
    | (Raise e, w1) => (Raise e, w1)
    | (Return _, w1) =>
        match MediaFileUpload targz archive_file_path "application/gzip" w1 with
        | (Raise e, w2) => (Raise e, w2)
        | (Return media, w2) =>
            match files_create (backup_file_name (clock w) name) dest media w2 with
            | (Raise e, w3) => (Raise e, w3)
            | (Return _, w3) =>
                match os_remove archive_file_path w3 with
                | (Raise e, w4) => (Raise e, w4)
                | (Return _, w4) => (Return PyNone, w4)
                end
            end
        end
    end.
Proof.
  unfold backup_folder, archive_stage. rewrite bind_unfold. unfold get_world.
  rewrite bind_unfold.
  destruct (with_tarfile _ _ w) as [[[] | e] w1]; [| reflexivity].
  rewrite bind_unfold.
  destruct (MediaFileUpload targz archive_file_path "application/gzip" w1)
    as [[media | e] w2]; [| reflexivity].
  rewrite bind_unfold.
  destruct (files_create _ _ _ w2) as [[i | e] w3]; [| reflexivity].
  rewrite bind_unfold.
  now destruct (os_remove archive_file_path w3) as [[[] | e] w4].
Qed.

Lemma archive_stage_same_remote srcs w :
  same_remote w (snd (archive_stage srcs w)).
Proof.
  unfold archive_stage, with_tarfile, tarfile_open.
  set (w0 := set_local_fs _ w).
  set (body := for_each srcs _).
  assert (Hb : preserves same_remote body).
  { apply preserves_for_each;
      [apply same_remote_refl | apply same_remote_trans |].
    intros src _. apply preserves_bind; [apply same_remote_trans | |].
    - intro w'. apply walker_preserves_frame.
    - intros; apply same_remote_refl. }
  pose proof (Hb w0) as H.
  assert (Hc : forall st w', same_remote w' (tar_close archive_file_path st w')).
  { intros st w'. unfold tar_close.
    destruct (fs_lookup archive_file_path (local_fs w')); repeat split. }
  destruct (body w0) as [[[] | e] w1]; simpl in *;
    (eapply same_remote_trans; [| apply Hc]);
    (eapply same_remote_trans; [| exact H]); repeat split.
Qed.

Lemma string_length_append s t :
  String.length (s ++ t) = String.length s + String.length t.
Proof. induction s as [| c s IH]; simpl; [reflexivity | now rewrite IH]. Qed.

Lemma fresh_id_longer d f :
  In f d -> String.length (item_id f) < String.length (fresh_id d).
Proof.
  induction d as [| g d IH]; simpl; [contradiction |].
  rewrite string_length_append. intros [-> | H].
  - assert (0 < String.length (fresh_id d)); [| lia].
    clear. induction d as [| g d IH]; simpl; [lia |].
    rewrite string_length_append. lia.
  - specialize (IH H). lia.
Qed.

Lemma fresh_id_is_fresh d : ~ In (fresh_id d) (map item_id d).
Proof.
  intros H. apply in_map_iff in H as (f & E & Hf).
  apply fresh_id_longer in Hf. rewrite E in Hf. lia.
Qed.

(** What a run of [backup_folder] that returns has done to the store: one
    file more, of type gzip, under a new id. *)
Lemma backup_folder_uploads targz srcs dest name w v wb :
  backup_folder targz srcs dest name w = (Return v, wb) ->
  exists media,
    drive wb = drive w ++ [mk_item (fresh_id (drive w)) (backup_file_name (clock w) name)
                                   "application/gzip" [dest] false (server_time wb)
                                   [media]] /\
    page_size wb = page_size w /\
    fs_lookup archive_file_path (local_fs wb) = None.
Proof.
  rewrite backup_folder_stages.
  pose proof (archive_stage_same_remote srcs w) as (Hd & Hp & _).
  destruct (archive_stage srcs w) as [[[] | e] w1]; [| discriminate].
  simpl in Hd, Hp.
  unfold MediaFileUpload.
  destruct (fs_lookup archive_file_path (local_fs w1)) as [tf |] eqn:El;
    [| discriminate].
  unfold files_create. destruct (fail_create w1); [discriminate |].
  unfold os_remove. cbn [local_fs set_drive log_call].
  rewrite El. intros H. injection H as _ <-.
  exists (targz (tf_entries tf)). cbn.
  rewrite Hd, Hp. repeat split. apply fs_lookup_remove.
Qed.

(** ** C5: the result of [main] *)

Lemma main_stages targz cfg w :
  main targz cfg w =
    match backup_folder targz (source_folder_ids cfg) (dest_folder_id cfg)
                        (backup_name cfg) w with
    | (Raise e, wb) => (Raise e, wb)
    | (Return _, wb) =>
        match delete_old_backups (dest_folder_id cfg) (versions_to_keep cfg)
                                 (backup_name cfg) wb with
        | (Raise e, wp) => (Raise e, wp)
        | (Return _, wp) => (Return (PyStr "Backup completed successfully!"), wp)
        end
    end.
Proof.
  unfold main. rewrite bind_unfold.
  destruct (backup_folder _ _ _ _ w) as [[v | e] wb]; [| reflexivity].
  rewrite bind_unfold.
  now destruct (delete_old_backups _ _ _ wb) as [[v' | e] wp].
Qed.

(** C5, amended. When archive creation and upload complete without
    error, the run returns success exactly when the retention step that
    follows completes too: an error of the retention listing or of a
    deletion is raised by [main], which ends there, in the world the
    retention step left. *)
Theorem C5_retention_error_fails_the_run :
  forall targz cfg w v wb,
    backup_folder targz (source_folder_ids cfg) (dest_folder_id cfg)
                  (backup_name cfg) w = (Return v, wb) ->
    let p := delete_old_backups (dest_folder_id cfg) (versions_to_keep cfg)
                                (backup_name cfg) wb in
    snd (main targz cfg w) = snd p /\
    (forall e, fst p = Raise e -> fst (main targz cfg w) = Raise e) /\
    (forall v', fst p = Return v' ->
                fst (main targz cfg w) = Return (PyStr "Backup completed successfully!")) /\
    ((exists m, fst (main targz cfg w) = Return m) <-> (exists v', fst p = Return v')).
Proof.
  intros targz cfg w v wb Hb p. rewrite main_stages, Hb. fold p.
  destruct p as [[v' | e] wp]; simpl; repeat split; try congruence; eauto.
Qed.

(** The theorem at the world where the service refuses to delete [z3]:
    the archive is uploaded and the run ends with the error. *)
Lemma C5_retention_error_fails_the_run_witness :
  fst (backup_folder (fun _ => []) ["F1"] "D" "nightly" refusing_world) = Return PyNone /\
  fst (main (fun _ => []) sample_config refusing_world)
    = Raise (HttpError (ApiDelete "z3")).
Proof.
  split; [vm_compute; reflexivity |].
  refine (proj1 (proj2 (C5_retention_error_fails_the_run (fun _ => []) sample_config
                          refusing_world PyNone
                          (snd (backup_folder (fun _ => []) ["F1"] "D" "nightly"
                                              refusing_world))
                          _)) _ _); vm_compute; reflexivity.
Defined.

(** C5, as stated, fails: the archive is built and uploaded, the service
    refuses a deletion, and the run ends with that error. *)
Lemma C5_counterexample :
  fst (main (fun _ => []) sample_config refusing_world)
    = Raise (HttpError (ApiDelete "z3")) /\
  ~ retention_failure_is_tolerated (fun _ => []) sample_config refusing_world.
Proof.
  assert (Hm : fst (main (fun _ => []) sample_config refusing_world)
               = Raise (HttpError (ApiDelete "z3"))) by (vm_compute; reflexivity).
  split; [exact Hm |].
  intros H. destruct H as (v & Hv); [exists PyNone; vm_compute; reflexivity |].
  rewrite Hm in Hv. discriminate Hv.
Qed.

(** ** C6: the staging file *)

(** When the upload succeeds the staging file is removed. *)
Lemma staging_removed_on_success targz srcs dest name w v wb :
  backup_folder targz srcs dest name w = (Return v, wb) ->
  fs_lookup archive_file_path (local_fs wb) = None.
Proof.
  intros H. now apply backup_folder_uploads in H as (media & _ & _ & H).
Qed.

(** The archive stage leaves the archive on the disk, closed. *)
Lemma archive_stage_leaves_file srcs w w1 :
  archive_stage srcs w = (Return tt, w1) ->
  fs_lookup archive_file_path (local_fs w1)
  = Some (mk_tar (tar_entries archive_file_path w1) Finalized).
Proof.
  unfold archive_stage, with_tarfile, tarfile_open.
  set (w0 := set_local_fs _ w).
  set (body := for_each srcs _).
  assert (Hb : preserves (walker_frame archive_file_path) body).
  { apply preserves_for_each;
      [apply walker_frame_refl | apply walker_frame_trans |].
    intros src _. apply preserves_bind; [apply walker_frame_trans | |].
    - apply walker_preserves_frame.
    - intros; apply walker_frame_refl. }
  destruct (Hb w0) as [_ Ho].
  assert (H0 : tar_is_open archive_file_path w0).
  { exists []. unfold w0. rewrite local_fs_set. apply fs_lookup_write. }
  destruct (Ho H0) as (entries & He).
  destruct (body w0) as [[[] | e] w2]; [| discriminate].
  intros H. injection H as <-. simpl in He.
  unfold tar_close, tar_entries. rewrite He.
  now rewrite local_fs_set, fs_lookup_write.
Qed.

(** When the upload fails the staging file is left on the disk. *)
Lemma staging_left_on_upload_error targz srcs dest name w w1 :
  archive_stage srcs w = (Return tt, w1) ->
  fail_create w1 = true ->
  let r := backup_folder targz srcs dest name w in
  fst r = Raise (HttpError (ApiCreate (backup_file_name (clock w) name) dest)) /\
  fs_lookup archive_file_path (local_fs (snd r))
    = Some (mk_tar (tar_entries archive_file_path w1) Finalized).
Proof.
  intros Ha Hf. cbv zeta. rewrite backup_folder_stages, Ha.
  pose proof (archive_stage_leaves_file srcs w w1 Ha) as Hl.
  unfold MediaFileUpload. rewrite Hl.
  unfold files_create. rewrite Hf. simpl. split; [reflexivity | exact Hl].
Qed.

(** C6, at a run whose upload the service refuses: the archive stage
    completes, [backup_folder] ends with the error of the upload, and the
    staging file is still on the disk, with its two members. *)
Theorem C6_staging_file_survives_a_failed_upload :
  forall targz,
    let r := backup_folder targz ["F1"] "D" "nightly" failing_upload_world in
    fst (archive_stage ["F1"] failing_upload_world) = Return tt /\
    fst r = Raise (HttpError (ApiCreate "2024-03-07_09-05-59-123_nightly.tar.gz" "D")) /\
    (exists tf, fs_lookup archive_file_path (local_fs (snd r)) = Some tf /\
                map te_name (tf_entries tf) = ["a.txt"; "sub/b.txt"]) /\
    ~ staging_is_released targz sample_config failing_upload_world.
Proof.
  intros targz. cbv zeta.
  assert (Ha : fst (archive_stage ["F1"] failing_upload_world) = Return tt)
    by (vm_compute; reflexivity).
  split; [exact Ha |].
  split; [vm_compute; reflexivity |].
  split; [eexists; split; vm_compute; reflexivity |].
  unfold staging_is_released. intros H.
  specialize (H Ha). vm_compute in H. discriminate H.
Qed.

(** ** C10: the archives of the program and its retention step *)

Lemma retention_listing_zip w dest label :
  Forall (fun f => item_mimeType f = "application/zip")
         (retention_listing w dest label).
Proof.
  apply Forall_forall. intros f Hf.
  apply retention_listing_incl in Hf as [_ Hm].
  unfold matches in Hm. cbn [q_mimeType] in Hm.
  apply andb_true_iff in Hm as [Hm _]. apply andb_true_iff in Hm as [_ Hm].
  now apply String.eqb_eq in Hm.
Qed.

(** Whatever [versions_to_keep] is, and whether the listing succeeds or
    not, deletions are requested for listed files only, and a file for
    which none is requested stays in the store. *)
Lemma prune_touches_only_listed dest N label w :
  let r := delete_old_backups dest N label w in
  (forall i, In i (deletions_since w (snd r)) ->
             exists f, In f (retention_listing w dest label) /\ item_id f = i) /\
  (forall x, In x (drive w) -> ~ In (item_id x) (deletions_since w (snd r)) ->
             In x (drive (snd r))).
Proof.
  cbv zeta. unfold delete_old_backups. rewrite bind_unfold.
  set (q := mk_query dest None (Some "application/zip") (Some label)).
  destruct (mem dest (fail_list w)) eqn:Ef.
  - unfold files_list. cbn [q_parent q]. rewrite Ef. simpl.
    assert (E : deletions_since w (log_call (ApiList q) w) = []).
    { apply deletions_since_app. simpl. rewrite deletions_app. reflexivity. }
    rewrite E. split; [contradiction | auto].
  - destruct (files_list_retention w dest label Ef) as (tok & E).
    fold q in E. rewrite E. cbn [files].
    set (w0 := log_call (ApiList q) w).
    assert (E0 : deletions (calls w0) = deletions (calls w)).
    { unfold w0. simpl. rewrite deletions_app. simpl. apply app_nil_r. }
    destruct (Z.of_nat (length (retention_listing w dest label)) >? N)%Z.
    + rewrite bind_unfold.
      set (sel := list_slice_from (retention_listing w dest label) N).
      destruct (delete_loop sel w0) as (att & rest & Hm & Hdel & _ & Hdr & _).
      assert (Hs : snd (match for_each sel (fun file => files_delete (item_id file)) w0 with
                        | (Return a, w') => ret PyNone w'
                        | (Raise e, w') => (Raise e, w')
                        end)
                   = snd (for_each sel (fun file => files_delete (item_id file)) w0)).
      { now destruct (for_each sel _ w0) as [[[] | e] w1]. }
      rewrite Hs.
      assert (Hatt : deletions_since w
                       (snd (for_each sel (fun file => files_delete (item_id file)) w0))
                     = att).
      { apply deletions_since_app. now rewrite Hdel, E0. }
      rewrite Hatt. split.
      * intros i Hi.
        assert (Hin : In i (map item_id sel)).
        { rewrite Hm. apply in_or_app. now left. }
        apply in_map_iff in Hin as (f & Ei & Hf).
        exists f. split; [| exact Ei].
        unfold sel, list_slice_from in Hf. now apply skipn_In in Hf.
      * intros x Hx Hn. apply Hdr; assumption.
    + simpl. fold w0.
      assert (Hatt : deletions_since w w0 = []).
      { apply deletions_since_app. now rewrite E0, app_nil_r. }
      rewrite Hatt. split; [contradiction | auto].
Qed.

Lemma same_id_same_item (d : list item) f u :
  NoDup (map item_id d) -> In f d -> In u d -> item_id f = item_id u -> f = u.
Proof.
  induction d as [| g d IH]; intros Hnd Hf Hu Eid; [contradiction |].
  simpl in Hnd. inversion Hnd as [| ? ? Hg Hd']; subst.
  destruct Hf as [-> | Hf], Hu as [Hu | Hu]; subst; auto.
  - exfalso. apply Hg. rewrite Eid. now apply in_map.
  - exfalso. apply Hg. rewrite <- Eid. now apply in_map.
Qed.

(** A file that is not of type zip is out of reach of the retention step. *)
Lemma other_types_survive_pruning dest N label w u :
  NoDup (map item_id (drive w)) ->
  In u (drive w) ->
  item_mimeType u <> "application/zip" ->
  let p := delete_old_backups dest N label w in
  ~ In u (retention_listing w dest label) /\
  ~ In (item_id u) (deletions_since w (snd p)) /\
  In u (drive (snd p)).
Proof.
  intros Hnd Hin Hm p.
  assert (Hnot : ~ In u (retention_listing w dest label)).
  { intros Hl. apply Hm.
    pose proof (retention_listing_zip w dest label) as Hz.
    rewrite Forall_forall in Hz. now apply Hz. }
  destruct (prune_touches_only_listed dest N label w) as [Honly Hstay].
  fold p in Honly, Hstay.
  assert (Hnatt : ~ In (item_id u) (deletions_since w (snd p))).
  { intros Hi. destruct (Honly _ Hi) as (f & Hf & Eid).
    assert (f = u) as ->; [| contradiction].
    apply (same_id_same_item (drive w)); auto.
    now apply retention_listing_incl in Hf. }
  split; [exact Hnot |]. split; [exact Hnatt |]. now apply Hstay.
Qed.

(** C10. The files [delete_old_backups] considers are all of type
    [application/zip]; the archive a run of [backup_folder] uploads is of
    type [application/gzip]; so, in the run that uploaded it and in every
    later state of the store that holds it, it is not among the files
    considered, no deletion is requested for it and it is still in the
    store after the retention step, whatever [versions_to_keep] is. The
    label of the retention step is a [plain_literal], so that the query
    of line 78 is the one written. *)
Theorem C10_own_archive_is_never_pruned :
  forall targz srcs dest label w v wb,
    NoDup (map item_id (drive w)) ->
    backup_folder targz srcs dest label w = (Return v, wb) ->
    (forall w' dest' label',
        plain_literal label' = true ->
        Forall (fun f => item_mimeType f = "application/zip")
               (retention_listing w' dest' label')) /\
    exists u,
      drive wb = drive w ++ [u] /\
      item_name u = backup_file_name (clock w) label /\
      item_parents u = [dest] /\
      item_mimeType u = "application/gzip" /\
      NoDup (map item_id (drive wb)) /\
      forall w2 dest' N label',
        plain_literal label' = true ->
        NoDup (map item_id (drive w2)) ->
        In u (drive w2) ->
        let p := delete_old_backups dest' N label' w2 in
        ~ In u (retention_listing w2 dest' label') /\
        ~ In (item_id u) (deletions_since w2 (snd p)) /\
        In u (drive (snd p)).
Proof.
  intros targz srcs dest label w v wb Hnd Hb.
  split; [intros; apply retention_listing_zip |].
  apply backup_folder_uploads in Hb as (media & Hd & _ & _).
  set (u := mk_item _ _ _ _ _ _ _) in Hd.
  assert (Hnd' : NoDup (map item_id (drive wb))).
  { rewrite Hd, map_app. apply NoDup_app; [exact Hnd | repeat constructor; auto |].
    intros a Ha [<- | []]. revert Ha. apply fresh_id_is_fresh. }
  exists u. repeat split; auto.
  - now apply other_types_survive_pruning.
  - now apply other_types_survive_pruning.
  - now apply other_types_survive_pruning.
Qed.

(** The theorem at the sample world, with the retention step of the
    same run. *)
Lemma C10_own_archive_is_never_pruned_witness :
  NoDup (map item_id (drive sample_world)) /\
  plain_literal "nightly" = true /\
  exists u,
    item_name u = "2024-03-07_09-05-59-123_nightly.tar.gz" /\
    item_mimeType u = "application/gzip" /\
    In u (drive (snd (delete_old_backups "D" 0 "nightly"
                        (snd (backup_folder (fun _ => []) ["F1"] "D" "nightly"
                                            sample_world))))).
Proof.
  assert (H2 : NoDup (map item_id (drive sample_world))).
  { simpl. repeat (constructor; [simpl; intuition discriminate |]). constructor. }
  split; [exact H2 |]. split; [reflexivity |].
  assert (Hb : backup_folder (fun _ => []) ["F1"] "D" "nightly" sample_world
               = (Return PyNone,
                  snd (backup_folder (fun _ => []) ["F1"] "D" "nightly" sample_world)))
    by (vm_compute; reflexivity).
  destruct (C10_own_archive_is_never_pruned (fun _ => []) ["F1"] "D" "nightly"
              sample_world PyNone _ H2 Hb)
    as (_ & u & Hd & Hn & _ & Hm & Hnd & Hlater).
  exists u. split; [rewrite Hn; vm_compute; reflexivity |].
  split; [exact Hm |].
  apply Hlater; [reflexivity | exact Hnd |].
  rewrite Hd. apply in_or_app. right. now left.
Defined.

(** ** C7: the name of the archive *)

Lemma string_app_assoc (a b c : string) : ((a ++ b) ++ c = a ++ (b ++ c))%string.
Proof. induction a as [| x a IH]; simpl; [reflexivity | now rewrite IH]. Qed.

Lemma string_app_nil_r (a : string) : (a ++ "")%string = a.
Proof. induction a as [| x a IH]; simpl; [reflexivity | now rewrite IH]. Qed.

Lemma substring_prefix (a b : string) :
  substring 0 (String.length a) (a ++ b) = a.
Proof.
  induction a as [| x a IH]; simpl.
  - now destruct b.
  - now rewrite IH.
Qed.

Lemma str_slice_to_drop3 (a b : string) :
  String.length b = 3 -> str_slice_to (a ++ b) (-3) = a.
Proof.
  intros Hb. unfold str_slice_to. rewrite string_length_append, Hb.
  cbn [Z.ltb Z.compare].
  replace (Z.to_nat (Z.max 0 (Z.of_nat (String.length a + 3) + -3)))
    with (String.length a) by lia.
  apply substring_prefix.
Qed.

Lemma decimal_fuel_indep f : forall f' n,
  (0 <= n)%Z -> (n < Z.of_nat f)%Z -> (n < Z.of_nat f')%Z ->
  decimal_fuel f n = decimal_fuel f' n.
Proof.
  induction f as [| f IH]; intros f' n H0 Hf Hf'; [lia |].
  destruct f' as [| f']; [lia |]. simpl.
  destruct (n <? 10)%Z eqn:E; [reflexivity |].
  apply Z.ltb_ge in E.
  rewrite (IH f' (n / 10)%Z); [reflexivity | | |];
    try (apply Z.div_pos; lia);
    assert (n / 10 <= n - 9)%Z by (apply Z.div_le_upper_bound; lia); lia.
Qed.

Lemma decimal_eq n :
  (0 <= n)%Z ->
  decimal n = if (n <? 10)%Z then String (digit_char n) ""
              else (decimal (n / 10) ++ String (digit_char (n mod 10)) "")%string.
Proof.
  intros H0. unfold decimal at 1. simpl.
  destruct (n <? 10)%Z eqn:E; [reflexivity |].
  apply Z.ltb_ge in E. unfold decimal.
  rewrite (decimal_fuel_indep (Z.to_nat n) (S (Z.to_nat (n / 10))) (n / 10)%Z);
    [reflexivity | | |];
    try (apply Z.div_pos; lia);
    assert (n / 10 <= n - 9)%Z by (apply Z.div_le_upper_bound; lia); lia.
Qed.

Lemma zeros_snoc k : (zeros k ++ "0")%string = String "0" (zeros k).
Proof. induction k as [| k IH]; simpl; [reflexivity | now rewrite IH]. Qed.

Lemma fixed_digits_zero w : fixed_digits w 0 = zeros w.
Proof.
  induction w as [| w IH]; simpl; [reflexivity |].
  change (0 / 10)%Z with 0%Z. rewrite IH. apply zeros_snoc.
Qed.

Lemma fixed_digits_length w : forall n, String.length (fixed_digits w n) = w.
Proof.
  induction w as [| w IH]; intros n; simpl; [reflexivity |].
  rewrite string_length_append, IH. simpl. lia.
Qed.

(** Padded to [S w] characters, a number below [10 ^ S w] shows its last
    [S w] digits. *)
Lemma zfill_decimal w : forall n,
  (0 <= n < 10 ^ Z.of_nat (S w))%Z ->
  String.length (decimal n) <= S w /\
  zfill (S w) (decimal n) = fixed_digits (S w) n.
Proof.
  induction w as [| w IH]; intros n Hn.
  - rewrite decimal_eq by lia. change (10 ^ Z.of_nat 1)%Z with 10%Z in Hn.
    destruct (n <? 10)%Z eqn:E; [| apply Z.ltb_ge in E; lia].
    simpl. split; [lia |]. unfold zfill; simpl.
    now rewrite Z.mod_small by lia.
  - rewrite decimal_eq by lia.
    destruct (n <? 10)%Z eqn:E.
    + apply Z.ltb_lt in E. split; [simpl; lia |].
      unfold zfill. cbn [String.length Nat.sub].
      change (fixed_digits (S (S w)) n)
        with (fixed_digits (S w) (n / 10) ++ String (digit_char (n mod 10)) "")%string.
      rewrite Z.div_small, Z.mod_small by lia.
      now rewrite fixed_digits_zero.
    + apply Z.ltb_ge in E.
      assert (Hq : (0 <= n / 10 < 10 ^ Z.of_nat (S w))%Z).
      { split; [apply Z.div_pos; lia |].
        apply Z.div_lt_upper_bound; [lia |].
        replace (Z.of_nat (S (S w))) with (Z.succ (Z.of_nat (S w))) in Hn by lia.
        rewrite Z.pow_succ_r in Hn by lia. lia. }
      destruct (IH _ Hq) as [Hl Hz].
      rewrite string_length_append. split; [simpl; lia |].
      change (fixed_digits (S (S w)) n)
        with (fixed_digits (S w) (n / 10) ++ String (digit_char (n mod 10)) "")%string.
      rewrite <- Hz. unfold zfill. rewrite string_length_append.
      cbn [String.length].
      replace (S (S w) - (String.length (decimal (n / 10)) + 1))
        with (S w - String.length (decimal (n / 10))) by lia.
      now rewrite string_app_assoc.
Qed.

(** A year of four digits is printed as it is. *)
Lemma decimal_four_digits n :
  (1000 <= n <= 9999)%Z -> decimal n = fixed_digits 4 n.
Proof.
  intros Hn.
  assert (H1 : (100 <= n / 10 <= 999)%Z)
    by (Z.to_euclidean_division_equations; lia).
  assert (H2 : (10 <= n / 10 / 10 <= 99)%Z)
    by (Z.to_euclidean_division_equations; lia).
  assert (H3 : (1 <= n / 10 / 10 / 10 <= 9)%Z)
    by (Z.to_euclidean_division_equations; lia).
  rewrite (decimal_eq n) by lia.
  destruct (n <? 10)%Z eqn:E0; [apply Z.ltb_lt in E0; lia |].
  rewrite (decimal_eq (n / 10)) by lia.
  destruct (n / 10 <? 10)%Z eqn:E1; [apply Z.ltb_lt in E1; lia |].
  rewrite (decimal_eq (n / 10 / 10)) by lia.
  destruct (n / 10 / 10 <? 10)%Z eqn:E2; [apply Z.ltb_lt in E2; lia |].
  rewrite (decimal_eq (n / 10 / 10 / 10)) by lia.
  destruct (n / 10 / 10 / 10 <? 10)%Z eqn:E3; [| apply Z.ltb_ge in E3; lia].
  simpl. now rewrite (Z.mod_small (n / 10 / 10 / 10)) by lia.
Qed.

Lemma digit_value_digit_char d :
  (0 <= d <= 9)%Z -> digit_value (digit_char d) = Some d.
Proof.
  intros H.
  assert (d = 0 \/ d = 1 \/ d = 2 \/ d = 3 \/ d = 4 \/ d = 5 \/ d = 6 \/ d = 7
          \/ d = 8 \/ d = 9)%Z as Hd by lia.
  repeat (destruct Hd as [-> | Hd]; [reflexivity |]). now subst.
Qed.

Lemma mod10_digit n : (0 <= n mod 10 <= 9)%Z.
Proof. pose proof (Z.mod_pos_bound n 10). lia. Qed.

Lemma digits_value_snoc s : forall acc c,
  digits_value acc (s ++ String c "") =
    match digits_value acc s with
    | Some v =>
        match digit_value c with
        | Some d => Some (10 * v + d)%Z
        | None => None
        end
    | None => None
    end.
Proof.
  induction s as [| x s IH]; intros acc c; simpl.
  - now destruct (digit_value c).
  - destruct (digit_value x); [apply IH | reflexivity].
Qed.

Lemma digits_value_fixed w : forall n,
  digits_value 0 (fixed_digits w n) = Some (n mod 10 ^ Z.of_nat w)%Z.
Proof.
  induction w as [| w IH]; intros n.
  - simpl. now rewrite Z.mod_1_r.
  - cbn [fixed_digits]. rewrite digits_value_snoc, IH.
    rewrite digit_value_digit_char by apply mod10_digit.
    f_equal.
    replace (Z.of_nat (S w)) with (Z.succ (Z.of_nat w)) by lia.
    rewrite Z.pow_succ_r by lia.
    rewrite (Z.rem_mul_r n 10 (10 ^ Z.of_nat w)) by lia. lia.
Qed.

Lemma number_fixed w n :
  (0 <= n < 10 ^ Z.of_nat (S w))%Z -> number (fixed_digits (S w) n) = Some n.
Proof.
  intros Hn. unfold number.
  pose proof (fixed_digits_length (S w) n) as Hl.
  destruct (fixed_digits (S w) n) as [| c s] eqn:E; [discriminate Hl |].
  rewrite <- E, digits_value_fixed. now rewrite Z.mod_small.
Qed.

Lemma all_digits_snoc s c :
  all_digits (s ++ String c "") =
    all_digits s && match digit_value c with Some _ => true | None => false end.
Proof.
  induction s as [| x s IH]; simpl.
  - now destruct (digit_value c).
  - destruct (digit_value x); [exact IH | reflexivity].
Qed.

Lemma fixed_is_digits w n : is_digits w (fixed_digits w n).
Proof.
  split; [apply fixed_digits_length |].
  revert n. induction w as [| w IH]; intros n; [reflexivity |].
  cbn [fixed_digits]. rewrite all_digits_snoc, IH.
  now rewrite digit_value_digit_char by apply mod10_digit.
Qed.

Lemma fixed_split3 w n :
  fixed_digits (S (S (S w))) n
  = (fixed_digits w (n / 1000) ++ fixed_digits 3 n)%string.
Proof.
  cbn [fixed_digits].
  replace (n / 10 / 10 / 10)%Z with (n / 1000)%Z
    by (Z.to_euclidean_division_equations; lia).
  now rewrite !string_app_assoc.
Qed.

Lemma split_at_app a b : split_at (String.length a) (a ++ b) = Some (a, b).
Proof.
  induction a as [| x a IH]; simpl; [reflexivity | now rewrite IH].
Qed.

Lemma field_reads k sep ds v rest :
  String.length ds = k ->
  number ds = Some v ->
  field k sep (ds ++ String sep rest) = Some (v, rest).
Proof.
  intros <- Hv. unfold field.
  now rewrite split_at_app, Ascii.eqb_refl, Hv.
Qed.

Lemma strip_suffix_unfold suf s :
  strip_suffix suf s =
    if String.eqb s suf then Some EmptyString
    else match s with
         | EmptyString => None
         | String c s' =>
             match strip_suffix suf s' with
             | Some l => Some (String c l)
             | None => None
             end
         end.
Proof. now destruct s. Qed.

Lemma strip_suffix_app suf l : strip_suffix suf (l ++ suf) = Some l.
Proof.
  induction l as [| c l IH]; rewrite strip_suffix_unfold.
  - simpl. now rewrite String.eqb_refl.
  - destruct (String.eqb (String c l ++ suf) suf) eqn:E.
    + apply String.eqb_eq in E.
      apply (f_equal String.length) in E.
      rewrite string_length_append in E. simpl in E. lia.
    + cbn [append]. now rewrite IH.
Qed.

Lemma zfill2_decimal n :
  (0 <= n <= 99)%Z -> zfill 2 (decimal n) = fixed_digits 2 n.
Proof.
  intros H. apply (zfill_decimal 1).
  change (10 ^ Z.of_nat 2)%Z with 100%Z. lia.
Qed.

Lemma zfill6_decimal n :
  (0 <= n <= 999999)%Z -> zfill 6 (decimal n) = fixed_digits 6 n.
Proof.
  intros H. apply (zfill_decimal 5).
  change (10 ^ Z.of_nat 6)%Z with 1000000%Z. lia.
Qed.

Lemma number_fixed2 n : (0 <= n <= 99)%Z -> number (fixed_digits 2 n) = Some n.
Proof.
  intros H. apply number_fixed. change (10 ^ Z.of_nat 2)%Z with 100%Z. lia.
Qed.

Lemma number_fixed3 n : (0 <= n <= 999)%Z -> number (fixed_digits 3 n) = Some n.
Proof.
  intros H. apply number_fixed. change (10 ^ Z.of_nat 3)%Z with 1000%Z. lia.
Qed.

Lemma number_fixed4 n : (0 <= n <= 9999)%Z -> number (fixed_digits 4 n) = Some n.
Proof.
  intros H. apply number_fixed. change (10 ^ Z.of_nat 4)%Z with 10000%Z. lia.
Qed.

(** The name, field by field. *)
Lemma backup_file_name_fields T L :
  valid_datetime T ->
  (1000 <= year T)%Z ->
  backup_file_name T L =
    (fixed_digits 4 (year T) ++ "-" ++ fixed_digits 2 (month T) ++ "-"
     ++ fixed_digits 2 (day T) ++ "_" ++ fixed_digits 2 (hour T) ++ "-"
     ++ fixed_digits 2 (minute T) ++ "-" ++ fixed_digits 2 (second T) ++ "-"
     ++ fixed_digits 3 (microsecond T / 1000) ++ "_" ++ L ++ ".tar.gz")%string.
Proof.
  intros (Hy & Hmo & Hd & Hh & Hmi & Hs & Hus) Hy4.
  unfold backup_file_name, strftime.
  rewrite decimal_four_digits by lia.
  rewrite !zfill2_decimal by lia.
  rewrite zfill6_decimal by lia.
  rewrite (fixed_split3 3).
  set (Y := fixed_digits 4 _). set (Mo := fixed_digits 2 (month T)).
  set (D := fixed_digits 2 (day T)). set (H := fixed_digits 2 (hour T)).
  set (Mi := fixed_digits 2 (minute T)). set (S := fixed_digits 2 (second T)).
  set (ms := fixed_digits 3 (microsecond T / 1000)).
  set (tail := fixed_digits 3 (microsecond T)).
  replace (Y ++ "-" ++ Mo ++ "-" ++ D ++ "_" ++ H ++ "-" ++ Mi ++ "-" ++ S ++ "-"
           ++ ms ++ tail)%string
    with ((Y ++ "-" ++ Mo ++ "-" ++ D ++ "_" ++ H ++ "-" ++ Mi ++ "-" ++ S ++ "-"
           ++ ms) ++ tail)%string
    by (repeat (rewrite string_app_assoc; cbn [append]); reflexivity).
  rewrite str_slice_to_drop3 by apply fixed_digits_length.
  repeat (rewrite string_app_assoc; cbn [append]). reflexivity.
Qed.

Lemma backup_file_name_has_format T L :
  valid_datetime T ->
  (1000 <= year T)%Z ->
  has_name_format (backup_file_name T L) L.
Proof.
  intros HT Hy4. rewrite (backup_file_name_fields T L HT Hy4).
  exists (fixed_digits 4 (year T)), (fixed_digits 2 (month T)),
         (fixed_digits 2 (day T)), (fixed_digits 2 (hour T)),
         (fixed_digits 2 (minute T)), (fixed_digits 2 (second T)),
         (fixed_digits 3 (microsecond T / 1000)).
  repeat (split; [apply fixed_is_digits |]). reflexivity.
Qed.

(** Reading the name back gives the label and the time, cut to the
    millisecond. *)
Lemma backup_file_name_parses T L :
  valid_datetime T ->
  (1000 <= year T)%Z ->
  parse_backup_file_name (backup_file_name T L)
  = Some (mk_datetime (year T) (month T) (day T) (hour T) (minute T) (second T)
                      (microsecond T / 1000 * 1000), L).
Proof.
  intros HT Hy4. rewrite (backup_file_name_fields T L HT Hy4).
  destruct HT as (Hy & Hmo & Hd & Hh & Hmi & Hs & Hus).
  assert (Hms : (0 <= microsecond T / 1000 <= 999)%Z)
    by (Z.to_euclidean_division_equations; lia).
  unfold parse_backup_file_name. cbn [append].
  rewrite (field_reads 4 "-" _ (year T)) by
    (apply fixed_digits_length || (apply number_fixed4; lia)).
  rewrite (field_reads 2 "-" _ (month T)) by
    (apply fixed_digits_length || (apply number_fixed2; lia)).
  rewrite (field_reads 2 "_" _ (day T)) by
    (apply fixed_digits_length || (apply number_fixed2; lia)).
  rewrite (field_reads 2 "-" _ (hour T)) by
    (apply fixed_digits_length || (apply number_fixed2; lia)).
  rewrite (field_reads 2 "-" _ (minute T)) by
    (apply fixed_digits_length || (apply number_fixed2; lia)).
  rewrite (field_reads 2 "-" _ (second T)) by
    (apply fixed_digits_length || (apply number_fixed2; lia)).
  rewrite (field_reads 3 "_" _ (microsecond T / 1000)%Z) by
    (apply fixed_digits_length || (apply number_fixed3; lia)).
  now rewrite strip_suffix_app.
Qed.

(** C7. The name given at time [T] to the archive of label [L] has the
    format [YYYY-MM-DD_HH-MM-SS-mmm_<label>.tar.gz], and reading it back
    gives the label [L] and a timestamp in the same second as [T]: [T]
    cut to the millisecond. So two names are equal only for the same
    label and times in the same second. [T] is a time the clock of a run
    can show: a valid [datetime] whose year has four digits. *)
Theorem C7_backup_name_round_trip :
  forall T L,
    valid_datetime T ->
    (1000 <= year T)%Z ->
    has_name_format (backup_file_name T L) L /\
    (exists T',
        parse_backup_file_name (backup_file_name T L) = Some (T', L) /\
        same_second T T' /\
        microsecond T' = (microsecond T / 1000 * 1000)%Z) /\
    (forall T2 L2,
        valid_datetime T2 ->
        (1000 <= year T2)%Z ->
        backup_file_name T L = backup_file_name T2 L2 ->
        L = L2 /\ same_second T T2).
Proof.
  intros T L HT Hy4.
  split; [now apply backup_file_name_has_format |]. split.
  - eexists. split; [now apply backup_file_name_parses |].
    split; [repeat split | reflexivity].
  - intros T2 L2 HT2 Hy2 E.
    pose proof (backup_file_name_parses T L HT Hy4) as P1.
    pose proof (backup_file_name_parses T2 L2 HT2 Hy2) as P2.
    rewrite E, P2 in P1. injection P1 as Ey Emo Ed Eh Emi Es _ El.
    unfold same_second. repeat split; congruence.
Qed.

(** The theorem at 2024-03-07 09:05:59.123456 and the label [nightly]. *)
Lemma C7_backup_name_round_trip_witness :
  valid_datetime (mk_datetime 2024 3 7 9 5 59 123456) /\
  exists T',
    parse_backup_file_name
      (backup_file_name (mk_datetime 2024 3 7 9 5 59 123456) "nightly")
    = Some (T', "nightly") /\
    second T' = 59%Z /\ microsecond T' = 123000%Z.
Proof.
  assert (HT : valid_datetime (mk_datetime 2024 3 7 9 5 59 123456))
    by (unfold valid_datetime; simpl; lia).
  split; [exact HT |].
  destruct (C7_backup_name_round_trip (mk_datetime 2024 3 7 9 5 59 123456) "nightly" HT)
    as (_ & (T' & Hp & Hs & Hm) & _); [simpl; lia |].
  exists T'. split; [exact Hp |].
  destruct Hs as (_ & _ & _ & _ & _ & Hsec).
  split; [symmetry; exact Hsec | rewrite Hm; reflexivity].
Defined.

(** ** The scenarios of the specification *)

(** [F1] holds [a.txt] (4 bytes) and [sub/b.txt] (10 bytes): the archive
    holds these two members and no other. *)
Example scenario_archive :
  let r := add_files_to_archive 10 archive_file_path "F1" ""
             (snd (tarfile_open archive_file_path sample_world)) in
  fst r = Return PyNone /\
  map (fun e => (te_name e, te_size e, length (te_data e)))
      (tar_entries archive_file_path (snd r))
  = [("a.txt", 4%Z, 4); ("sub/b.txt", 10%Z, 10)].
Proof. vm_compute. split; reflexivity. Qed.

(** Seven archives of type zip and [versions_to_keep = 5]: the two oldest
    are deleted. *)
Example scenario_seven_backups :
  let r := delete_old_backups "D" 5 "nightly"
             (quiet_world (seven_backups "application/zip") []) in
  fst r = Return PyNone /\
  deletions (calls (snd r)) = ["B2"; "B1"] /\
  map item_id (drive (snd r)) = ["B3"; "B4"; "B5"; "B6"; "B7"].
Proof. vm_compute. repeat split; reflexivity. Qed.

(** Three archives and [versions_to_keep = 5]: none is deleted. *)
Example scenario_three_backups :
  let r := delete_old_backups "D" 5 "nightly" sample_world in
  fst r = Return PyNone /\ deletions (calls (snd r)) = [].
Proof. vm_compute. split; reflexivity. Qed.

(** Seven archives as [backup_folder] uploads them, of type gzip: the
    retention listing is empty and none is deleted. *)
Example scenario_seven_own_backups :
  let w := quiet_world (seven_backups "application/gzip") [] in
  let r := delete_old_backups "D" 5 "nightly" w in
  length (matching_backups w "D" "nightly") = 7 /\
  retention_listing w "D" "nightly" = [] /\
  fst r = Return PyNone /\
  deletions (calls (snd r)) = [].
Proof. vm_compute. repeat split; reflexivity. Qed.

(** A negative [versions_to_keep] counts from the end of the listing, as
    Python slices do: with [-1] only the oldest archive is deleted. *)
Example scenario_negative_count :
  let r := delete_old_backups "D" (-1) "nightly" sample_world in
  fst r = Return PyNone /\ deletions (calls (snd r)) = ["z1"].
Proof. vm_compute. split; reflexivity. Qed.

(** * Further properties *)

(** ** The walker reads and never writes *)

Lemma reads_only_refl w : reads_only w w.
Proof. split; [reflexivity |]. exists []. now rewrite app_nil_r. Qed.

Lemma reads_only_trans a b c : reads_only a b -> reads_only b c -> reads_only a c.
Proof.
  intros [D1 (s1 & E1 & F1)] [D2 (s2 & E2 & F2)].
  split; [congruence |].
  exists (s1 ++ s2). split; [now rewrite E2, E1, app_assoc |].
  now rewrite forallb_app, F1, F2.
Qed.

Lemma log_read_reads_only c w : is_read c = true -> reads_only w (log_call c w).
Proof.
  intros H. split; [reflexivity |]. exists [c]. split; [reflexivity |].
  simpl. now rewrite H.
Qed.

Lemma tar_addfile_reads_only tar ti fh : preserves reads_only (tar_addfile tar ti fh).
Proof.
  intro w.
  destruct (tar_addfile_world tar ti fh w) as [-> | (entries & d & _ & _ & _ & ->)];
    [apply reads_only_refl |].
  split; [reflexivity |]. exists []. now rewrite app_nil_r.
Qed.

Lemma walker_reads_only depth : forall tar folder_id current_path,
  preserves reads_only (add_files_to_archive depth tar folder_id current_path).
Proof.
  induction depth as [| depth IH]; intros tar folder_id current_path; simpl.
  - apply preserves_raise, reads_only_refl.
  - apply preserves_bind; [apply reads_only_trans | |].
    + intro w. rewrite files_list_world. now apply log_read_reads_only.
    + intros results w w1 _.
      apply preserves_bind; [apply reads_only_trans | |].
      * apply preserves_for_each; [apply reads_only_refl | apply reads_only_trans |].
        intros it _.
        destruct (String.eqb (item_mimeType it) FOLDER_MIME).
        -- apply preserves_bind; [apply reads_only_trans | apply IH |].
           intros; apply reads_only_refl.
        -- apply preserves_bind; [apply reads_only_trans | |].
           ++ intro w2. rewrite download_world. now apply log_read_reads_only.
           ++ intros fh w2 w3 _. apply tar_addfile_reads_only.
      * intros; apply reads_only_refl.
Qed.

(** X1. The walker never changes the remote store: whatever it returns or
    raises, the store is as before and every request it sent is a listing
    or a download. *)
Theorem walker_never_writes_to_the_store :
  forall depth tar folder_id current_path w,
    let w' := snd (add_files_to_archive depth tar folder_id current_path w) in
    drive w' = drive w /\
    exists sent,
      calls w' = calls w ++ sent /\
      forallb is_read sent = true /\
      deletions sent = [].
Proof.
  intros depth tar folder_id current_path w w'.
  destruct (walker_reads_only depth tar folder_id current_path w) as [Hd (sent & E & F)].
  split; [exact Hd |]. exists sent. split; [exact E |]. split; [exact F |].
  clear E. induction sent as [| c sent IH]; [reflexivity |].
  simpl in F. apply andb_true_iff in F as [Hc F].
  destruct c; simpl in *; try discriminate; now apply IH.
Qed.

(** ** Members and files *)

Lemma adds_members_refl tar folder_id path w : adds_members tar folder_id path w w.
Proof.
  split; [apply same_remote_refl |]. exists []. now rewrite app_nil_r.
Qed.

Lemma adds_members_trans tar folder_id path a b c :
  adds_members tar folder_id path a b ->
  adds_members tar folder_id path b c ->
  adds_members tar folder_id path a c.
Proof.
  intros [R1 (l1 & E1 & F1)] [R2 (l2 & E2 & F2)].
  split; [eapply same_remote_trans; eauto |].
  exists (l1 ++ l2). split; [now rewrite E2, E1, app_assoc |].
  apply Forall_app. split; [exact F1 |].
  destruct R1 as (Hd & _). now rewrite <- Hd.
Qed.

(** One file, with the content of its member. *)
Lemma file_step_member tar name x w :
  let r := (fh <- download (item_id x) (mk_bytesio [] 0) ;;
            (let fh := bio_seek fh 0 in
             tar_addfile tar (mk_tarinfo name (bio_nbytes fh)) fh)) w in
  same_remote w (snd r) /\
  match fst r with
  | Return _ =>
      exists e,
        te_name e = name /\
        fetched_content (drive w) (item_id x) = Some (te_data e) /\
        te_size e = Z.of_nat (length (te_data e)) /\
        tar_entries tar (snd r) = tar_entries tar w ++ [e]
  | Raise _ => tar_entries tar (snd r) = tar_entries tar w
  end.
Proof.
  cbv zeta. rewrite bind_unfold.
  destruct (download (item_id x) (mk_bytesio [] 0) w) as [[fh | e] w1] eqn:Ed.
  - apply download_returns in Ed as (data & Hf & -> & ->).
    set (w1 := log_call _ w).
    unfold tar_addfile. change (local_fs w1) with (local_fs w).
    cbn [ti_size ti_name].
    assert (Hread : bio_read (bio_seek (mk_bytesio data (length data)) 0)
                      (Z.to_nat (bio_nbytes (bio_seek (mk_bytesio data (length data)) 0)))
                    = data).
    { unfold bio_read, bio_nbytes; simpl. rewrite Nat2Z.id. apply firstn_all. }
    rewrite Hread.
    assert (Hnb : Z.to_nat (bio_nbytes (bio_seek (mk_bytesio data (length data)) 0))
                  = length data).
    { unfold bio_nbytes; simpl. apply Nat2Z.id. }
    rewrite Hnb, Nat.ltb_irrefl.
    unfold tar_entries at 2 4.
    destruct (fs_lookup tar (local_fs w)) as [[entries st] |] eqn:El;
      [| split; [repeat split | unfold tar_entries; cbn; now rewrite El]].
    destruct st; try (split; [repeat split | unfold tar_entries; cbn; now rewrite El]).
    split; [repeat split |]. cbn [fst snd].
    exists (mk_entry name (Z.of_nat (length data)) data).
    split; [reflexivity |]. split; [exact Hf |].
    split; [reflexivity |].
    unfold tar_entries. now rewrite local_fs_set, fs_lookup_write.
  - pose proof (download_world (item_id x) (mk_bytesio [] 0) w) as Hw.
    rewrite Ed in Hw. simpl in Hw. subst w1. split; [repeat split | reflexivity].
Qed.

Lemma member_of_file_down d folder_id path sub e :
  child_of d folder_id sub ->
  item_mimeType sub = FOLDER_MIME ->
  member_of_file d (item_id sub) (os_path_join path (item_name sub)) e ->
  member_of_file d folder_id path e.
Proof.
  intros Hc Hm (f' & p' & f & Hr & Hrest).
  exists f', p', f. split; [eapply reaches_down; eauto | exact Hrest].
Qed.

Lemma walker_adds_members depth : forall tar folder_id current_path w,
  adds_members tar folder_id current_path w
    (snd (add_files_to_archive depth tar folder_id current_path w)).
Proof.
  induction depth as [| depth IH]; intros tar folder_id current_path w.
  - apply adds_members_refl.
  - rewrite walker_step. cbv zeta.
    destruct (mem folder_id (fail_list w));
      [split; [repeat split | exists []; now rewrite app_nil_r] |].
    set (w0 := log_call _ w). set (body := fun item : item => _).
    assert (Hloop : True /\
              adds_members tar folder_id current_path w
                (snd (for_each (first_page_children w folder_id) body w0))).
    { apply (for_each_good
               (fun w' => adds_members tar folder_id current_path w w')
               (fun _ => True)); [exact I | |].
      - intros x w2 Hx Hinv. split; [exact I |].
        eapply adds_members_trans; [exact Hinv |].
        destruct Hinv as [(Hd & Hrest) _].
        assert (Hc : child_of (drive w2) folder_id x).
        { rewrite Hd. now apply first_page_child. }
        unfold body. destruct (String.eqb (item_mimeType x) FOLDER_MIME) eqn:Em.
        + apply String.eqb_eq in Em.
          rewrite bind_unfold.
          pose proof (IH tar (item_id x)
                         (os_path_join current_path (item_name x)) w2) as [Hr (l & E & F)].
          destruct (add_files_to_archive depth tar (item_id x) _ w2) as [[v | e] w3];
            simpl in *; (split; [exact Hr |]); exists l; (split; [exact E |]);
            (eapply Forall_impl; [| exact F]); intros e' He';
            eapply member_of_file_down; eauto.
        + destruct (file_step_member tar
                      (os_path_join current_path (item_name x)) x w2) as [Hr He].
          cbv zeta in Hr, He. split; [exact Hr |].
          destruct (fst _) in He.
          * destruct He as (e & Hn & Hcont & Hsize & He). exists [e].
            split; [exact He |]. constructor; [| constructor].
            exists folder_id, current_path, x.
            split; [constructor |]. split; [exact Hc |].
            split; [| now rewrite Hn].
            intros Heq. rewrite Heq, String.eqb_refl in Em. discriminate.
          * exists []. now rewrite app_nil_r.
      - split; [repeat split | exists []; now rewrite app_nil_r]. }
    destruct Hloop as [_ Hloop].
    now destruct (for_each _ body w0) as [[[] | e] w1].
Qed.

(** X2. Every member the walker adds is made from one file that is in or
    below the folder, is not in the trash and is not a folder: the name of
    the member is the path of that file and its data the content fetched
    under the id of that file. Folders and trashed files have no member. *)
Theorem walker_members_are_reachable_files :
  forall depth tar folder_id current_path w,
    let w' := snd (add_files_to_archive depth tar folder_id current_path w) in
    exists added,
      tar_entries tar w' = tar_entries tar w ++ added /\
      Forall (fun e =>
                exists folder_id' path' f,
                  reaches (drive w) folder_id current_path folder_id' path' /\
                  In f (drive w) /\
                  mem folder_id' (item_parents f) = true /\
                  item_trashed f = false /\
                  item_mimeType f <> FOLDER_MIME /\
                  te_name e = os_path_join path' (item_name f) /\
                  fetched_content (drive w) (item_id f) = Some (te_data e) /\
                  te_size e = Z.of_nat (length (te_data e)))
             added.
Proof.
  intros depth tar folder_id current_path w w'.
  destruct (walker_adds_members depth tar folder_id current_path w) as [_ (added & E & F)].
  exists added. split; [exact E |].
  eapply Forall_impl; [| exact F].
  intros e (f' & p' & f & Hr & (Hin & Hp & Ht) & Hm & Hn & Hc & Hs).
  exists f', p', f. repeat split; assumption.
Qed.

(** ** The archive when every listing fits in one page *)

(** X3. When the walker returns and the listing of every folder it reaches
    fits in one page, the names of the members it added are exactly the
    paths of the files in and below the folder. *)
Theorem archive_is_exact_when_listings_fit_one_page :
  forall depth tar folder_id current_path w v w',
    add_files_to_archive depth tar folder_id current_path w = (Return v, w') ->
    (forall f' p', reaches (drive w) folder_id current_path f' p' -> one_page w f') ->
    exists added,
      tar_entries tar w' = tar_entries tar w ++ added /\
      forall p, file_under (drive w) folder_id current_path p
                <-> In p (map te_name added).
Proof.
  intros depth tar folder_id current_path w v w' Hrun Hone.
  pose proof (walker_sound depth tar folder_id current_path w) as [_ (added & E & F)].
  rewrite Hrun in E. simpl in E.
  exists added. split; [exact E |]. intros p. split.
  - intros Hp.
    destruct (walker_complete depth tar folder_id current_path w v w' Hrun Hone p Hp)
      as (added' & E' & Hin).
    rewrite E in E'. apply app_inv_head in E'. now subst added'.
  - intros Hin. apply in_map_iff in Hin as (e & <- & He).
    rewrite Forall_forall in F. now apply F.
Qed.

Lemma archive_is_exact_when_listings_fit_one_page_witness :
  exists added,
    tar_entries archive_file_path
      (snd (add_files_to_archive 10 archive_file_path "F1" "" staging_world))
    = tar_entries archive_file_path staging_world ++ added /\
    forall p, file_under (drive staging_world) "F1" "" p <-> In p (map te_name added).
Proof.
  apply (archive_is_exact_when_listings_fit_one_page
           10 archive_file_path "F1" "" staging_world PyNone).
  - vm_compute; reflexivity.
  - intros f' p' _. unfold one_page.
    eapply Nat.le_trans; [apply filter_length_le | vm_compute; lia].
Defined.

(** ** The order of the members *)

Lemma first_page_children_same_remote w w' folder_id :
  same_remote w w' -> first_page_children w' folder_id = first_page_children w folder_id.
Proof.
  intros (Hd & Hp & _). unfold first_page_children. now rewrite Hd, Hp.
Qed.

Lemma walk_paths_same_remote depth : forall w w' folder_id current_path,
  same_remote w w' ->
  walk_paths depth w' folder_id current_path = walk_paths depth w folder_id current_path.
Proof.
  induction depth as [| depth IH]; intros w w' folder_id current_path H;
    [reflexivity |].
  simpl. rewrite (first_page_children_same_remote w w' folder_id H).
  apply flat_map_ext. intros it.
  destruct (String.eqb (item_mimeType it) FOLDER_MIME); [| reflexivity].
  now apply IH.
Qed.

(** X4. The members are added in the order of the listings, the content of a
    folder at the place of the folder: when the walker returns, the names
    of the members it added are the list [walk_paths]. *)
Theorem members_follow_the_listing_order :
  forall depth tar folder_id current_path w v w',
    add_files_to_archive depth tar folder_id current_path w = (Return v, w') ->
    exists added,
      tar_entries tar w' = tar_entries tar w ++ added /\
      map te_name added = walk_paths depth w folder_id current_path.
Proof.
  induction depth as [| depth IH]; intros tar folder_id current_path w v w' Hrun;
    [discriminate |].
  rewrite walker_step in Hrun. cbv zeta in Hrun.
  destruct (mem folder_id (fail_list w)); [discriminate |].
  set (w0 := log_call _ w) in Hrun. set (body := fun item : item => _) in Hrun.
  assert (Hin : forall xs wa wb,
             same_remote w wa ->
             for_each xs body wa = (Return tt, wb) ->
             exists added,
               tar_entries tar wb = tar_entries tar wa ++ added /\
               map te_name added =
               flat_map (fun it =>
                           let p := os_path_join current_path (item_name it) in
                           if String.eqb (item_mimeType it) FOLDER_MIME
                           then walk_paths depth w (item_id it) p else [p]) xs).
  { induction xs as [| x xs IHxs]; intros wa wb Hr H.
    - injection H as <-. exists []. now rewrite app_nil_r.
    - simpl in H. rewrite bind_unfold in H.
      destruct (body x wa) as [[[] | e] w2] eqn:Eb; [| discriminate].
      assert (Hstep : same_remote wa w2 /\
                exists added,
                  tar_entries tar w2 = tar_entries tar wa ++ added /\
                  map te_name added =
                  (let p := os_path_join current_path (item_name x) in
                   if String.eqb (item_mimeType x) FOLDER_MIME
                   then walk_paths depth w (item_id x) p else [p])).
      { unfold body in Eb. cbv zeta in *.
        destruct (String.eqb (item_mimeType x) FOLDER_MIME).
        - rewrite bind_unfold in Eb.
          pose proof (walker_sound depth tar (item_id x)
                        (os_path_join current_path (item_name x)) wa) as [Hs _].
          destruct (add_files_to_archive depth tar (item_id x) _ wa)
            as [[v2 | e2] w3] eqn:Ew; [| discriminate].
          injection Eb as <-. simpl in Hs. split; [exact Hs |].
          destruct (IH _ _ _ _ _ _ Ew) as (added & E & N).
          exists added. split; [exact E |].
          rewrite N. now apply walk_paths_same_remote.
        - pose proof (file_step_member tar
                        (os_path_join current_path (item_name x)) x wa) as [Hs He].
          cbv zeta in Hs, He. rewrite Eb in Hs, He. simpl in Hs, He.
          split; [exact Hs |].
          destruct He as (e & Hn & _ & _ & He).
          exists [e]. split; [exact He |]. simpl. now rewrite Hn. }
      destruct Hstep as [Hs (a1 & E1 & N1)].
      destruct (IHxs w2 wb (same_remote_trans _ _ _ Hr Hs) H) as (a2 & E2 & N2).
      exists (a1 ++ a2). split; [now rewrite E2, E1, app_assoc |].
      rewrite map_app, N1, N2. reflexivity. }
  destruct (for_each _ body w0) as [[[] | e] w1] eqn:Ef; [| discriminate].
  injection Hrun as _ <-.
  destruct (Hin _ w0 w1 (same_remote_refl w) Ef) as (added & E & N).
  exists added. split; [exact E | exact N].
Qed.

Lemma members_follow_the_listing_order_witness :
  exists added,
    tar_entries archive_file_path
      (snd (add_files_to_archive 10 archive_file_path "F1" "" staging_world))
    = tar_entries archive_file_path staging_world ++ added /\
    map te_name added = walk_paths 10 staging_world "F1" "".
Proof.
  apply (members_follow_the_listing_order
           10 archive_file_path "F1" "" staging_world PyNone).
  vm_compute; reflexivity.
Defined.

(** ** C3: the member of every yielded file *)

Lemma walk_files_same_remote depth : forall w w' folder_id current_path,
  same_remote w w' ->
  walk_files depth w' folder_id current_path = walk_files depth w folder_id current_path.
Proof.
  induction depth as [| depth IH]; intros w w' folder_id current_path H;
    [reflexivity |].
  simpl. rewrite (first_page_children_same_remote w w' folder_id H).
  apply flat_map_ext. intros it.
  destruct (String.eqb (item_mimeType it) FOLDER_MIME); [| reflexivity].
  now apply IH.
Qed.

(** C3. For every file the walker yields there is one member in the
    archive, in the order of the walk: its name is the path of the file,
    its data is the content of that file exactly as the download fetched
    it, and the size declared in its header is the number of bytes of
    that content, which is the number of bytes written for the member.
    A walk that returns has written the member of every file it came to;
    a walk that raises has written those of the files before the
    failure; nothing else is added to the archive. *)
Theorem C3_declared_size_is_content_length :
  forall depth tar folder_id current_path w,
    let r := add_files_to_archive depth tar folder_id current_path w in
    exists added done rest,
      tar_entries tar (snd r) = tar_entries tar w ++ added /\
      walk_files depth w folder_id current_path = done ++ rest /\
      Forall2 (written_as (drive w)) done added /\
      (forall v, fst r = Return v -> rest = []).
Proof.
  induction depth as [| depth IH]; intros tar folder_id current_path w; cbv zeta.
  { exists [], [], []. repeat split; auto. now rewrite app_nil_r. }
  rewrite walker_step. cbv zeta.
  destruct (mem folder_id (fail_list w)).
  { exists [], [], (walk_files (S depth) w folder_id current_path).
    repeat split; auto; [now rewrite app_nil_r | discriminate]. }
  set (w0 := log_call _ w). set (body := fun item : item => _).
  set (g := fun it : item =>
              let p := os_path_join current_path (item_name it) in
              if String.eqb (item_mimeType it) FOLDER_MIME
              then walk_files depth w (item_id it) p else [(p, it)]).
  assert (Hin : forall xs wa,
             same_remote w wa ->
             exists added done rest,
               tar_entries tar (snd (for_each xs body wa)) = tar_entries tar wa ++ added /\
               flat_map g xs = done ++ rest /\
               Forall2 (written_as (drive w)) done added /\
               (fst (for_each xs body wa) = Return tt -> rest = [])).
  { induction xs as [| x xs IHxs]; intros wa Hr.
    - exists [], [], []. repeat split; auto. now rewrite app_nil_r.
    - assert (Hstep : same_remote wa (snd (body x wa)) /\
                exists a1 d1 r1,
                  tar_entries tar (snd (body x wa)) = tar_entries tar wa ++ a1 /\
                  g x = d1 ++ r1 /\
                  Forall2 (written_as (drive w)) d1 a1 /\
                  (fst (body x wa) = Return tt -> r1 = [])).
      { assert (Hd : drive wa = drive w) by apply Hr.
        unfold body, g. cbv zeta.
        destruct (String.eqb (item_mimeType x) FOLDER_MIME).
        - rewrite bind_unfold.
          pose proof (walker_sound depth tar (item_id x)
                        (os_path_join current_path (item_name x)) wa) as [Hs _].
          destruct (IH tar (item_id x) (os_path_join current_path (item_name x)) wa)
            as (a1 & d1 & r1 & E & Hw & F & Hret).
          rewrite (walk_files_same_remote depth w wa _ _ Hr), Hd in *.
          destruct (add_files_to_archive depth tar (item_id x) _ wa) as [[v | e] w3];
            simpl in *; (split; [exact Hs |]); exists a1, d1, r1;
            repeat split; auto.
          + intros _. now apply (Hret v).
          + discriminate.
        - destruct (file_step_member tar
                      (os_path_join current_path (item_name x)) x wa) as [Hs He].
          cbv zeta in Hs, He. split; [exact Hs |].
          destruct (fst _) eqn:Ef.
          + destruct He as (e & Hn & Hc & Hsz & He).
            exists [e], [(os_path_join current_path (item_name x), x)], [].
            repeat split; auto.
            constructor; [| constructor]. rewrite Hd in Hc. now repeat split.
          + exists [], [], [(os_path_join current_path (item_name x), x)].
            repeat split; auto; [now rewrite app_nil_r | discriminate]. }
      destruct Hstep as [Hs (a1 & d1 & r1 & E1 & G1 & F1 & R1)].
      simpl for_each. rewrite bind_unfold.
      destruct (body x wa) as [[[] | e] w2]; simpl in *.
      + destruct (IHxs w2 (same_remote_trans _ _ _ Hr Hs))
          as (a2 & d2 & r2 & E2 & G2 & F2 & R2).
        exists (a1 ++ a2), (d1 ++ d2), r2.
        split; [now rewrite E2, E1, app_assoc |].
        split; [rewrite G1, G2, (R1 eq_refl), app_nil_r; now rewrite app_assoc |].
        split; [now apply Forall2_app | exact R2].
      + exists a1, d1, (r1 ++ flat_map g xs).
        split; [exact E1 |].
        split; [rewrite G1; now rewrite app_assoc |].
        split; [exact F1 | discriminate]. }
  destruct (Hin (first_page_children w folder_id) w0 (same_remote_refl w))
    as (added & done & rest & E & G & F & R).
  exists added, done, rest.
  destruct (for_each _ body w0) as [[[] | e] w1]; simpl in *;
    repeat split; auto; discriminate.
Qed.

(** ** A failed request ends the walk *)

Lemma for_each_raises {A} (Inv : world -> world -> Prop)
      (xs : list A) (body : A -> M unit) :
  (forall w, Inv w w) ->
  (forall a b c, Inv a b -> Inv b c -> Inv a c) ->
  (forall x w2, In x xs -> Inv w2 (snd (body x w2))) ->
  forall w e w',
    for_each xs body w = (Raise e, w') ->
    exists x w2, In x xs /\ Inv w w2 /\ body x w2 = (Raise e, w').
Proof.
  intros Hrefl Htrans. induction xs as [| x xs IH]; intros Hbody w e w' H;
    [discriminate |].
  simpl in H. rewrite bind_unfold in H.
  pose proof (Hbody x w (or_introl eq_refl)) as Hx.
  destruct (body x w) as [[[] | e1] w1] eqn:E.
  - destruct (IH (fun y w2 Hy => Hbody y w2 (or_intror Hy)) w1 e w' H)
      as (y & w2 & Hy & Hi & Hb).
    exists y, w2. split; [now right |]. split; [| exact Hb].
    eapply Htrans; [exact Hx | exact Hi].
  - injection H as <- <-. exists x, w. split; [now left |]. split; [apply Hrefl | exact E].
Qed.

Lemma download_raises fileId fh w e w1 :
  download fileId fh w = (Raise e, w1) ->
  e = HttpError (ApiGetMedia fileId) /\ w1 = log_call (ApiGetMedia fileId) w.
Proof.
  unfold download.
  destruct (mem fileId (fail_media w)); [now intros [= <- <-] |].
  destruct (find (has_id fileId) (drive w)); [discriminate | now intros [= <- <-]].
Qed.

Lemma tar_addfile_raises tar ti fh w e w1 :
  tar_addfile tar ti fh w = (Raise e, w1) -> e = OSError tar /\ w1 = w.
Proof.
  unfold tar_addfile.
  destruct (fs_lookup tar (local_fs w)) as [[entries []] |];
    try (now intros [= <- <-]).
  destruct (_ <? _)%nat; [now intros [= <- <-] | discriminate].
Qed.

(** X5. The walker stops at the first request the service refuses: when it
    raises the error of a request, that request is the last one it sent. *)
Theorem walker_stops_at_the_failed_request :
  forall depth tar folder_id current_path w c w',
    add_files_to_archive depth tar folder_id current_path w
      = (Raise (HttpError c), w') ->
    exists earlier, calls w' = calls w ++ earlier ++ [c].
Proof.
  induction depth as [| depth IH]; intros tar folder_id current_path w c w' Hrun;
    [discriminate |].
  rewrite walker_step in Hrun. cbv zeta in Hrun.
  destruct (mem folder_id (fail_list w)).
  { injection Hrun as <- <-. now exists []. }
  set (w0 := log_call _ w) in Hrun. set (body := fun item : item => _) in Hrun.
  destruct (for_each _ body w0) as [[[] | e] w1] eqn:Ef; [discriminate |].
  injection Hrun as -> ->.
  apply (for_each_raises reads_only) in Ef as (x & w2 & _ & [_ (sent & Es & _)] & Eb);
    [| apply reads_only_refl | apply reads_only_trans |].
  - assert (Hgoal : exists earlier, calls w' = calls w2 ++ earlier ++ [c]).
    { unfold body in Eb. destruct (String.eqb (item_mimeType x) FOLDER_MIME).
      - rewrite bind_unfold in Eb.
        destruct (add_files_to_archive depth tar (item_id x) _ w2)
          as [[v2 | e2] w3] eqn:Ew; [discriminate |].
        injection Eb as -> ->. now apply IH in Ew.
      - rewrite bind_unfold in Eb.
        destruct (download (item_id x) (mk_bytesio [] 0) w2) as [[fh | e2] w3] eqn:Ed.
        + apply tar_addfile_raises in Eb as [He _]. discriminate He.
        + injection Eb as -> ->.
          apply download_raises in Ed as [[= <-] ->]. now exists []. }
    destruct Hgoal as (earlier & E).
    exists (ApiList (mk_query folder_id (Some false) None None) :: sent ++ earlier).
    rewrite E, Es. unfold w0. simpl. now rewrite <- !app_assoc.
  - intros y w3 _. unfold body.
    destruct (String.eqb (item_mimeType y) FOLDER_MIME).
    + apply preserves_bind; [apply reads_only_trans | apply walker_reads_only |].
      intros; apply reads_only_refl.
    + apply preserves_bind; [apply reads_only_trans | |].
      * intro w4. rewrite download_world. now apply log_read_reads_only.
      * intros fh w4 w5 _. apply tar_addfile_reads_only.
Qed.

Lemma walker_stops_at_the_failed_request_witness :
  exists earlier,
    calls (snd (add_files_to_archive 10 archive_file_path "F1" ""
                  failing_download_world))
    = calls failing_download_world ++ earlier ++ [ApiGetMedia "b"].
Proof.
  apply (walker_stops_at_the_failed_request
           10 archive_file_path "F1" "" failing_download_world).
  vm_compute; reflexivity.
Defined.

(** ** The stack that is not needed *)

(** X6. The stack limit only matters when it is reached: a walk that does
    not end with [RecursionError] has the same result and leaves the same
    world under any larger limit. *)
Theorem spare_stack_changes_nothing :
  forall depth spare tar folder_id current_path w,
    fst (add_files_to_archive depth tar folder_id current_path w)
      <> Raise RecursionError ->
    add_files_to_archive (depth + spare) tar folder_id current_path w
    = add_files_to_archive depth tar folder_id current_path w.
Proof.
  induction depth as [| depth IH]; intros spare tar folder_id current_path w Hne.
  - now contradiction Hne.
  - change (S depth + spare) with (S (depth + spare)).
    rewrite walker_step in Hne. rewrite !walker_step. cbv zeta in *.
    destruct (mem folder_id (fail_list w)); [reflexivity |].
    set (w0 := log_call _ w) in *.
    set (body := fun item : item => _) in Hne.
    set (body' := fun item : item => _).
    fold body.
    assert (Hin : forall xs wa,
               fst (for_each xs body wa) <> Raise RecursionError ->
               for_each xs body' wa = for_each xs body wa).
    { induction xs as [| x xs IHxs]; intros wa H; [reflexivity |].
      simpl in *. rewrite bind_unfold in H. rewrite !bind_unfold.
      assert (Hb : fst (body x wa) <> Raise RecursionError -> body' x wa = body x wa).
      { intros Hx. unfold body, body' in *.
        destruct (String.eqb (item_mimeType x) FOLDER_MIME); [| reflexivity].
        rewrite bind_unfold in Hx. rewrite !bind_unfold.
        rewrite IH; [reflexivity |].
        intros Hr. apply Hx.
        destruct (add_files_to_archive depth tar (item_id x) _ wa) as [[? | ?] ?];
          simpl in *; [discriminate | injection Hr as ->; reflexivity]. }
      destruct (body x wa) as [[[] | e] w2] eqn:Eb.
      - rewrite Hb by discriminate. now apply IHxs.
      - rewrite Hb; [reflexivity |]. simpl in *. exact H. }
    rewrite Hin; [reflexivity |].
    intros Hr. apply Hne.
    destruct (for_each _ body w0) as [[[] | e] w1]; simpl in *;
      [discriminate | injection Hr as ->; reflexivity].
Qed.

Lemma spare_stack_changes_nothing_witness :
  add_files_to_archive (2 + 998) archive_file_path "F1" "" staging_world
  = add_files_to_archive 2 archive_file_path "F1" "" staging_world.
Proof.
  apply (spare_stack_changes_nothing 2 998).
  vm_compute. discriminate.
Defined.

(** ** Names that stay inside the archive *)

Lemma is_prefix_slash_app a b :
  a <> "" -> is_prefix "/" (a ++ b) = is_prefix "/" a.
Proof. destruct a; [contradiction | reflexivity]. Qed.

Lemma os_path_join_relative a b :
  relative a = true -> relative b = true -> relative (os_path_join a b) = true.
Proof.
  unfold relative, os_path_join. intros Ha Hb.
  apply negb_true_iff in Hb. rewrite Hb.
  destruct a as [| c a].
  - change (negb (is_prefix "/" b) = true). now rewrite Hb.
  - destruct (_ || _); now rewrite is_prefix_slash_app.
Qed.

Lemma reaches_relative d :
  forallb (fun it => relative (item_name it)) d = true ->
  forall a b c e, reaches d a b c e -> relative b = true -> relative e = true.
Proof.
  intros Hall a b c e Hr. induction Hr as [| a b sub c e [Hin _] _ _ IH];
    [easy |].
  intros Hb. apply IH. apply os_path_join_relative; [exact Hb |].
  rewrite forallb_forall in Hall. now apply Hall.
Qed.

(** X7. When no name in the store starts with a slash, no member name does:
    every member is named by a path relative to the root of the archive. *)
Theorem member_names_are_relative :
  forall depth tar folder_id current_path w,
    forallb (fun it => relative (item_name it)) (drive w) = true ->
    relative current_path = true ->
    let w' := snd (add_files_to_archive depth tar folder_id current_path w) in
    exists added,
      tar_entries tar w' = tar_entries tar w ++ added /\
      Forall (fun e => relative (te_name e) = true) added.
Proof.
  intros depth tar folder_id current_path w Hall Hp w'.
  destruct (walker_adds_members depth tar folder_id current_path w) as [_ (added & E & F)].
  exists added. split; [exact E |].
  eapply Forall_impl; [| exact F].
  intros e (f' & p' & f & Hr & (Hin & _) & _ & Hn & _).
  rewrite Hn. apply os_path_join_relative.
  - eapply reaches_relative; eauto.
  - rewrite forallb_forall in Hall. now apply Hall.
Qed.

Lemma member_names_are_relative_witness :
  exists added,
    tar_entries archive_file_path
      (snd (add_files_to_archive 10 archive_file_path "F1" "" staging_world))
    = tar_entries archive_file_path staging_world ++ added /\
    Forall (fun e => relative (te_name e) = true) added.
Proof.
  apply (member_names_are_relative 10 archive_file_path "F1" "" staging_world);
    vm_compute; reflexivity.
Defined.

(** ** What a backup leaves behind *)

Lemma adds_source_members_refl tar srcs w : adds_source_members tar srcs w w.
Proof.
  split; [apply same_remote_refl |]. exists []. now rewrite app_nil_r.
Qed.

Lemma adds_source_members_trans tar srcs a b c :
  adds_source_members tar srcs a b ->
  adds_source_members tar srcs b c ->
  adds_source_members tar srcs a c.
Proof.
  intros [R1 (l1 & E1 & F1)] [R2 (l2 & E2 & F2)].
  split; [eapply same_remote_trans; eauto |].
  exists (l1 ++ l2). split; [now rewrite E2, E1, app_assoc |].
  apply Forall_app. split; [exact F1 |].
  destruct R1 as (Hd & _). now rewrite <- Hd.
Qed.

(** The archive stage: the staging file holds the members made in this
    run and nothing else, closed with its end marker when every walk
    returned and without it otherwise; only read requests were sent. *)
Lemma archive_stage_spec srcs w :
  let r := archive_stage srcs w in
  same_remote w (snd r) /\
  reads_only w (snd r) /\
  exists members,
    Forall (source_member (drive w) srcs) members /\
    fs_lookup archive_file_path (local_fs (snd r))
    = Some (mk_tar members
                   match fst r with Return _ => Finalized | Raise _ => Aborted end).
Proof.
  cbv zeta. split; [apply archive_stage_same_remote |].
  unfold archive_stage, with_tarfile, tarfile_open.
  set (w0 := set_local_fs _ w).
  set (body := for_each srcs _).
  assert (Hf : preserves (walker_frame archive_file_path) body).
  { apply preserves_for_each;
      [apply walker_frame_refl | apply walker_frame_trans |].
    intros src _. apply preserves_bind; [apply walker_frame_trans | |].
    - apply walker_preserves_frame.
    - intros; apply walker_frame_refl. }
  assert (Hr : preserves reads_only body).
  { apply preserves_for_each;
      [apply reads_only_refl | apply reads_only_trans |].
    intros src _. apply preserves_bind; [apply reads_only_trans | |].
    - apply walker_reads_only.
    - intros; apply reads_only_refl. }
  assert (Hm : preserves (adds_source_members archive_file_path srcs) body).
  { apply preserves_for_each;
      [apply adds_source_members_refl | apply adds_source_members_trans |].
    intros src Hsrc. apply preserves_bind; [apply adds_source_members_trans | |].
    - intro w'.
      destruct (walker_adds_members (stack_depth w) archive_file_path src "" w')
        as [Hs (added & E & F)].
      split; [exact Hs |]. exists added. split; [exact E |].
      eapply Forall_impl; [| exact F]. intros e He. now exists src.
    - intros; apply adds_source_members_refl. }
  destruct (Hf w0) as [_ Ho]. specialize (Hr w0).
  destruct (Hm w0) as [_ (members & E & F)].
  assert (H0 : fs_lookup archive_file_path (local_fs w0) = Some (mk_tar [] Writing)).
  { unfold w0. rewrite local_fs_set. apply fs_lookup_write. }
  destruct (Ho (ex_intro _ [] H0)) as (entries & He).
  unfold tar_entries in E. rewrite H0, He in E. simpl in E. subst entries.
  assert (Hc : forall st w',
             fs_lookup archive_file_path (local_fs w') = Some (mk_tar members Writing) ->
             reads_only w w' ->
             reads_only w (tar_close archive_file_path st w') /\
             fs_lookup archive_file_path
               (local_fs (tar_close archive_file_path st w'))
             = Some (mk_tar members st)).
  { intros st w' Hl Hw. unfold tar_close. rewrite Hl.
    split; [exact Hw |]. rewrite local_fs_set. apply fs_lookup_write. }
  assert (Hw0 : reads_only w w0).
  { split; [reflexivity |]. exists []. split; [| reflexivity].
    unfold w0. simpl. now rewrite app_nil_r. }
  pose proof (reads_only_trans _ _ _ Hw0 Hr) as Hw1.
  destruct (body w0) as [[[] | e] w1]; cbn [fst snd] in *.
  - destruct (Hc Finalized w1 He Hw1) as [Hro Hl]. split; [exact Hro |].
    exists members. split; [exact F | exact Hl].
  - destruct (Hc Aborted w1 He Hw1) as [Hro Hl]. split; [exact Hro |].
    exists members. split; [exact F | exact Hl].
Qed.

Lemma reads_have_no_deletion sent :
  forallb is_read sent = true -> deletions sent = [].
Proof.
  induction sent as [| c sent IH]; [reflexivity |].
  simpl. intros H. apply andb_true_iff in H as [Hc H].
  destruct c; simpl in *; try discriminate; now apply IH.
Qed.

(** X8. A backup that returns has sent read requests and then one upload,
    its last request. The store has one file more, with the name of the
    run, in the destination folder, of type gzip; its content is the
    archive of the members made in this run, each one from a file in or
    below a source folder, whatever the staging file held before. The
    staging file is gone. *)
Theorem backup_uploads_this_run_only :
  forall targz srcs dest name w v wb,
    backup_folder targz srcs dest name w = (Return v, wb) ->
    exists reads members u,
      forallb is_read reads = true /\
      calls wb = calls w ++ reads
                 ++ [ApiCreate (backup_file_name (clock w) name) dest] /\
      Forall (source_member (drive w) srcs) members /\
      drive wb = drive w ++ [u] /\
      item_id u = fresh_id (drive w) /\
      item_name u = backup_file_name (clock w) name /\
      item_parents u = [dest] /\
      item_mimeType u = "application/gzip" /\
      item_trashed u = false /\
      item_media u = [targz members] /\
      fs_lookup archive_file_path (local_fs wb) = None.
Proof.
  intros targz srcs dest name w v wb H.
  rewrite backup_folder_stages in H.
  destruct (archive_stage_spec srcs w) as ((Hd & _) & (_ & reads & Ec & Fr) & members & Fm & Hl).
  destruct (archive_stage srcs w) as [[[] | e] w1]; [| discriminate].
  simpl in *. unfold MediaFileUpload in H. rewrite Hl in H. cbn [tf_entries] in H.
  unfold files_create in H. destruct (fail_create w1); [discriminate |].
  unfold os_remove in H.
  match type of H with
  | context [fs_lookup archive_file_path (local_fs ?x)] =>
      change (local_fs x) with (local_fs w1) in H
  end.
  rewrite Hl in H. injection H as _ <-.
  exists reads, members. eexists.
  split; [exact Fr |].
  split; [simpl; rewrite Ec; now rewrite <- app_assoc |].
  split; [exact Fm |].
  split; [simpl; rewrite Hd; reflexivity |].
  repeat (split; [reflexivity |]).
  rewrite local_fs_set. apply fs_lookup_remove.
Qed.

Lemma backup_uploads_this_run_only_witness :
  exists reads members u,
    forallb is_read reads = true /\
    calls (snd (backup_folder (fun _ => []) ["F1"] "D" "nightly" sample_world))
    = calls sample_world ++ reads
      ++ [ApiCreate (backup_file_name (clock sample_world) "nightly") "D"] /\
    Forall (source_member (drive sample_world) ["F1"]) members /\
    drive (snd (backup_folder (fun _ => []) ["F1"] "D" "nightly" sample_world))
    = drive sample_world ++ [u] /\
    item_id u = fresh_id (drive sample_world) /\
    item_name u = backup_file_name (clock sample_world) "nightly" /\
    item_parents u = ["D"] /\
    item_mimeType u = "application/gzip" /\
    item_trashed u = false /\
    item_media u = [(fun _ : list tar_entry => []) members] /\
    fs_lookup archive_file_path
      (local_fs (snd (backup_folder (fun _ => []) ["F1"] "D" "nightly" sample_world)))
    = None.
Proof.
  apply (backup_uploads_this_run_only (fun _ => []) ["F1"] "D" "nightly"
           sample_world PyNone).
  vm_compute; reflexivity.
Defined.

(** X9. A backup that raises has changed nothing in the store. The staging
    file is left on the disk with the members made so far. Either a walk
    failed: then the archive has no end marker and no upload was tried;
    or the upload was refused: then the archive is complete and the error
    is the one of the upload, the last request. *)
Theorem failed_backup_leaves_the_store :
  forall targz srcs dest name w e wb,
    backup_folder targz srcs dest name w = (Raise e, wb) ->
    drive wb = drive w /\
    exists reads members st,
      forallb is_read reads = true /\
      Forall (source_member (drive w) srcs) members /\
      fs_lookup archive_file_path (local_fs wb) = Some (mk_tar members st) /\
      ((st = Aborted /\ calls wb = calls w ++ reads) \/
       (st = Finalized /\
        e = HttpError (ApiCreate (backup_file_name (clock w) name) dest) /\
        calls wb = calls w ++ reads
                   ++ [ApiCreate (backup_file_name (clock w) name) dest])).
Proof.
  intros targz srcs dest name w e wb H.
  rewrite backup_folder_stages in H.
  destruct (archive_stage_spec srcs w) as ((Hd & _) & (_ & reads & Ec & Fr) & members & Fm & Hl).
  destruct (archive_stage srcs w) as [[[] | e1] w1]; simpl in *.
  - unfold MediaFileUpload in H. rewrite Hl in H. cbn [tf_entries] in H.
    unfold files_create in H. destruct (fail_create w1).
    + injection H as <- <-. split; [exact Hd |].
      exists reads, members, Finalized.
      split; [exact Fr |]. split; [exact Fm |]. split; [exact Hl |].
      right. split; [reflexivity |]. split; [reflexivity |].
      simpl. rewrite Ec. now rewrite <- app_assoc.
    + unfold os_remove in H.
      match type of H with
      | context [fs_lookup archive_file_path (local_fs ?x)] =>
          change (local_fs x) with (local_fs w1) in H
      end.
      rewrite Hl in H. discriminate.
  - injection H as <- <-. split; [exact Hd |].
    exists reads, members, Aborted.
    split; [exact Fr |]. split; [exact Fm |]. split; [exact Hl |].
    left. split; [reflexivity | exact Ec].
Qed.

Lemma failed_backup_leaves_the_store_witness :
  drive (snd (backup_folder (fun _ => []) ["F1"] "D" "nightly" failing_download_world))
  = drive failing_download_world /\
  exists reads members st,
    forallb is_read reads = true /\
    Forall (source_member (drive failing_download_world) ["F1"]) members /\
    fs_lookup archive_file_path
      (local_fs (snd (backup_folder (fun _ => []) ["F1"] "D" "nightly"
                        failing_download_world)))
    = Some (mk_tar members st) /\
    ((st = Aborted /\
      calls (snd (backup_folder (fun _ => []) ["F1"] "D" "nightly"
                    failing_download_world))
      = calls failing_download_world ++ reads) \/
     (st = Finalized /\
      HttpError (ApiGetMedia "b")
      = HttpError (ApiCreate (backup_file_name (clock failing_download_world)
                                               "nightly") "D") /\
      calls (snd (backup_folder (fun _ => []) ["F1"] "D" "nightly"
                    failing_download_world))
      = calls failing_download_world ++ reads
        ++ [ApiCreate (backup_file_name (clock failing_download_world) "nightly")
                      "D"])).
Proof.
  apply (failed_backup_leaves_the_store (fun _ => []) ["F1"] "D" "nightly"
           failing_download_world (HttpError (ApiGetMedia "b"))).
  vm_compute; reflexivity.
Defined.

(** ** The run *)

Lemma backup_folder_never_deletes targz srcs dest name w :
  let r := backup_folder targz srcs dest name w in
  deletions (calls (snd r)) = deletions (calls w) /\
  match fst r with
  | Raise _ => drive (snd r) = drive w
  | Return _ => True
  end.
Proof.
  cbv zeta. rewrite backup_folder_stages.
  destruct (archive_stage_spec srcs w)
    as ((Hd & _) & (_ & reads & Ec & Fr) & members & _ & Hl).
  assert (Hdel : forall c, deletions (calls w ++ reads ++ [ApiCreate c dest])
                           = deletions (calls w)).
  { intros c. rewrite !deletions_app, (reads_have_no_deletion _ Fr).
    simpl. now rewrite app_nil_r. }
  destruct (archive_stage srcs w) as [[[] | e1] w1]; simpl in *.
  - unfold MediaFileUpload. rewrite Hl. cbn [tf_entries].
    unfold files_create. destruct (fail_create w1).
    + simpl. rewrite Ec, <- app_assoc. split; [apply Hdel | exact Hd].
    + unfold os_remove.
      match goal with
      | |- context [fs_lookup archive_file_path (local_fs ?x)] =>
          change (local_fs x) with (local_fs w1)
      end.
      rewrite Hl. simpl. rewrite Ec, <- app_assoc. split; [apply Hdel | exact I].
  - split; [| exact Hd]. rewrite Ec, deletions_app, (reads_have_no_deletion _ Fr).
    now rewrite app_nil_r.
Qed.

(** X10. When the backup fails the run fails with the same error and the
    retention step is not reached: the store is as it was before the run
    and no deletion was requested. *)
Theorem failed_backup_prunes_nothing :
  forall targz cfg w e wb,
    backup_folder targz (source_folder_ids cfg) (dest_folder_id cfg)
                  (backup_name cfg) w = (Raise e, wb) ->
    main targz cfg w = (Raise e, wb) /\
    drive wb = drive w /\
    deletions_since w wb = [].
Proof.
  intros targz cfg w e wb H.
  split; [rewrite main_stages, H; reflexivity |].
  destruct (backup_folder_never_deletes targz (source_folder_ids cfg)
              (dest_folder_id cfg) (backup_name cfg) w) as [Hdel Hd].
  rewrite H in Hdel, Hd. simpl in Hdel, Hd.
  split; [exact Hd |]. apply deletions_since_app. rewrite Hdel. now rewrite app_nil_r.
Qed.

Lemma failed_backup_prunes_nothing_witness :
  main (fun _ => []) sample_config failing_upload_world
  = (Raise (HttpError (ApiCreate "2024-03-07_09-05-59-123_nightly.tar.gz" "D")),
     snd (backup_folder (fun _ => []) ["F1"] "D" "nightly" failing_upload_world)) /\
  drive (snd (backup_folder (fun _ => []) ["F1"] "D" "nightly" failing_upload_world))
  = drive failing_upload_world /\
  deletions_since failing_upload_world
    (snd (backup_folder (fun _ => []) ["F1"] "D" "nightly" failing_upload_world)) = [].
Proof.
  apply (failed_backup_prunes_nothing (fun _ => []) sample_config failing_upload_world).
  vm_compute; reflexivity.
Defined.

(** ** The uploaded archive, end to end *)

Lemma tar_close_entries tar st w :
  tar_entries tar (tar_close tar st w) = tar_entries tar w.
Proof.
  unfold tar_close, tar_entries.
  destruct (fs_lookup tar (local_fs w)) as [tf |] eqn:E; [| now rewrite E].
  now rewrite local_fs_set, fs_lookup_write.
Qed.

Lemma archive_stage_complete srcs w w1 :
  archive_stage srcs w = (Return tt, w1) ->
  (forall src f' p', In src srcs -> reaches (drive w) src "" f' p' -> one_page w f') ->
  forall src p, In src srcs -> file_under (drive w) src "" p ->
  In p (map te_name (tar_entries archive_file_path w1)).
Proof.
  unfold archive_stage, with_tarfile, tarfile_open.
  set (w0 := set_local_fs _ w).
  set (step := fun source_folder_id : string => _).
  intros Hrun Hone src p Hsrc Hp.
  destruct (for_each srcs step w0) as [[[] | e] w2] eqn:Eloop; [| discriminate].
  injection Hrun as <-. rewrite tar_close_entries.
  assert (Hstep : forall x w3, In x srcs ->
                               archive_grows archive_file_path w3 (snd (step x w3))).
  { intros x w3 _. unfold step. rewrite bind_unfold.
    pose proof (walker_sound (stack_depth w) archive_file_path x "" w3) as H.
    apply adds_files_under_grows in H.
    now destruct (add_files_to_archive (stack_depth w) archive_file_path x "" w3)
      as [[? | ?] ?]. }
  destruct (for_each_returns (archive_grows archive_file_path) _ step
              (archive_grows_refl archive_file_path)
              (archive_grows_trans archive_file_path) Hstep w0 w2 Eloop)
    as [_ Hall].
  destruct (Hall src Hsrc) as (w3 & w4 & H3 & Hb & H4).
  unfold step in Hb. rewrite bind_unfold in Hb.
  destruct (add_files_to_archive (stack_depth w) archive_file_path src "" w3)
    as [[v | e] w5] eqn:Ew; [| discriminate].
  injection Hb as ->.
  assert (Hrem : same_remote w w3).
  { eapply same_remote_trans; [| apply H3]. repeat split. }
  assert (Hd : drive w3 = drive w) by apply Hrem.
  destruct (walker_complete (stack_depth w) archive_file_path src "" w3 v w4 Ew)
    with (p := p) as (mid & Emid & Hmid).
  - intros g q Hg. apply (one_page_same_remote _ _ _ Hrem).
    apply (Hone src g q Hsrc). now rewrite Hd in Hg.
  - now rewrite Hd.
  - destruct (grows_compose H3 Emid Hmid H4) as (added & E & Hin).
    rewrite E, map_app. apply in_or_app. now right.
Qed.

(** X11. End to end: when the backup returns and the listing of every folder
    in and below the sources fits in one page, the archive that was
    uploaded has a member for every file in and below the sources and no
    other member. *)
Theorem uploaded_archive_is_exact_within_one_page :
  forall targz srcs dest name w v wb,
    backup_folder targz srcs dest name w = (Return v, wb) ->
    (forall src f' p', In src srcs -> reaches (drive w) src "" f' p' ->
                       one_page w f') ->
    exists members u,
      drive wb = drive w ++ [u] /\
      item_media u = [targz members] /\
      forall p, In p (map te_name members)
                <-> exists src, In src srcs /\ file_under (drive w) src "" p.
Proof.
  intros targz srcs dest name w v wb H Hone.
  rewrite backup_folder_stages in H.
  pose proof (archive_stage_spec srcs w) as ((Hd & _) & _ & members & Fm & Hl).
  pose proof (archive_stage_complete srcs w) as Hcomplete.
  destruct (archive_stage srcs w) as [[[] | e] w1]; [| discriminate].
  simpl in Hd, Hl. specialize (Hcomplete w1 eq_refl Hone).
  assert (Hent : tar_entries archive_file_path w1 = members).
  { unfold tar_entries. now rewrite Hl. }
  rewrite Hent in Hcomplete.
  unfold MediaFileUpload in H. rewrite Hl in H. cbn [tf_entries] in H.
  unfold files_create in H. destruct (fail_create w1); [discriminate |].
  unfold os_remove in H.
  match type of H with
  | context [fs_lookup archive_file_path (local_fs ?x)] =>
      change (local_fs x) with (local_fs w1) in H
  end.
  rewrite Hl in H. injection H as _ <-.
  exists members. eexists.
  split; [simpl; rewrite Hd; reflexivity |].
  split; [reflexivity |].
  intros p. split.
  - intros Hin. apply in_map_iff in Hin as (e & <- & He).
    rewrite Forall_forall in Fm.
    destruct (Fm e He) as (src & Hsrc & f' & p' & f & Hr & Hc & Hm & Hn & _).
    exists src. split; [exact Hsrc |]. now exists f', p', f.
  - intros (src & Hsrc & Hp). now apply (Hcomplete src).
Qed.

Lemma uploaded_archive_is_exact_within_one_page_witness :
  exists members u,
    drive (snd (backup_folder (fun _ => []) ["F1"] "D" "nightly" sample_world))
    = drive sample_world ++ [u] /\
    item_media u = [(fun _ : list tar_entry => []) members] /\
    forall p, In p (map te_name members)
              <-> exists src, In src ["F1"] /\ file_under (drive sample_world) src "" p.
Proof.
  apply (uploaded_archive_is_exact_within_one_page
           (fun _ => []) ["F1"] "D" "nightly" sample_world PyNone).
  - vm_compute; reflexivity.
  - intros src f' p' _ _. unfold one_page.
    eapply Nat.le_trans; [apply filter_length_le | vm_compute; lia].
Defined.

(** ** Retention, further *)

Lemma mem_In s l : In s l -> mem s l = true.
Proof.
  intros H. unfold mem. apply existsb_exists. exists s.
  split; [exact H | apply String.eqb_refl].
Qed.

Lemma not_In_mem_false s l : ~ In s l -> mem s l = false.
Proof.
  intros H. destruct (mem s l) eqn:E; [| reflexivity].
  unfold mem in E. apply existsb_exists in E as (x & Hx & Ex).
  apply String.eqb_eq in Ex. subst x. contradiction.
Qed.

Lemma filter_all {A} (p : A -> bool) l :
  (forall x, In x l -> p x = true) -> filter p l = l.
Proof.
  induction l as [| a l IH]; intros H; [reflexivity |].
  simpl. rewrite (H a (or_introl eq_refl)). f_equal.
  apply IH. intros x Hx. apply H. now right.
Qed.

Lemma filter_none {A} (p : A -> bool) l :
  (forall x, In x l -> p x = false) -> filter p l = [].
Proof.
  induction l as [| a l IH]; intros H; [reflexivity |].
  simpl. rewrite (H a (or_introl eq_refl)).
  apply IH. intros x Hx. apply H. now right.
Qed.

Lemma filter_twice {A} (p q : A -> bool) l :
  filter p (filter q l) = filter (fun x => q x && p x) l.
Proof.
  induction l as [| a l IH]; [reflexivity |].
  simpl. destruct (q a); simpl; [destruct (p a) |]; now rewrite IH.
Qed.

Lemma filter_swap {A} (p q : A -> bool) l :
  filter p (filter q l) = filter q (filter p l).
Proof.
  rewrite !filter_twice. apply filter_ext. intros a. apply andb_comm.
Qed.

Lemma insert_desc_head x l :
  (forall z, In z l -> not_older x z) -> insert_desc x l = x :: l.
Proof.
  destruct l as [| y l]; [reflexivity |]. intros H. simpl.
  specialize (H y (or_introl eq_refl)). unfold not_older in H.
  apply Z.leb_le in H. now rewrite H.
Qed.

Lemma insert_desc_filter (p : item -> bool) x l :
  StronglySorted not_older l ->
  filter p (insert_desc x l)
  = if p x then insert_desc x (filter p l) else filter p l.
Proof.
  induction l as [| y l IH]; intros Hs.
  - simpl. now destruct (p x).
  - inversion Hs as [| ? ? Hs' Hall]; subst.
    cbn [insert_desc].
    destruct (item_createdTime y <=? item_createdTime x)%Z eqn:E.
    + cbn [filter]. destruct (p x); [| reflexivity].
      symmetry. apply (insert_desc_head x (filter p (y :: l))).
      intros z Hz. apply filter_In in Hz as [Hz _].
      apply Z.leb_le in E. unfold not_older.
      destruct Hz as [<- | Hz]; [exact E |].
      rewrite Forall_forall in Hall. specialize (Hall z Hz).
      unfold not_older in Hall. lia.
    + cbn [filter]. rewrite (IH Hs').
      destruct (p y), (p x); try reflexivity.
      cbn [insert_desc]. now rewrite E.
Qed.

Lemma sort_createdTime_desc_filter (p : item -> bool) l :
  sort_createdTime_desc (filter p l) = filter p (sort_createdTime_desc l).
Proof.
  induction l as [| a l IH]; [reflexivity |].
  unfold sort_createdTime_desc in *. cbn [filter fold_right].
  rewrite insert_desc_filter by apply sort_createdTime_desc_sorted.
  destruct (p a); [| exact IH]. cbn [fold_right]. now rewrite IH.
Qed.

(** A deletion loop that returns has removed from the store the files
    with the ids it was given, and nothing else. *)
Lemma delete_loop_returns fs : forall w w1,
  for_each fs (fun file => files_delete (item_id file)) w = (Return tt, w1) ->
  drive w1 = filter (fun f => negb (mem (item_id f) (map item_id fs))) (drive w) /\
  page_size w1 = page_size w /\ fail_list w1 = fail_list w.
Proof.
  induction fs as [| f fs IH]; intros w w1 H.
  - injection H as <-. split; [| split; reflexivity].
    symmetry. now apply filter_all.
  - simpl in H. rewrite bind_unfold in H.
    destruct (files_delete (item_id f) w) as [[[] | e] w2] eqn:E; [| discriminate].
    unfold files_delete in E.
    destruct (_ || _); [discriminate |]. injection E as <-.
    apply IH in H as (Hd & Hp & Hl). cbn in Hd, Hp, Hl.
    split; [| split; assumption].
    rewrite Hd, filter_twice. apply filter_ext. intros a.
    unfold has_id. cbn [map mem existsb].
    fold (mem (item_id a) (map item_id fs)).
    now rewrite negb_orb.
Qed.

Lemma delete_old_backups_steps dest N label w :
  mem dest (fail_list w) = false ->
  let fs := retention_listing w dest label in
  let w0 := log_call (ApiList (mk_query dest None (Some "application/zip")
                                        (Some label))) w in
  delete_old_backups dest N label w =
    if (Z.of_nat (length fs) >? N)%Z then
      match for_each (list_slice_from fs N)
                     (fun file => files_delete (item_id file)) w0 with
      | (Return _, w1) => (Return PyNone, w1)
      | (Raise e, w1) => (Raise e, w1)
      end
    else (Return PyNone, w0).
Proof.
  intros Hl fs w0. unfold delete_old_backups.
  destruct (files_list_retention w dest label Hl) as (tok & E).
  rewrite bind_unfold, E. cbn [files].
  fold fs. fold w0.
  destruct (Z.of_nat (length fs) >? N)%Z; [| reflexivity].
  rewrite bind_unfold.
  now destruct (for_each _ _ w0) as [[[] | e] w1].
Qed.

Lemma prune_returns_after_listing dest N label w v w1 :
  delete_old_backups dest N label w = (Return v, w1) ->
  mem dest (fail_list w) = false.
Proof.
  intros H. destruct (mem dest (fail_list w)) eqn:E; [| reflexivity].
  unfold delete_old_backups in H. rewrite bind_unfold in H.
  unfold files_list in H. cbn [q_parent] in H. rewrite E in H. discriminate.
Qed.

Lemma retention_listing_one_page w dest label :
  length (filter (matches (mk_query dest None (Some "application/zip") (Some label)))
                 (drive w)) <= page_size w ->
  retention_listing w dest label
  = sort_createdTime_desc
      (filter (matches (mk_query dest None (Some "application/zip") (Some label)))
              (drive w)).
Proof.
  intros H. unfold retention_listing. apply firstn_all2.
  set (hits := filter _ (drive w)) in *.
  now rewrite (Permutation_length (sort_createdTime_desc_perm hits)).
Qed.

(** X12. After a pruning that returned, with the archives of the label in one
    page, the listing is the newest [versions_to_keep] entries of the
    listing before; a second pruning then requests no deletion and leaves
    the store as it is. *)
Theorem pruning_again_deletes_nothing :
  forall dest N label w v w1,
    (0 <= N)%Z ->
    NoDup (map item_id (drive w)) ->
    length (filter (matches (mk_query dest None (Some "application/zip") (Some label)))
                   (drive w)) <= page_size w ->
    delete_old_backups dest N label w = (Return v, w1) ->
    let r := delete_old_backups dest N label w1 in
    retention_listing w1 dest label
    = firstn (Z.to_nat N) (retention_listing w dest label) /\
    fst r = Return PyNone /\
    drive (snd r) = drive w1 /\
    deletions_since w1 (snd r) = [].
Proof.
  intros dest N label w v w1 HN Hnd Hpage Hrun r.
  pose proof (prune_returns_after_listing _ _ _ _ _ _ Hrun) as Hl.
  set (q := mk_query dest None (Some "application/zip") (Some label)) in *.
  set (fs := retention_listing w dest label).
  assert (Hfs : fs = sort_createdTime_desc (filter (matches q) (drive w))).
  { now apply retention_listing_one_page. }
  assert (Hlen : length fs <= page_size w).
  { rewrite Hfs.
    now rewrite (Permutation_length
                   (sort_createdTime_desc_perm (filter (matches q) (drive w)))). }
  assert (Hstate : retention_listing w1 dest label = firstn (Z.to_nat N) fs /\
                   fail_list w1 = fail_list w).
  { rewrite (delete_old_backups_unfold dest N label w Hl HN) in Hrun.
    cbv zeta in Hrun. fold fs in Hrun. fold q in Hrun.
    destruct (Z.of_nat (length fs) >? N)%Z eqn:Hgt.
    - set (old := skipn (Z.to_nat N) fs) in *.
      destruct (for_each old _ _) as [[[] | e] w2] eqn:Ef; [| discriminate].
      injection Hrun as _ <-.
      apply delete_loop_returns in Ef as (Hd & Hp & Hfl). cbn in Hd, Hp, Hfl.
      split; [| exact Hfl].
      unfold retention_listing. fold q. rewrite Hp, Hd.
      rewrite filter_swap, sort_createdTime_desc_filter, <- Hfs.
      rewrite <- (firstn_skipn (Z.to_nat N) fs) at 1. fold old.
      rewrite filter_app.
      rewrite (filter_all _ (firstn (Z.to_nat N) fs)).
      + rewrite (filter_none _ old).
        * rewrite app_nil_r. apply firstn_all2.
          rewrite length_firstn. lia.
        * intros x Hx. apply negb_false_iff, mem_In. now apply in_map.
      + intros x Hx. apply negb_true_iff, not_In_mem_false.
        now apply retention_split_disjoint.
    - injection Hrun as _ <-. split; [| reflexivity].
      assert (Hle : length fs <= Z.to_nat N).
      { destruct (Z.gtb_spec (Z.of_nat (length fs)) N); [discriminate | lia]. }
      rewrite firstn_all2 by exact Hle. reflexivity. }
  destruct Hstate as [Hlist Hfl].
  split; [exact Hlist |].
  assert (Hl1 : mem dest (fail_list w1) = false) by now rewrite Hfl.
  unfold r. rewrite (delete_old_backups_unfold dest N label w1 Hl1 HN).
  cbv zeta. rewrite Hlist.
  assert (Hno : (Z.of_nat (length (firstn (Z.to_nat N) fs)) >? N)%Z = false).
  { rewrite length_firstn.
    destruct (Z.gtb_spec (Z.of_nat (Nat.min (Z.to_nat N) (length fs))) N);
      [lia | reflexivity]. }
  rewrite Hno. split; [reflexivity |]. split; [reflexivity |].
  apply deletions_since_app. simpl. rewrite deletions_app. reflexivity.
Qed.

Lemma pruning_again_deletes_nothing_witness :
  retention_listing (snd (delete_old_backups "D" 1 "nightly" sample_world)) "D" "nightly"
  = firstn (Z.to_nat 1) (retention_listing sample_world "D" "nightly") /\
  fst (delete_old_backups "D" 1 "nightly"
         (snd (delete_old_backups "D" 1 "nightly" sample_world))) = Return PyNone /\
  drive (snd (delete_old_backups "D" 1 "nightly"
                (snd (delete_old_backups "D" 1 "nightly" sample_world))))
  = drive (snd (delete_old_backups "D" 1 "nightly" sample_world)) /\
  deletions_since (snd (delete_old_backups "D" 1 "nightly" sample_world))
    (snd (delete_old_backups "D" 1 "nightly"
            (snd (delete_old_backups "D" 1 "nightly" sample_world)))) = [].
Proof.
  apply (pruning_again_deletes_nothing "D" 1 "nightly" sample_world PyNone).
  - lia.
  - vm_compute. repeat constructor; simpl; intuition discriminate.
  - vm_compute. lia.
  - vm_compute. reflexivity.
Defined.

(** With pages shorter than the list of archives a second pruning goes
    on deleting: the page shows the newest entries only. *)
Example pruning_again_with_a_short_page :
  let r1 := delete_old_backups "D" 1 "nightly" short_page_world in
  let r2 := delete_old_backups "D" 1 "nightly" (snd r1) in
  fst r1 = Return PyNone /\ deletions_since short_page_world (snd r1) = ["z3"] /\
  fst r2 = Return PyNone /\ deletions_since (snd r1) (snd r2) = ["z1"].
Proof. vm_compute. repeat split; reflexivity. Qed.

(** X13. A negative [versions_to_keep] counts from the end of the listing:
    with [-k] the loop goes over the [k] oldest listed archives (all of
    them when fewer are listed) and the newer ones stay. *)
Theorem negative_count_deletes_the_oldest :
  forall dest N label w,
    (N < 0)%Z ->
    mem dest (fail_list w) = false ->
    NoDup (map item_id (drive w)) ->
    let fs := retention_listing w dest label in
    let k := Nat.min (length fs) (Z.to_nat (- N)) in
    let kept := firstn (length fs - k) fs in
    let old := skipn (length fs - k) fs in
    let r := delete_old_backups dest N label w in
    length old = k /\
    (exists rest, map item_id old = deletions_since w (snd r) ++ rest) /\
    (fst r = Return PyNone -> deletions_since w (snd r) = map item_id old) /\
    ((forall f, In f old -> mem (item_id f) (fail_delete w) = false) ->
     fst r = Return PyNone) /\
    (forall f, In f kept ->
               ~ In (item_id f) (deletions_since w (snd r)) /\ In f (drive (snd r))).
Proof.
  intros dest N label w HN Hl Hnd fs k kept old r.
  assert (Hlen : length old = k).
  { unfold old, k. rewrite length_skipn. lia. }
  pose proof (delete_old_backups_steps dest N label w Hl) as E.
  cbv zeta in E. fold fs in E. fold r in E.
  set (w0 := log_call _ w) in E.
  assert (Hgt : (Z.of_nat (length fs) >? N)%Z = true).
  { apply Z.gtb_lt. lia. }
  rewrite Hgt in E.
  assert (Hsl : list_slice_from fs N = old).
  { unfold list_slice_from, old, k.
    assert (Hlt : (N <? 0)%Z = true) by now apply Z.ltb_lt.
    rewrite Hlt. f_equal. lia. }
  rewrite Hsl in E.
  destruct (delete_loop old w0) as (att & rest & Hm & Hdel & Hfd & Hdr & Hok & Herr).
  assert (Hatt : deletions_since w (snd r) = att).
  { apply deletions_since_app.
    replace (snd r) with (snd (for_each old (fun file => files_delete (item_id file)) w0)).
    - rewrite Hdel. unfold w0; simpl. rewrite deletions_app; simpl.
      now rewrite app_nil_r.
    - rewrite E. now destruct (for_each old _ w0) as [[[] | e] w1]. }
  assert (Hdisj : forall f, In f kept -> ~ In (item_id f) (map item_id old)).
  { intros f Hf. now apply retention_split_disjoint. }
  split; [exact Hlen |].
  split; [exists rest; now rewrite Hatt |].
  split.
  { intros Hret. rewrite Hatt, Hm. rewrite Hok; [now rewrite app_nil_r |].
    rewrite E in Hret.
    destruct (for_each old _ w0) as [[[] | e] w1]; [reflexivity | discriminate]. }
  split.
  { intros Hnofail. rewrite E.
    assert (Hs : fst (for_each old (fun file => files_delete (item_id file)) w0)
                 = Return tt).
    { apply delete_loop_succeeds.
      - pose proof (retention_listing_NoDup w dest label Hnd) as H.
        fold fs in H. rewrite <- (firstn_skipn (length fs - k) fs), map_app in H.
        now apply NoDup_app_remove_l in H.
      - intros f Hf. apply skipn_In in Hf.
        now apply retention_listing_incl in Hf.
      - exact Hnofail. }
    now destruct (for_each old _ w0) as [[[] | e] w1]. }
  intros f Hf. rewrite Hatt.
  assert (Hnot : ~ In (item_id f) att).
  { intros Hin. apply (Hdisj f Hf). rewrite Hm. apply in_or_app. now left. }
  split; [exact Hnot |].
  rewrite E.
  assert (Hin : In f (drive w)).
  { apply firstn_In in Hf. now apply retention_listing_incl in Hf. }
  specialize (Hdr f Hin Hnot).
  now destruct (for_each old _ w0) as [[[] | e] w1].
Qed.

Lemma negative_count_deletes_the_oldest_witness :
  deletions_since sample_world
    (snd (delete_old_backups "D" (-2) "nightly" sample_world))
  = map item_id (skipn (3 - 2) (retention_listing sample_world "D" "nightly")).
Proof.
  apply (negative_count_deletes_the_oldest "D" (-2) "nightly" sample_world).
  - lia.
  - vm_compute; reflexivity.
  - vm_compute. repeat constructor; simpl; intuition discriminate.
  - vm_compute; reflexivity.
Defined.

Lemma prune_requests_in_the_query dest N label w i :
  In i (deletions_since w (snd (delete_old_backups dest N label w))) ->
  exists f, In f (drive w) /\ item_id f = i /\
            mem dest (item_parents f) = true /\
            item_mimeType f = "application/zip" /\
            contains label (item_name f) = true.
Proof.
  intros Hi.
  destruct (prune_touches_only_listed dest N label w) as [Honly _].
  destruct (Honly i Hi) as (f & Hf & Ei).
  apply retention_listing_incl in Hf as [Hin Hm].
  unfold matches in Hm. cbn in Hm.
  apply andb_true_iff in Hm as [Hm Hc].
  apply andb_true_iff in Hm as [Hm Ht].
  apply andb_true_iff in Hm as [Hp _].
  apply String.eqb_eq in Ht.
  exists f. repeat split; assumption.
Qed.

Lemma outside_the_query_survives dest N label w u :
  NoDup (map item_id (drive w)) ->
  In u (drive w) ->
  mem dest (item_parents u) = false \/
  item_mimeType u <> "application/zip" \/
  contains label (item_name u) = false ->
  ~ In (item_id u) (deletions_since w (snd (delete_old_backups dest N label w))) /\
  In u (drive (snd (delete_old_backups dest N label w))).
Proof.
  intros Hnd Hu Hout.
  assert (Hnot : ~ In (item_id u)
                     (deletions_since w (snd (delete_old_backups dest N label w)))).
  { intros Hi.
    destruct (prune_requests_in_the_query _ _ _ _ _ Hi) as (f & Hf & Ei & Hp & Ht & Hc).
    assert (f = u) by (eapply same_id_same_item; eauto). subst f.
    destruct Hout as [H | [H | H]]; [congruence | contradiction | congruence]. }
  split; [exact Hnot |].
  destruct (prune_touches_only_listed dest N label w) as [_ Hstay].
  now apply Hstay.
Qed.

(** X14. Pruning stays within its query: with a label that is a
    [plain_literal], a deletion is requested only for a file of the
    destination folder, of type zip, whose name contains the label; every
    other file of the store is still there afterwards. *)
Theorem pruning_stays_within_its_query :
  forall dest N label w,
    plain_literal label = true ->
    let r := delete_old_backups dest N label w in
    (forall i, In i (deletions_since w (snd r)) ->
               exists f, In f (drive w) /\ item_id f = i /\
                         mem dest (item_parents f) = true /\
                         item_mimeType f = "application/zip" /\
                         contains label (item_name f) = true) /\
    (forall u, NoDup (map item_id (drive w)) ->
               In u (drive w) ->
               mem dest (item_parents u) = false \/
               item_mimeType u <> "application/zip" \/
               contains label (item_name u) = false ->
               ~ In (item_id u) (deletions_since w (snd r)) /\
               In u (drive (snd r))).
Proof.
  intros dest N label w _ r. split.
  - intros i. apply prune_requests_in_the_query.
  - intros u. apply outside_the_query_survives.
Qed.

Lemma pruning_stays_within_its_query_witness :
  (forall i, In i (deletions_since sample_world
                     (snd (delete_old_backups "D" 1 "nightly" sample_world))) ->
             exists f, In f (drive sample_world) /\ item_id f = i /\
                       mem "D" (item_parents f) = true /\
                       item_mimeType f = "application/zip" /\
                       contains "nightly" (item_name f) = true) /\
  (forall u, NoDup (map item_id (drive sample_world)) ->
             In u (drive sample_world) ->
             mem "D" (item_parents u) = false \/
             item_mimeType u <> "application/zip" \/
             contains "nightly" (item_name u) = false ->
             ~ In (item_id u)
                  (deletions_since sample_world
                     (snd (delete_old_backups "D" 1 "nightly" sample_world))) /\
             In u (drive (snd (delete_old_backups "D" 1 "nightly" sample_world)))).
Proof.
  apply (pruning_stays_within_its_query "D" 1 "nightly" sample_world).
  reflexivity.
Defined.

(** X15. A run whose label is a [plain_literal] deletes zip files of its
    destination folder with the label in their name and nothing else:
    whatever the run returns or raises, every file that was in the store
    and is outside the destination folder, or is not of type zip, or has
    not the label in its name, is still there. *)
Theorem run_keeps_every_other_file :
  forall targz cfg w u,
    plain_literal (backup_name cfg) = true ->
    NoDup (map item_id (drive w)) ->
    In u (drive w) ->
    mem (dest_folder_id cfg) (item_parents u) = false \/
    item_mimeType u <> "application/zip" \/
    contains (backup_name cfg) (item_name u) = false ->
    In u (drive (snd (main targz cfg w))).
Proof.
  intros targz cfg w u _ Hnd Hu Hout. rewrite main_stages.
  pose proof (backup_folder_never_deletes targz (source_folder_ids cfg)
                (dest_folder_id cfg) (backup_name cfg) w) as [_ Hkeep].
  destruct (backup_folder targz (source_folder_ids cfg) (dest_folder_id cfg)
                          (backup_name cfg) w) as [[v | e] wb] eqn:Hb.
  - apply backup_folder_uploads in Hb as (media & Hd & _ & _).
    assert (Hnd' : NoDup (map item_id (drive wb))).
    { rewrite Hd, map_app. apply NoDup_app; [exact Hnd | repeat constructor; auto |].
      intros a Ha [<- | []]. revert Ha. apply fresh_id_is_fresh. }
    assert (Hu' : In u (drive wb)).
    { rewrite Hd. apply in_or_app. now left. }
    destruct (outside_the_query_survives (dest_folder_id cfg) (versions_to_keep cfg)
                (backup_name cfg) wb u Hnd' Hu' Hout) as [_ Hin].
    now destruct (delete_old_backups _ _ _ wb) as [[? | ?] ?].
  - simpl in *. now rewrite Hkeep.
Qed.

Lemma run_keeps_every_other_file_witness :
  In (plain_file "a" "a.txt" "F1" [no_bytes 4])
     (drive (snd (main (fun _ => []) sample_config refusing_world))).
Proof.
  apply (run_keeps_every_other_file (fun _ => []) sample_config refusing_world).
  - reflexivity.
  - vm_compute. repeat constructor; simpl; intuition discriminate.
  - now left.
  - left. reflexivity.
Defined.

(** ** Names in the order of time *)

Lemma ascii_compare_refl c : Ascii.compare c c = Eq.
Proof. unfold Ascii.compare. apply N.compare_refl. Qed.

Lemma string_compare_refl s : String.compare s s = Eq.
Proof.
  induction s as [| c s IH]; [reflexivity |].
  simpl. now rewrite ascii_compare_refl.
Qed.

(** Two fields of the same length, each followed by the same separator:
    the fields decide, and the rest when they are equal. *)
Lemma compare_field (c : ascii) : forall a b s t : string,
  String.length a = String.length b ->
  String.compare (a ++ String c s) (b ++ String c t)
  = match String.compare a b with
    | Eq => String.compare s t
    | r => r
    end.
Proof.
  induction a as [| x a IH]; intros [| y b] s t Hlen; try discriminate.
  - simpl. now rewrite ascii_compare_refl.
  - simpl. destruct (Ascii.compare x y); try reflexivity.
    apply IH. simpl in Hlen. lia.
Qed.

Lemma compare_snoc : forall (a b : string) (x y : ascii),
  String.length a = String.length b ->
  String.compare (a ++ String x "") (b ++ String y "")
  = match String.compare a b with
    | Eq => Ascii.compare x y
    | r => r
    end.
Proof.
  induction a as [| c a IH]; intros [| d b] x y Hlen; try discriminate.
  - simpl. now destruct (Ascii.compare x y).
  - simpl. destruct (Ascii.compare c d); try reflexivity.
    apply IH. simpl in Hlen. lia.
Qed.

Lemma digit_char_compare a b :
  (0 <= a <= 9)%Z -> (0 <= b <= 9)%Z ->
  Ascii.compare (digit_char a) (digit_char b) = (a ?= b)%Z.
Proof.
  intros Ha Hb.
  assert (a = 0 \/ a = 1 \/ a = 2 \/ a = 3 \/ a = 4 \/ a = 5 \/ a = 6 \/ a = 7
          \/ a = 8 \/ a = 9)%Z as Da by lia.
  assert (b = 0 \/ b = 1 \/ b = 2 \/ b = 3 \/ b = 4 \/ b = 5 \/ b = 6 \/ b = 7
          \/ b = 8 \/ b = 9)%Z as Db by lia.
  repeat (destruct Da as [-> | Da]);
    repeat (destruct Db as [-> | Db]); subst; reflexivity.
Qed.

Lemma compare_by_last_digit m n :
  (m ?= n)%Z = match (m / 10 ?= n / 10)%Z with
               | Eq => (m mod 10 ?= n mod 10)%Z
               | r => r
               end.
Proof.
  destruct (Z.compare_spec (m / 10) (n / 10)) as [H | H | H].
  - destruct (Z.compare_spec (m mod 10) (n mod 10)) as [H' | H' | H'].
    + apply Z.compare_eq_iff. Z.to_euclidean_division_equations; lia.
    + apply Z.compare_lt_iff. Z.to_euclidean_division_equations; lia.
    + apply Z.compare_gt_iff. Z.to_euclidean_division_equations; lia.
  - apply Z.compare_lt_iff. Z.to_euclidean_division_equations; lia.
  - apply Z.compare_gt_iff. Z.to_euclidean_division_equations; lia.
Qed.

(** Numbers printed with the same number of digits compare as strings
    the way they compare as numbers. *)
Lemma fixed_digits_compare w : forall m n,
  (0 <= m < 10 ^ Z.of_nat w)%Z -> (0 <= n < 10 ^ Z.of_nat w)%Z ->
  String.compare (fixed_digits w m) (fixed_digits w n) = (m ?= n)%Z.
Proof.
  induction w as [| w IH]; intros m n Hm Hn.
  - simpl in *. assert (m = 0 /\ n = 0)%Z as [-> ->] by lia. reflexivity.
  - rewrite Nat2Z.inj_succ, Z.pow_succ_r in Hm, Hn by lia.
    cbn [fixed_digits].
    rewrite compare_snoc by now rewrite !fixed_digits_length.
    rewrite IH by (Z.to_euclidean_division_equations; lia).
    rewrite digit_char_compare by apply mod10_digit.
    symmetry. apply compare_by_last_digit.
Qed.

(** X16. The names of two archives of the same label compare, as strings, the
    way the times of their runs compare, read to the millisecond: a
    listing sorted by name is sorted by time. The year has four digits. *)
Theorem backup_names_sort_by_time :
  forall a b label,
    valid_datetime a -> valid_datetime b ->
    (1000 <= year a)%Z -> (1000 <= year b)%Z ->
    String.compare (backup_file_name a label) (backup_file_name b label)
    = lex_compare (stamp a) (stamp b).
Proof.
  intros a b label Ha Hb Hya Hyb.
  rewrite (backup_file_name_fields a label Ha Hya),
          (backup_file_name_fields b label Hb Hyb).
  destruct Ha as (Ha1 & Ha2 & Ha3 & Ha4 & Ha5 & Ha6 & Ha7).
  destruct Hb as (Hb1 & Hb2 & Hb3 & Hb4 & Hb5 & Hb6 & Hb7).
  assert (Hma : (0 <= microsecond a / 1000 <= 999)%Z)
    by (Z.to_euclidean_division_equations; lia).
  assert (Hmb : (0 <= microsecond b / 1000 <= 999)%Z)
    by (Z.to_euclidean_division_equations; lia).
  cbn [append stamp lex_compare].
  repeat (rewrite compare_field by now rewrite !fixed_digits_length).
  rewrite string_compare_refl.
  rewrite (fixed_digits_compare 4) by (change (10 ^ Z.of_nat 4)%Z with 10000%Z; lia).
  rewrite !(fixed_digits_compare 2) by (change (10 ^ Z.of_nat 2)%Z with 100%Z; lia).
  rewrite (fixed_digits_compare 3) by (change (10 ^ Z.of_nat 3)%Z with 1000%Z; lia).
  reflexivity.
Qed.

Lemma backup_names_sort_by_time_witness :
  String.compare
    (backup_file_name (mk_datetime 2024 3 7 9 5 59 123456) "nightly")
    (backup_file_name (mk_datetime 2024 11 2 0 0 0 0) "nightly")
  = lex_compare (stamp (mk_datetime 2024 3 7 9 5 59 123456))
                (stamp (mk_datetime 2024 11 2 0 0 0 0)).
Proof.
  apply backup_names_sort_by_time; unfold valid_datetime; simpl; lia.
Defined.

(** ** The list of source folders *)

Lemma str_split_not_nil sep s : str_split sep s <> [].
Proof.
  destruct s as [| c s]; simpl; [discriminate |].
  destruct (Ascii.eqb c sep); [discriminate |].
  destruct (str_split sep s); discriminate.
Qed.

(** X17. The source folders are the fields of the setting between its commas,
    as they are written: joined with commas they give the setting back,
    no field holds a comma, and there is one field more than commas, so
    never none. *)
Theorem source_ids_are_the_comma_fields :
  forall setting,
    let ids := str_split "," setting in
    String.concat "," ids = setting /\
    Forall (fun i => count_char "," i = 0) ids /\
    length ids = S (count_char "," setting).
Proof.
  intros setting. cbv zeta.
  induction setting as [| c s (IH1 & IH2 & IH3)].
  - repeat split. repeat constructor.
  - cbn [str_split count_char].
    pose proof (str_split_not_nil "," s) as Hne.
    destruct (str_split "," s) as [| p ps] eqn:E; [contradiction |].
    destruct (Ascii.eqb c ",") eqn:Ec.
    + apply Ascii.eqb_eq in Ec. subst c.
      split; [| split].
      * change (String.concat "," ("" :: p :: ps))
          with (String "," (String.concat "," (p :: ps))).
        now rewrite IH1.
      * constructor; [reflexivity | exact IH2].
      * simpl. now rewrite <- IH3.
    + split; [| split].
      * rewrite <- IH1. destruct ps; reflexivity.
      * inversion IH2 as [| ? ? Hp Hps]; subst.
        constructor; [| exact Hps]. simpl. now rewrite Ec.
      * simpl in *. exact IH3.
Qed.

(** ** A refused request ends the run *)

Lemma walks_on_refl tar w : walks_on tar w w.
Proof. split; [apply reads_only_refl | apply walker_frame_refl]. Qed.

Lemma walks_on_trans tar a b c :
  walks_on tar a b -> walks_on tar b c -> walks_on tar a c.
Proof.
  intros (R1 & F1) (R2 & F2).
  split; [eapply reads_only_trans; eauto | eapply walker_frame_trans; eauto].
Qed.

Lemma walker_walks_on depth tar folder_id current_path :
  preserves (walks_on tar) (add_files_to_archive depth tar folder_id current_path).
Proof.
  intro w. split; [apply walker_reads_only | apply walker_preserves_frame].
Qed.

Lemma source_step_walks_on depth tar src :
  preserves (walks_on tar) (add_files_to_archive depth tar src "" ;;; ret tt).
Proof.
  apply preserves_bind; [apply walks_on_trans | apply walker_walks_on |].
  intros; apply walks_on_refl.
Qed.

Lemma sends_more_refl w : sends_more w w.
Proof. exists []. now rewrite app_nil_r. Qed.

Lemma sends_more_trans a b c : sends_more a b -> sends_more b c -> sends_more a c.
Proof.
  intros (s1 & E1) (s2 & E2). exists (s1 ++ s2). now rewrite E2, E1, app_assoc.
Qed.

Lemma reads_only_sends_more w w' : reads_only w w' -> sends_more w w'.
Proof. intros (_ & sent & E & _). now exists sent. Qed.

Lemma request_or_stack_after w w1 w' e :
  sends_more w w1 -> request_or_stack w1 w' e -> request_or_stack w w' e.
Proof.
  intros (s & E) [-> | (c & earlier & -> & Ec)]; [now left |].
  right. exists c, (s ++ earlier). split; [reflexivity |].
  now rewrite Ec, E, <- !app_assoc.
Qed.

(** After a download that returned, the member is written: the archive
    is open and the buffer holds as many bytes as the header declares. *)
Lemma addfile_after_download tar name fileId w fh w1 :
  download fileId (mk_bytesio [] 0) w = (Return fh, w1) ->
  tar_is_open tar w ->
  fst (tar_addfile tar (mk_tarinfo name (bio_nbytes (bio_seek fh 0))) (bio_seek fh 0) w1)
  = Return tt.
Proof.
  intros Ed (entries & Ho).
  apply download_returns in Ed as (data & _ & -> & ->).
  unfold tar_addfile.
  change (local_fs (log_call (ApiGetMedia fileId) w)) with (local_fs w).
  rewrite Ho. cbn [ti_size ti_name].
  assert (Hnb : Z.to_nat (bio_nbytes (bio_seek (mk_bytesio data (length data)) 0))
                = length data).
  { unfold bio_nbytes; simpl. apply Nat2Z.id. }
  rewrite Hnb.
  assert (Hread : bio_read (bio_seek (mk_bytesio data (length data)) 0) (length data)
                  = data).
  { unfold bio_read; simpl. apply firstn_all. }
  now rewrite Hread, Nat.ltb_irrefl.
Qed.

(** What the walker raises while it writes to an open archive: the
    error of a request, its last one, or [RecursionError]. *)
Lemma walker_error_kinds depth : forall tar folder_id current_path w e w',
  tar_is_open tar w ->
  add_files_to_archive depth tar folder_id current_path w = (Raise e, w') ->
  request_or_stack w w' e.
Proof.
  induction depth as [| depth IH]; intros tar folder_id current_path w e w' Ho Hrun.
  { injection Hrun as <- <-. now left. }
  rewrite walker_step in Hrun. cbv zeta in Hrun.
  destruct (mem folder_id (fail_list w)).
  { injection Hrun as <- <-. right. eexists. exists []. split; reflexivity. }
  set (w0 := log_call _ w) in Hrun. set (body := fun item : item => _) in Hrun.
  destruct (for_each _ body w0) as [[[] | e1] w1] eqn:Ef; [discriminate |].
  injection Hrun as -> ->.
  assert (H0 : sends_more w w0) by (eexists; reflexivity).
  apply (request_or_stack_after w w0 w' e H0).
  apply (for_each_raises (walks_on tar)) in Ef as (x & w2 & _ & (Hr & Hfr) & Eb);
    [| apply walks_on_refl | apply walks_on_trans |].
  - apply (request_or_stack_after w0 w2 w' e (reads_only_sends_more _ _ Hr)).
    assert (Ho2 : tar_is_open tar w2).
    { apply Hfr. destruct Ho as (entries & Ho). now exists entries. }
    unfold body in Eb. destruct (String.eqb (item_mimeType x) FOLDER_MIME).
    + rewrite bind_unfold in Eb.
      destruct (add_files_to_archive depth tar (item_id x) _ w2)
        as [[v2 | e2] w3] eqn:Ew; [discriminate |].
      injection Eb as -> ->. now apply IH in Ew.
    + rewrite bind_unfold in Eb.
      destruct (download (item_id x) (mk_bytesio [] 0) w2) as [[fh | e2] w3] eqn:Ed.
      * pose proof (addfile_after_download tar
                      (os_path_join current_path (item_name x)) _ _ _ _ Ed Ho2) as Hok.
        cbv zeta in Eb. rewrite Eb in Hok. discriminate Hok.
      * injection Eb as -> ->.
        apply download_raises in Ed as [-> ->].
        right. eexists. exists []. split; reflexivity.
  - intros y w3 _. unfold body.
    destruct (String.eqb (item_mimeType y) FOLDER_MIME).
    + apply preserves_bind; [apply walks_on_trans | apply walker_walks_on |].
      intros; apply walks_on_refl.
    + apply preserves_bind; [apply walks_on_trans | |].
      * intro w4. rewrite download_world.
        split; [now apply log_read_reads_only |].
        rewrite <- (download_world (item_id y) (mk_bytesio [] 0) w4).
        apply download_frame.
      * intros fh w4 w5 _.
        split; [apply tar_addfile_reads_only | apply tar_addfile_frame].
Qed.

Lemma tar_close_calls tar st w : calls (tar_close tar st w) = calls w.
Proof. unfold tar_close. now destruct (fs_lookup tar (local_fs w)). Qed.

Lemma archive_stage_error_kinds srcs w e w1 :
  archive_stage srcs w = (Raise e, w1) -> request_or_stack w w1 e.
Proof.
  unfold archive_stage, with_tarfile, tarfile_open.
  set (w0 := set_local_fs _ w).
  set (step := fun source_folder_id : string => _).
  intros Hrun.
  destruct (for_each srcs step w0) as [[[] | e1] w2] eqn:Ef; [discriminate |].
  injection Hrun as -> <-.
  assert (Hopen : tar_is_open archive_file_path w0).
  { exists []. unfold w0. rewrite local_fs_set. apply fs_lookup_write. }
  apply (for_each_raises (walks_on archive_file_path)) in Ef
    as (x & w3 & _ & (Hr & Hfr) & Eb);
    [| apply walks_on_refl | apply walks_on_trans
     | intros; apply source_step_walks_on].
  unfold step in Eb. rewrite bind_unfold in Eb.
  destruct (add_files_to_archive (stack_depth w) archive_file_path x "" w3)
    as [[v | e2] w4] eqn:Ew; [discriminate |].
  injection Eb as -> ->.
  apply walker_error_kinds in Ew; [| now apply Hfr].
  apply reads_only_sends_more in Hr.
  pose proof (request_or_stack_after w0 w3 w2 e Hr Ew) as [-> | (c & earlier & -> & Ec)];
    [now left |].
  right. exists c, earlier. split; [reflexivity |].
  rewrite tar_close_calls. exact Ec.
Qed.

Lemma backup_folder_error_kinds targz srcs dest name w e wb :
  backup_folder targz srcs dest name w = (Raise e, wb) -> request_or_stack w wb e.
Proof.
  intros H. rewrite backup_folder_stages in H.
  pose proof (archive_stage_spec srcs w) as (_ & (_ & reads & Ec & _) & members & _ & Hl).
  pose proof (archive_stage_error_kinds srcs w) as Hk.
  destruct (archive_stage srcs w) as [[[] | e1] w1]; simpl in *.
  - unfold MediaFileUpload in H. rewrite Hl in H. cbn [tf_entries] in H.
    unfold files_create in H. destruct (fail_create w1).
    + injection H as <- <-. right. eexists. exists reads.
      split; [reflexivity |]. simpl. rewrite Ec. now rewrite <- app_assoc.
    + unfold os_remove in H.
      match type of H with
      | context [fs_lookup archive_file_path (local_fs ?x)] =>
          change (local_fs x) with (local_fs w1) in H
      end.
      rewrite Hl in H. discriminate.
  - injection H as <- <-. now apply Hk.
Qed.

Lemma backup_folder_sends_more targz srcs dest name w :
  sends_more w (snd (backup_folder targz srcs dest name w)).
Proof.
  rewrite backup_folder_stages.
  pose proof (archive_stage_spec srcs w) as (_ & (_ & reads & Ec & _) & members & _ & Hl).
  destruct (archive_stage srcs w) as [[[] | e1] w1]; simpl in *.
  - unfold MediaFileUpload. rewrite Hl. cbn [tf_entries].
    unfold files_create. destruct (fail_create w1).
    + unfold sends_more. simpl. rewrite Ec, <- app_assoc. now eexists.
    + unfold os_remove.
      match goal with
      | |- context [fs_lookup archive_file_path (local_fs ?x)] =>
          change (local_fs x) with (local_fs w1)
      end.
      rewrite Hl. unfold sends_more. simpl. rewrite Ec, <- app_assoc. now eexists.
  - now exists reads.
Qed.

Lemma files_delete_raises fileId w e w1 :
  files_delete fileId w = (Raise e, w1) ->
  e = HttpError (ApiDelete fileId) /\ w1 = log_call (ApiDelete fileId) w.
Proof.
  unfold files_delete. destruct (_ || _); [now intros [= <- <-] | discriminate].
Qed.

Lemma files_delete_sends_more fileId : preserves sends_more (files_delete fileId).
Proof.
  intro w. unfold files_delete. destruct (_ || _); now exists [ApiDelete fileId].
Qed.

(** What the retention step raises is the error of a request, the last
    one it sent. *)
Lemma prune_error_kinds dest N label w e w' :
  delete_old_backups dest N label w = (Raise e, w') -> request_or_stack w w' e.
Proof.
  intros H. unfold delete_old_backups in H. rewrite bind_unfold in H.
  set (q := mk_query dest None (Some "application/zip") (Some label)) in H.
  pose proof (files_list_world q (Some createdTime_desc) None w) as Hw.
  destruct (files_list q (Some createdTime_desc) None w) as [[pg | e1] w0] eqn:El.
  - simpl in Hw. subst w0.
    destruct (_ >? N)%Z; [| discriminate].
    rewrite bind_unfold in H.
    destruct (for_each _ _ _) as [[[] | e1] w1] eqn:Ef; [discriminate |].
    injection H as -> ->.
    apply (for_each_raises sends_more) in Ef as (x & w2 & _ & Hs & Eb);
      [| apply sends_more_refl | apply sends_more_trans
       | intros; apply files_delete_sends_more].
    apply files_delete_raises in Eb as [-> ->].
    apply (request_or_stack_after w (log_call (ApiList q) w));
      [now exists [ApiList q] |].
    apply (request_or_stack_after _ w2 _ _ Hs).
    right. eexists. exists []. split; reflexivity.
  - simpl in Hw. subst w0. injection H as <- <-.
    unfold files_list in El. destruct (mem _ _); [| discriminate].
    injection El as <-. right. eexists. exists []. split; reflexivity.
Qed.

(** X19. When the run raises the error of a request, a listing, a
    download, the upload or a deletion, that request is the last one it
    sent: after a refused request nothing more is requested, neither by
    [backup_folder] nor by [delete_old_backups]. *)
Theorem run_stops_at_the_refused_request :
  forall targz cfg w c wf,
    main targz cfg w = (Raise (HttpError c), wf) ->
    exists earlier, calls wf = calls w ++ earlier ++ [c].
Proof.
  intros targz cfg w c wf H. rewrite main_stages in H.
  pose proof (backup_folder_error_kinds targz (source_folder_ids cfg)
                (dest_folder_id cfg) (backup_name cfg) w) as Hb.
  pose proof (backup_folder_sends_more targz (source_folder_ids cfg)
                (dest_folder_id cfg) (backup_name cfg) w) as Hs.
  assert (Hk : request_or_stack w wf (HttpError c)).
  { destruct (backup_folder targz (source_folder_ids cfg) (dest_folder_id cfg)
                            (backup_name cfg) w) as [[v | e1] wb].
    - simpl in Hs.
      destruct (delete_old_backups (dest_folder_id cfg) (versions_to_keep cfg)
                                   (backup_name cfg) wb) as [[v' | e2] wp] eqn:Ep;
        [discriminate |].
      injection H as -> ->.
      apply prune_error_kinds in Ep.
      exact (request_or_stack_after w wb wf _ Hs Ep).
    - injection H as -> ->. now apply Hb. }
  destruct Hk as [Hk | (c' & earlier & Hc & E)]; [discriminate Hk |].
  injection Hc as ->. now exists earlier.
Qed.

Lemma run_stops_at_the_refused_request_witness :
  exists earlier,
    calls (snd (main (fun _ => []) sample_config refusing_world))
    = calls refusing_world ++ earlier ++ [ApiDelete "z3"].
Proof.
  apply (run_stops_at_the_refused_request (fun _ => []) sample_config refusing_world).
  vm_compute; reflexivity.
Defined.
